(** * RTOS.c: a round-robin kernel nucleus for ARM Cortex-M

    A shallow embedding of [src/RTOS.c]: the thread control block, the
    frame builder [OS_ThreadInit], the tick handler [SysTick_Handler]
    and the context-switch trampoline [PendSV_Handler].

    The C functions are state transformers over a machine; the naked
    assembly handler is kept as the list of its instructions and run by
    an interpreter of the Thumb-2 subset it uses.

    - Values are 32-bit words, carried as [Z] with the wrap-around
      written out.
    - RAM holds one word per byte address; every access of the code is a
      word access through a [uint32_t *], a [TCB *] or a stack pointer,
      and a misaligned one faults (the result is [None]).
    - The two globals live at link-time addresses, a parameter [symaddr].
    - [SCB->ICSR] is a device register and is kept apart from RAM.
    - The machine logs its RAM accesses, so that what a function reads
      and writes can be stated.
    - [BX LR] with an EXC_RETURN value ends a handler; the exception
      return of the processor is modelled for the value the trampoline
      uses.  Exception entry, priorities and timing are not modelled:
      handlers run to completion, one after the other. *)

From Stdlib Require Import ZArith List Lia Bool String.
Import ListNotations.
Open Scope Z_scope.

(** ** Words and addresses *)

Definition wrap (x : Z) : Z := x mod 2 ^ 32.

Definition aligned (a : Z) : bool := a mod 4 =? 0.

Definition word32 (x : Z) : Prop := 0 <= x < 2 ^ 32.

(** ** Machine state *)

(** Core registers the code names.  The stack pointer is banked; the
    handlers only ever name the process stack pointer, through MRS/MSR. *)
Inductive reg : Type :=
| R0 | R1 | R2 | R3 | R4 | R5 | R6 | R7 | R8 | R9 | R10 | R11 | R12 | LR.

Definition reg_index (r : reg) : nat :=
  match r with
  | R0 => 0 | R1 => 1 | R2 => 2 | R3 => 3 | R4 => 4 | R5 => 5 | R6 => 6
  | R7 => 7 | R8 => 8 | R9 => 9 | R10 => 10 | R11 => 11 | R12 => 12
  | LR => 14
  end%nat.

Definition reg_eqb (a b : reg) : bool := Nat.eqb (reg_index a) (reg_index b).

(** One entry of the memory-access log. *)
Inductive access : Type :=
| Rd (a : Z)
| Wr (a v : Z).

Record machine : Type := mkMachine {
  mem   : Z -> Z;        (* RAM: word-aligned byte address -> word *)
  gpr   : reg -> Z;      (* R0..R12, LR *)
  psp   : Z;             (* process stack pointer *)
  zflag : bool;          (* APSR.Z *)
  pc    : Z;             (* thread-mode program counter *)
  xpsr  : Z;             (* program status register of the thread *)
  icsr  : Z;             (* SCB->ICSR, the interrupt control and state register *)
  log   : list access    (* RAM accesses so far, oldest first *)
}.

Definition read_word (m : Z -> Z) (a : Z) : Z := wrap (m (wrap a)).

Definition write_word (m : Z -> Z) (a v : Z) : Z -> Z :=
  fun x => if x =? wrap a then wrap v else m x.

Definition set_reg (f : reg -> Z) (r : reg) (v : Z) : reg -> Z :=
  fun x => if reg_eqb x r then wrap v else f x.

Definition with_mem (s : machine) (m : Z -> Z) (l : list access) : machine :=
  mkMachine m (gpr s) (psp s) (zflag s) (pc s) (xpsr s) (icsr s) l.

Definition with_gpr (s : machine) (g : reg -> Z) : machine :=
  mkMachine (mem s) g (psp s) (zflag s) (pc s) (xpsr s) (icsr s) (log s).

Definition with_psp (s : machine) (v : Z) : machine :=
  mkMachine (mem s) (gpr s) (wrap v) (zflag s) (pc s) (xpsr s) (icsr s) (log s).

Definition with_zflag (s : machine) (z : bool) : machine :=
  mkMachine (mem s) (gpr s) (psp s) z (pc s) (xpsr s) (icsr s) (log s).

Definition with_icsr (s : machine) (v : Z) : machine :=
  mkMachine (mem s) (gpr s) (psp s) (zflag s) (pc s) (xpsr s) (wrap v) (log s).

Definition with_pc_xpsr (s : machine) (p x : Z) : machine :=
  mkMachine (mem s) (gpr s) (psp s) (zflag s) (wrap p) (wrap x) (icsr s) (log s).

(** ** A state-and-fault monad *)

Definition M (A : Type) : Type := machine -> option (A * machine).

Definition ret {A : Type} (a : A) : M A := fun s => Some (a, s).

Definition bind {A B : Type} (m : M A) (k : A -> M B) : M B :=
  fun s => match m s with
           | Some (a, s') => k a s'
           | None => None
           end.

Definition fault {A : Type} : M A := fun _ => None.

Declare Scope machine_scope.
Delimit Scope machine_scope with machine.
Notation "x <- m ;; k" := (bind m (fun x => k))
  (at level 61, m at next level, right associativity) : machine_scope.
Notation "m ;; k" := (bind m (fun _ => k))
  (at level 61, right associativity) : machine_scope.
Open Scope machine_scope.

(** A word load: [*(uint32_t * )a], or LDR. *)
Definition load32 (a : Z) : M Z := fun s =>
  if aligned a
  then Some (read_word (mem s) a, with_mem s (mem s) (log s ++ [Rd (wrap a)]))
  else None.

(** A word store: [*(uint32_t * )a = v], or STR. *)
Definition store32 (a v : Z) : M unit := fun s =>
  if aligned a
  then Some (tt, with_mem s (write_word (mem s) a v) (log s ++ [Wr (wrap a) (wrap v)]))
  else None.

Definition get_reg (r : reg) : M Z := fun s => Some (wrap (gpr s r), s).

Definition put_reg (r : reg) (v : Z) : M unit := fun s =>
  Some (tt, with_gpr s (set_reg (gpr s) r v)).

(** ** The thread control block

    [typedef struct TCB { uint32_t *stack_pointer; struct TCB *next; } TCB;]
    Both members are 4-byte pointers, so the members sit at byte offsets
    0 and 4. *)
Definition TCB_stack_pointer (tcb : Z) : Z := tcb.
Definition TCB_next (tcb : Z) : Z := tcb + 4.

(** The two global scheduler pointers. *)
Inductive symbol : Type := next_tcb | current_tcb.

(** ** OS_ThreadInit *)

(** [*(--sp) = v]: pre-decrement by one word, then store. *)
Definition push (sp v : Z) : M Z :=
  let sp' := wrap (sp - 4) in
  store32 sp' v ;; ret sp'.

Definition OS_ThreadInit (tcb stack_array stack_size task : Z) : M unit :=
  let sp := wrap (stack_array + 4 * stack_size) in
  sp <- push sp 0x01000000 ;;   (* xPSR *)
  sp <- push sp task ;;         (* PC *)
  sp <- push sp 0 ;;            (* LR *)
  sp <- push sp 0 ;;            (* R12 *)
  sp <- push sp 0 ;;            (* R3 *)
  sp <- push sp 0 ;;            (* R2 *)
  sp <- push sp 0 ;;            (* R1 *)
  sp <- push sp 0 ;;            (* R0 *)
  sp <- push sp 0 ;;            (* R11 *)
  sp <- push sp 0 ;;            (* R10 *)
  sp <- push sp 0 ;;            (* R9 *)
  sp <- push sp 0 ;;            (* R8 *)
  sp <- push sp 0 ;;            (* R7 *)
  sp <- push sp 0 ;;            (* R6 *)
  sp <- push sp 0 ;;            (* R5 *)
  sp <- push sp 0 ;;            (* R4 *)
  store32 (TCB_stack_pointer tcb) sp.

(** ** The Thumb-2 subset of the trampoline *)

Definition label : Type := string.

Inductive instr : Type :=
| LDR_sym (rt : reg) (x : symbol)       (* LDR Rt, =x      address of a global *)
| LDR_const (rt : reg) (c : Z)          (* LDR Rt, =c      32-bit literal *)
| LDR (rt rn : reg)                     (* LDR Rt, [Rn] *)
| STR (rt rn : reg)                     (* STR Rt, [Rn] *)
| CMP (rn : reg) (imm : Z)              (* CMP Rn, #imm *)
| BEQ (l : label)                       (* BEQ l *)
| MRS_PSP (rd : reg)                    (* MRS Rd, PSP *)
| MSR_PSP (rn : reg)                    (* MSR PSP, Rn *)
| STMDB (rn : reg) (rl : list reg)      (* STMDB Rn!, {rl} *)
| LDMIA (rn : reg) (rl : list reg)      (* LDMIA Rn!, {rl} *)
| ISB
| MOV (rd rm : reg)                     (* MOV Rd, Rm *)
| BX (rm : reg)                         (* BX Rm *)
| LABEL (l : label).                    (* l: *)

Inductive outcome : Type :=
| Next (pc : nat)
| Return (target : Z).

Fixpoint find_label (l : label) (p : list instr) : option nat :=
  match p with
  | [] => None
  | LABEL l' :: p' =>
      if String.eqb l l' then Some O else option_map S (find_label l p')
  | _ :: p' => option_map S (find_label l p')
  end.

(** Store the listed registers at ascending addresses from [a]. *)
Fixpoint store_regs (a : Z) (rl : list reg) : M unit :=
  match rl with
  | [] => ret tt
  | r :: rl' => v <- get_reg r ;; store32 a v ;; store_regs (wrap (a + 4)) rl'
  end.

(** Load the listed registers from ascending addresses from [a]. *)
Fixpoint load_regs (a : Z) (rl : list reg) : M unit :=
  match rl with
  | [] => ret tt
  | r :: rl' => v <- load32 a ;; put_reg r v ;; load_regs (wrap (a + 4)) rl'
  end.

Definition get_psp : M Z := fun s => Some (wrap (psp s), s).

(** The stack pointers ignore writes to bits [1:0]. *)
Definition put_psp (v : Z) : M unit := fun s =>
  Some (tt, with_psp s (4 * (wrap v / 4))).

Definition put_zflag (z : bool) : M unit := fun s => Some (tt, with_zflag s z).

Definition get_zflag : M bool := fun s => Some (zflag s, s).

Definition get_icsr : M Z := fun s => Some (wrap (icsr s), s).

Definition put_icsr (v : Z) : M unit := fun s => Some (tt, with_icsr s v).

Section Kernel.

(** Link-time addresses of the two globals. *)
Variable symaddr : symbol -> Z.

Definition step (prog : list instr) (pc : nat) (i : instr) : M outcome :=
  match i with
  | LDR_sym rt x => put_reg rt (symaddr x) ;; ret (Next (S pc))
  | LDR_const rt c => put_reg rt c ;; ret (Next (S pc))
  | LDR rt rn => a <- get_reg rn ;; v <- load32 a ;; put_reg rt v ;; ret (Next (S pc))
  | STR rt rn => a <- get_reg rn ;; v <- get_reg rt ;; store32 a v ;; ret (Next (S pc))
  | CMP rn imm => v <- get_reg rn ;; put_zflag (v =? wrap imm) ;; ret (Next (S pc))
  | BEQ l =>
      z <- get_zflag ;;
      if z then match find_label l prog with
                | Some t => ret (Next t)
                | None => fault
                end
      else ret (Next (S pc))
  | MRS_PSP rd => v <- get_psp ;; put_reg rd v ;; ret (Next (S pc))
  | MSR_PSP rn => v <- get_reg rn ;; put_psp v ;; ret (Next (S pc))
  | STMDB rn rl =>
      base <- get_reg rn ;;
      let a := wrap (base - 4 * Z.of_nat (List.length rl)) in
      store_regs a rl ;; put_reg rn a ;; ret (Next (S pc))
  | LDMIA rn rl =>
      base <- get_reg rn ;;
      load_regs base rl ;;
      put_reg rn (base + 4 * Z.of_nat (List.length rl)) ;; ret (Next (S pc))
  | ISB => ret (Next (S pc))
  | MOV rd rm => v <- get_reg rm ;; put_reg rd v ;; ret (Next (S pc))
  | BX rm => v <- get_reg rm ;; ret (Return v)
  | LABEL _ => ret (Next (S pc))
  end.

(** Run from instruction index [pc] until a BX; the result is the
    branch target. *)
Fixpoint exec (prog : list instr) (fuel : nat) (pc : nat) : M Z :=
  match fuel with
  | O => fault
  | S fuel' =>
      match nth_error prog pc with
      | None => fault
      | Some i =>
          o <- step prog pc i ;;
          match o with
          | Next pc' => exec prog fuel' pc'
          | Return t => ret t
          end
      end
  end.

(** A handler is entered at its first instruction; every branch of the
    listing goes forward, so one unit of fuel per line is enough. *)
Definition run_handler (prog : list instr) : M Z :=
  exec prog (List.length prog) O.

(** ** SysTick_Handler *)

Definition SysTick_Handler : M unit :=
  cur <- load32 (symaddr current_tcb) ;;
  nxt <- load32 (TCB_next cur) ;;
  store32 (symaddr next_tcb) nxt ;;            (* next_tcb = current_tcb->next; *)
  v <- get_icsr ;;
  put_icsr (Z.lor v (Z.shiftl 1 28)).          (* SCB->ICSR |= (1UL<<28); *)

(** ** PendSV_Handler *)

Definition PendSV_Handler : list instr :=
  [ LDR_sym R1 current_tcb;
    LDR R2 R1;
    CMP R2 0;
    BEQ "LoadNewContext"%string;
    MRS_PSP R0;
    STMDB R0 [R4; R5; R6; R7; R8; R9; R10; R11];
    STR R0 R2;
    LABEL "LoadNewContext"%string;
    LDR_sym R3 next_tcb;
    LDR R4 R3;
    STR R4 R1;
    LDR R0 R4;
    LDMIA R0 [R4; R5; R6; R7; R8; R9; R10; R11];
    MSR_PSP R0;
    ISB;
    LDR_const R0 0xFFFFFFFD;
    MOV LR R0;
    BX LR ].

(** ** Exception return

    BX to an EXC_RETURN value leaves handler mode.  0xFFFFFFFD selects
    thread mode on the process stack: the processor pops R0-R3, R12, LR,
    the return address and xPSR from PSP, in this order of ascending
    addresses, and bit 9 of the popped xPSR restores the stack
    alignment. *)
Definition EXC_RETURN_THREAD_PSP : Z := 0xFFFFFFFD.

Definition exception_return (target : Z) : M unit :=
  if target =? EXC_RETURN_THREAD_PSP then
    sp <- get_psp ;;
    r0 <- load32 sp ;;
    r1 <- load32 (sp + 4) ;;
    r2 <- load32 (sp + 8) ;;
    r3 <- load32 (sp + 12) ;;
    r12 <- load32 (sp + 16) ;;
    lr <- load32 (sp + 20) ;;
    ra <- load32 (sp + 24) ;;
    psr <- load32 (sp + 28) ;;
    put_reg R0 r0 ;; put_reg R1 r1 ;; put_reg R2 r2 ;; put_reg R3 r3 ;;
    put_reg R12 r12 ;; put_reg LR lr ;;
    (fun s => Some (tt, with_pc_xpsr s ra psr)) ;;
    put_psp (Z.lor (wrap (sp + 32)) (if Z.testbit psr 9 then 4 else 0))
  else fault.

(** One context switch as the processor performs it: the trampoline,
    then the exception return it asks for. *)
Definition context_switch : M unit :=
  t <- run_handler PendSV_Handler ;; exception_return t.

End Kernel.

(** ** Reading the code's effects back *)

(** [n] consecutive words, at ascending addresses from [a]. *)
Fixpoint read_words (m : Z -> Z) (a : Z) (n : nat) : list Z :=
  match n with
  | O => []
  | S n' => read_word m a :: read_words m (wrap (a + 4)) n'
  end.

(** A sequence of word stores, oldest first. *)
Definition write_list (m : Z -> Z) (ws : list (Z * Z)) : Z -> Z :=
  fold_left (fun m' av => write_word m' (fst av) (snd av)) ws m.

Definition writes_log (ws : list (Z * Z)) : list access :=
  map (fun av => Wr (wrap (fst av)) (wrap (snd av))) ws.

(** The stores of [OS_ThreadInit], in program order; [top] is the address
    one past the last word of the buffer. *)
Definition frame_stores (top task : Z) : list (Z * Z) :=
  [ (wrap (top - 4), 0x01000000);   (* xPSR *)
    (wrap (top - 8), task);         (* PC *)
    (wrap (top - 12), 0);           (* LR *)
    (wrap (top - 16), 0);           (* R12 *)
    (wrap (top - 20), 0);           (* R3 *)
    (wrap (top - 24), 0);           (* R2 *)
    (wrap (top - 28), 0);           (* R1 *)
    (wrap (top - 32), 0);           (* R0 *)
    (wrap (top - 36), 0);           (* R11 *)
    (wrap (top - 40), 0);           (* R10 *)
    (wrap (top - 44), 0);           (* R9 *)
    (wrap (top - 48), 0);           (* R8 *)
    (wrap (top - 52), 0);           (* R7 *)
    (wrap (top - 56), 0);           (* R6 *)
    (wrap (top - 60), 0);           (* R5 *)
    (wrap (top - 64), 0) ].         (* R4 *)

(** The saved image of a thread that has never run, read upward from its
    saved stack pointer: R4..R11, then the hardware frame R0-R3, R12, LR,
    PC, xPSR. *)
Definition initial_frame (task : Z) : list Z :=
  [0; 0; 0; 0; 0; 0; 0; 0; 0; 0; 0; 0; 0; 0; wrap task; 0x01000000].

(** [x] lies in one of the [n] words that start at [base]; the distance is
    taken in the 32-bit address space, so a region may straddle its end. *)
Definition in_region (base n x : Z) : bool := wrap (x - base) <? 4 * n.

(** The addresses a log touches. *)
Definition access_addr (e : access) : Z :=
  match e with
  | Rd a => a
  | Wr a _ => a
  end.

Definition is_write (e : access) : bool :=
  match e with
  | Rd _ => false
  | Wr _ _ => true
  end.

(** The registers the trampoline saves and restores by hand, in the
    order of STMDB/LDMIA: ascending register number at ascending
    addresses. *)
Definition callee_saved : list reg := [R4; R5; R6; R7; R8; R9; R10; R11].

(** The [n] word addresses ascending from [a]. *)
Fixpoint word_addrs (a : Z) (n : nat) : list Z :=
  match n with
  | O => []
  | S n' => wrap a :: word_addrs (wrap (a + 4)) n'
  end.

(** The stores of a store-multiple of [rl] at [a], from register file [g]. *)
Fixpoint reg_stores (g : reg -> Z) (a : Z) (rl : list reg) : list (Z * Z) :=
  match rl with
  | [] => []
  | r :: rl' => (a, wrap (g r)) :: reg_stores g (wrap (a + 4)) rl'
  end.

(** The register file after a load-multiple of [rl] from [a]. *)
Fixpoint load_into (m : Z -> Z) (g : reg -> Z) (a : Z) (rl : list reg) : reg -> Z :=
  match rl with
  | [] => g
  | r :: rl' => load_into m (set_reg g r (read_word m a)) (wrap (a + 4)) rl'
  end.

(** ** What one run of the trampoline does, phase by phase

    The effect of the trampoline as the design describes it: save, commit,
    restore.  Lemma [PendSV_run] below relates the listing to it. *)

Section SwitchPhases.

Variable symaddr : symbol -> Z.

(** The thread that is running, and the one the tick handler chose. *)
Definition running (m : Z -> Z) : Z := read_word m (symaddr current_tcb).
Definition chosen (m : Z -> Z) : Z := read_word m (symaddr next_tcb).

(** Save phase: R4..R11 go to the eight words below the process stack
    pointer, R4 lowest, and the lowered pointer goes to the running
    thread's TCB.  Nothing is saved while no thread is running. *)
Definition save_area (s : machine) : Z := wrap (psp s - 32).

Definition save_stores (s : machine) : list (Z * Z) :=
  reg_stores (gpr s) (save_area s) callee_saved.

Definition after_save (s : machine) : Z -> Z :=
  if running (mem s) =? 0 then mem s
  else write_word (write_list (mem s) (save_stores s))
                  (TCB_stack_pointer (running (mem s))) (save_area s).

(** Commit: current_tcb := next_tcb. *)
Definition incoming (s : machine) : Z := chosen (after_save s).

Definition after_commit (s : machine) : Z -> Z :=
  write_word (after_save s) (symaddr current_tcb) (incoming s).

(** Restore phase: the new thread's saved stack pointer. *)
Definition incoming_sp (s : machine) : Z :=
  read_word (after_commit s) (TCB_stack_pointer (incoming s)).

(** No access of the run is misaligned. *)
Definition switch_aligned (s : machine) : bool :=
  aligned (symaddr current_tcb) && aligned (symaddr next_tcb)
  && (if running (mem s) =? 0 then true
      else aligned (running (mem s)) && aligned (psp s))
  && aligned (incoming s) && aligned (incoming_sp s).

(** The RAM accesses of one run, in program order. *)
Definition switch_log (s : machine) : list access :=
  [Rd (wrap (symaddr current_tcb))]
  ++ (if running (mem s) =? 0 then []
      else writes_log (save_stores s)
           ++ [Wr (running (mem s)) (save_area s)])
  ++ [Rd (wrap (symaddr next_tcb));
      Wr (wrap (symaddr current_tcb)) (incoming s);
      Rd (incoming s)]
  ++ map Rd (word_addrs (incoming_sp s) 8).

(** The words a run stores to: current_tcb and, when a thread is
    running, that thread's stack_pointer field and the eight words of its
    save area. *)
Definition switch_writes (s : machine) (x : Z) : bool :=
  (wrap x =? wrap (symaddr current_tcb))
  || (if running (mem s) =? 0 then false
      else (wrap x =? running (mem s)) || in_region (save_area s) 8 x).

(** A run stores to none of the eight words from [a]. *)
Definition image_kept (s : machine) (a : Z) : bool :=
  forallb (fun x => negb (switch_writes s x)) (word_addrs a 8).

(** The state in which the trampoline executes BX LR. *)
Definition switched (s s' : machine) : Prop :=
  (forall x, mem s' x = after_commit s x) /\
  log s' = log s ++ switch_log s /\
  map (gpr s') callee_saved = read_words (after_commit s) (incoming_sp s) 8 /\
  psp s' = wrap (incoming_sp s + 32) /\
  gpr s' LR = EXC_RETURN_THREAD_PSP /\
  gpr s' R12 = gpr s R12 /\
  pc s' = pc s /\ xpsr s' = xpsr s /\ icsr s' = icsr s.

End SwitchPhases.

(** ** Tick-and-switch cycles over a ring of TCBs *)

Section Scheduling.

Variable symaddr : symbol -> Z.

(** One scheduling cycle: the tick handler, then the trampoline it
    requested. *)
Definition tick_and_switch : M unit :=
  SysTick_Handler symaddr ;;
  _ <- run_handler symaddr PendSV_Handler ;;
  ret tt.

Fixpoint cycles (n : nat) : M unit :=
  match n with
  | O => ret tt
  | S n' => tick_and_switch ;; cycles n'
  end.

(** [n] hops along [next], starting at the TCB [t]. *)
Fixpoint hop (m : Z -> Z) (n : nat) (t : Z) : Z :=
  match n with
  | O => t
  | S n' => hop m n' (read_word m (TCB_next t))
  end.

(** The TCBs of the ring, in scheduling order. *)
Variable ring : list Z.

(** Each TCB's [next] is the following TCB of the list, and the last
    one's is the first: a closed cycle with at least one element. *)
Definition ring_closed (m : Z -> Z) : bool :=
  negb (Nat.eqb (List.length ring) 0)
  && forallb
       (fun j => read_word m (TCB_next (nth j ring 0))
                 =? nth (S j mod List.length ring) ring 0)
       (seq 0 (List.length ring)).

(** The words the kernel keeps its state in: the two globals and the two
    fields of every TCB. *)
Definition kernel_words : list Z :=
  symaddr current_tcb :: symaddr next_tcb
  :: flat_map (fun t => [TCB_stack_pointer t; TCB_next t]) ring.

(** None of the kernel's words lies in the eight words from [a]. *)
Definition clear_of_kernel (a : Z) : bool :=
  forallb (fun x => negb (in_region a 8 x)) kernel_words.

(** The caller's static set-up: aligned, non-null TCBs and globals that
    do not overlap one another. *)
Definition layout_ok : bool :=
  aligned (symaddr current_tcb) && aligned (symaddr next_tcb)
  && negb (wrap (symaddr current_tcb) =? wrap (symaddr next_tcb))
  && forallb
       (fun t =>
          (wrap t =? t) && negb (t =? 0) && aligned t
          && negb (wrap (TCB_stack_pointer t) =? wrap (symaddr current_tcb))
          && negb (wrap (TCB_next t) =? wrap (symaddr current_tcb))
          && negb (wrap (TCB_stack_pointer t) =? wrap (symaddr next_tcb))
          && negb (wrap (TCB_next t) =? wrap (symaddr next_tcb))
          && forallb (fun t' => negb (wrap (TCB_next t) =? wrap (TCB_stack_pointer t')))
                     ring)
       ring.

(** The state between two cycles: thread [i] of the ring is running, the
    ring is closed, and the stack of every thread (the running one's at
    the process stack pointer, the others' at their saved pointers) has
    room for the eight saved registers away from the kernel's words. *)
Definition sched_ok (i : nat) (s : machine) : bool :=
  Nat.ltb i (List.length ring)
  && (running symaddr (mem s) =? nth i ring 0)
  && ring_closed (mem s)
  && aligned (psp s)
  && clear_of_kernel (save_area s)
  && forallb
       (fun t =>
          aligned (read_word (mem s) (TCB_stack_pointer t))
          && clear_of_kernel (read_word (mem s) (TCB_stack_pointer t)))
       ring.

(** The registers the trampoline saves hold 32-bit values. *)
Definition is_word (x : Z) : bool := (0 <=? x) && (x <? 2 ^ 32).

Definition saved_regs_words (s : machine) : bool :=
  forallb (fun r => is_word (gpr s r)) callee_saved.

End Scheduling.

(** ** Runs of kernel operations *)

Inductive kernel_op : Type :=
| ThreadInit (tcb stack_array stack_size task : Z)
| Tick
| Switch.

Section Operations.

Variable symaddr : symbol -> Z.

Definition run_op (op : kernel_op) : M unit :=
  match op with
  | ThreadInit tcb stack_array stack_size task =>
      OS_ThreadInit tcb stack_array stack_size task
  | Tick => SysTick_Handler symaddr
  | Switch => _ <- run_handler symaddr PendSV_Handler ;; ret tt
  end.

Fixpoint run_ops (ops : list kernel_op) : M unit :=
  match ops with
  | [] => ret tt
  | op :: rest => run_op op ;; run_ops rest
  end.

(** No access of the operation is misaligned. *)
Definition op_aligned (op : kernel_op) (s : machine) : bool :=
  match op with
  | ThreadInit tcb stack_array _ _ => aligned tcb && aligned stack_array
  | Tick =>
      aligned (symaddr current_tcb) && aligned (symaddr next_tcb)
      && aligned (running symaddr (mem s))
  | Switch => switch_aligned symaddr s
  end.

(** The words the operation stores to: the sixteen frame words and the
    stack_pointer field for the frame builder, next_tcb for the tick
    handler, and for the trampoline the words of [switch_writes]. *)
Definition op_writes (op : kernel_op) (s : machine) (x : Z) : bool :=
  match op with
  | ThreadInit tcb stack_array stack_size _ =>
      (wrap x =? wrap (TCB_stack_pointer tcb))
      || in_region (stack_array + 4 * stack_size - 64) 16 x
  | Tick => wrap x =? wrap (symaddr next_tcb)
  | Switch => switch_writes symaddr s x
  end.

Variable ring : list Z.

(** The [next] field of no TCB of the ring coincides with a word the
    operation stores to. *)
Definition spares_next (op : kernel_op) (s : machine) : bool :=
  forallb (fun t => negb (op_writes op s (TCB_next t))) ring.

Fixpoint ops_ok (ops : list kernel_op) (s : machine) : bool :=
  match ops with
  | [] => true
  | op :: rest =>
      op_aligned op s && spares_next op s
      && match run_op op s with
         | Some (_, s') => ops_ok rest s'
         | None => false
         end
  end.

(** A store of the log to the [next] field of a TCB of the ring. *)
Definition writes_next (l : list access) : bool :=
  existsb
    (fun e => is_write e
              && existsb (fun t => access_addr e =? wrap (TCB_next t)) ring)
    l.

End Operations.

(** ** Executions: handlers interleaved with thread code *)


Section Execution.

Variable symaddr : symbol -> Z.
Variable ring : list Z.









End Execution.

(** ** A concrete system: three threads in a Cortex-M RAM map *)

Definition demo_symaddr (x : symbol) : Z :=
  match x with
  | next_tcb => 0x20000000
  | current_tcb => 0x20000004
  end.

Definition demo_t1 : Z := 0x20000010.
Definition demo_t2 : Z := 0x20000018.
Definition demo_t3 : Z := 0x20000020.

Definition demo_ring : list Z := [demo_t1; demo_t2; demo_t3].

Definition demo_stack1 : Z := 0x20000100.
Definition demo_stack2 : Z := 0x20000200.
Definition demo_stack3 : Z := 0x20000300.

Definition demo_task1 : Z := 0x08000101.
Definition demo_task2 : Z := 0x08000201.
Definition demo_task3 : Z := 0x08000301.

(** RAM and registers cleared. *)
Definition demo_reset : machine :=
  mkMachine (fun _ => 0) (fun _ => 0) 0 false 0 0 0 [].

Definition state_after {A : Type} (c : M A) (s : machine) : machine :=
  match c s with
  | Some (_, s') => s'
  | None => s
  end.

(** The caller's set-up, as the USAGE comment describes it: chain the
    TCBs, seed next_tcb, build the three frames. *)
Definition demo_link : M unit :=
  store32 (TCB_next demo_t1) demo_t2 ;;
  store32 (TCB_next demo_t2) demo_t3 ;;
  store32 (TCB_next demo_t3) demo_t1 ;;
  store32 (demo_symaddr next_tcb) demo_t1.

Definition demo_init : list kernel_op :=
  [ ThreadInit demo_t1 demo_stack1 32 demo_task1;
    ThreadInit demo_t2 demo_stack2 32 demo_task2;
    ThreadInit demo_t3 demo_stack3 32 demo_task3 ].

Definition demo_linked : machine := state_after demo_link demo_reset.

Definition demo_boot : machine :=
  state_after (run_ops demo_symaddr demo_init) demo_linked.

(** A recognisable pattern for the registers of a running thread. *)
Definition demo_pattern (r : reg) : Z :=
  match r with
  | R4 => 0xA5A50004 | R5 => 0xA5A50005 | R6 => 0xA5A50006 | R7 => 0xA5A50007
  | R8 => 0xA5A50008 | R9 => 0xA5A50009 | R10 => 0xA5A5000A | R11 => 0xA5A5000B
  | _ => 0
  end.

Definition demo_pattern2 (r : reg) : Z :=
  match r with
  | R4 => 0x5A5A0004 | R5 => 0x5A5A0005 | R6 => 0x5A5A0006 | R7 => 0x5A5A0007
  | R8 => 0x5A5A0008 | R9 => 0x5A5A0009 | R10 => 0x5A5A000A | R11 => 0x5A5A000B
  | _ => 0x11111111
  end.

(** Thread 1 started and running with the pattern in its registers. *)
Definition demo_running : machine :=
  with_gpr (state_after (run_op demo_symaddr Switch) demo_boot) demo_pattern.

(** The tick has chosen thread 2. *)
Definition demo_ticked : machine :=
  state_after (run_op demo_symaddr Tick) demo_running.

(** Thread 1 switched out, thread 2 switched in. *)
Definition demo_switched : machine :=
  state_after (run_op demo_symaddr Switch) demo_ticked.

(** Threads 2 and 3 have had their turn, with other register contents,
    and the tick has chosen thread 1 again. *)
Definition demo_later : machine :=
  state_after
    (run_ops demo_symaddr [Tick; Switch; Tick])
    (with_gpr demo_switched demo_pattern2).

(** A system of a single thread whose [next] is itself. *)
Definition solo_link : M unit :=
  store32 (TCB_next demo_t1) demo_t1 ;;
  store32 (demo_symaddr next_tcb) demo_t1.

Definition solo_running : machine :=
  with_gpr
    (state_after
       (run_ops demo_symaddr
          [ThreadInit demo_t1 demo_stack1 32 demo_task1; Switch])
       (state_after solo_link demo_reset))
    demo_pattern.

(** The frame builder's input for the first switch: only next_tcb seeded. *)
Definition demo_seeded : machine :=
  state_after (store32 (demo_symaddr next_tcb) demo_t1) demo_reset.

Definition demo_framed : machine :=
  state_after (OS_ThreadInit demo_t1 demo_stack1 32 demo_task1) demo_seeded.


(** ** Regions and the saved contexts of a ring *)

(** Two regions of [n] words each that share no word. *)
Definition regions_apart (n a b : Z) : bool :=
  (4 * n <=? wrap (b - a)) && (wrap (b - a) <=? 2 ^ 32 - 4 * n).

Section Contexts.

Variable ring : list Z.

(** The TCBs of the ring are pairwise distinct. *)
Definition ring_distinct : bool :=
  forallb
    (fun j =>
       forallb (fun k => Nat.eqb j k || negb (nth j ring 0 =? nth k ring 0))
               (seq 0 (List.length ring)))
    (seq 0 (List.length ring)).

(** While thread [i] runs, the eight words that hold (or, for thread [i]
    itself, will receive at the next switch) R4..R11 of thread [j]. *)
Definition context_area (i : nat) (s : machine) (j : nat) : Z :=
  if Nat.eqb j i then save_area s
  else read_word (mem s) (TCB_stack_pointer (nth j ring 0)).

(** R4..R11 of thread [j]: the registers themselves for the running
    thread, the saved words for the others. *)
Definition context_regs (i : nat) (s : machine) (j : nat) : list Z :=
  if Nat.eqb j i then map (fun r => wrap (gpr s r)) callee_saved
  else read_words (mem s) (context_area i s j) 8.

(** The context areas of different threads share no word. *)
Definition contexts_apart (i : nat) (s : machine) : bool :=
  forallb
    (fun j =>
       forallb
         (fun k =>
            Nat.eqb j k
            || regions_apart 8 (context_area i s j) (context_area i s k))
         (seq 0 (List.length ring)))
    (seq 0 (List.length ring)).

End Contexts.

(** The concrete system while it is being set up: thread 1 framed, then
    thread 2 framed as well. *)
Definition demo_one_framed : machine :=
  state_after (OS_ThreadInit demo_t1 demo_stack1 32 demo_task1) demo_linked.

Definition demo_two_framed : machine :=
  state_after (OS_ThreadInit demo_t2 demo_stack2 32 demo_task2) demo_one_framed.

Section Footprint.

Variable symaddr : symbol -> Z.
Variable ring : list Z.

(** The words the two handlers may store to while the ring is scheduled
    from state [s] with thread [i] running: the two globals, the
    stack_pointer fields of the TCBs and the context areas. *)
Definition scheduler_word (i : nat) (s : machine) (x : Z) : bool :=
  (wrap x =? wrap (symaddr next_tcb))
  || (wrap x =? wrap (symaddr current_tcb))
  || existsb
       (fun j =>
          (wrap x =? wrap (TCB_stack_pointer (nth j ring 0)))
          || in_region (context_area ring i s j) 8 x)
       (seq 0 (List.length ring)).

End Footprint.

(** ** Preemption of running threads *)

(** A slice of an execution: a preemption (the tick and the switch it
    requests), or a stretch of the running thread's own code. *)
Inductive slice : Type :=
| Preempt
| Run (f : machine -> machine).

Fixpoint words_eqb (l l' : list Z) : bool :=
  match l, l' with
  | [], [] => true
  | x :: r, y :: r' => (x =? y) && words_eqb r r'
  | _, _ => false
  end.

Section Preemption.

Variable symaddr : symbol -> Z.
Variable ring : list Z.

Definition run_slice (e : slice) : M unit :=
  match e with
  | Preempt => tick_and_switch symaddr
  | Run f => fun s => Some (tt, f s)
  end.

Fixpoint run_slices (es : list slice) : M unit :=
  match es with
  | [] => ret tt
  | e :: rest => run_slice e ;; run_slices rest
  end.

(** Thread [i] ran from [s] to [s'] and left the saved contexts of the
    other threads alone. *)
Definition others_kept (i : nat) (s s' : machine) : bool :=
  forallb
    (fun j =>
       Nat.eqb j i
       || ((context_area ring i s' j =? context_area ring i s j)
           && words_eqb (context_regs ring i s' j) (context_regs ring i s j)))
    (seq 0 (List.length ring)).

(** What is assumed of a stretch of thread code: it leaves a state from
    which the ring can be scheduled (the kernel's words intact, the
    process stack pointer aligned with room below it), its registers
    hold 32-bit values, and the other threads' contexts are untouched. *)
Definition run_ok (i : nat) (s s' : machine) : bool :=
  sched_ok symaddr ring i s' && contexts_apart ring i s'
  && saved_regs_words s' && is_word (psp s') && others_kept i s s'.

Fixpoint slices_ok (es : list slice) (i : nat) (s : machine) : bool :=
  match es with
  | [] => true
  | Preempt :: rest =>
      match tick_and_switch symaddr s with
      | Some (_, s') => slices_ok rest (S i mod List.length ring) s'
      | None => true
      end
  | Run f :: rest => run_ok i s (f s) && slices_ok rest i (f s)
  end.

(** [out j] is what thread [j] had in R4..R11 and in the process stack
    pointer when it was last switched out, if it ever was.  Every
    preemption of the execution switches in a thread that finds these
    values again. *)
Fixpoint resumed (es : list slice) (i : nat) (s : machine)
         (out : nat -> option (list Z * Z)) : bool :=
  match es with
  | [] => true
  | Preempt :: rest =>
      match tick_and_switch symaddr s with
      | Some (_, s') =>
          let i' := (S i mod List.length ring)%nat in
          let out' := fun j => if Nat.eqb j i
                               then Some (map (gpr s) callee_saved, psp s)
                               else out j in
          match out' i' with
          | Some (regs, sp) =>
              words_eqb (map (gpr s') callee_saved) regs && (psp s' =? sp)
          | None => true
          end
          && resumed rest i' s' out'
      | None => false
      end
  | Run f :: rest => resumed rest i (f s) out
  end.

(** The table of switched-out contexts agrees with the state: what it
    records for a thread other than the running one is what that
    thread's context area holds. *)
Definition out_agrees (i : nat) (s : machine) (out : nat -> option (list Z * Z)) : Prop :=
  forall j regs sp,
    (j < List.length ring)%nat -> j <> i -> out j = Some (regs, sp) ->
    context_regs ring i s j = regs /\
    context_area ring i s j = wrap (sp - 32) /\
    is_word sp = true.

End Preemption.

(** The one-thread system after its first tick-and-switch cycle. *)
Definition solo_switched : machine :=
  state_after (tick_and_switch demo_symaddr) solo_running.

(** The tick has chosen thread 2, whose saved xPSR has bit 9 set: a
    thread that was interrupted while its stack pointer was only 4-byte
    aligned. *)
Definition demo_padded : machine :=
  state_after (store32 (demo_stack2 + 4 * 32 - 4) 0x01000200) demo_ticked.

(** * Words, alignment and RAM: basic facts *)

Lemma wrap_range (x : Z) : 0 <= wrap x < 2 ^ 32.
Proof. unfold wrap. apply Z.mod_pos_bound. lia. Qed.

Lemma wrap_word32 (x : Z) : word32 (wrap x).
Proof. exact (wrap_range x). Qed.

Lemma wrap_small (x : Z) : word32 x -> wrap x = x.
Proof. unfold word32, wrap. intros H. apply Z.mod_small. exact H. Qed.

Lemma wrap_wrap (x : Z) : wrap (wrap x) = wrap x.
Proof. apply wrap_small, wrap_word32. Qed.

Lemma wrap_add_l (x y : Z) : wrap (wrap x + y) = wrap (x + y).
Proof. unfold wrap. apply Zplus_mod_idemp_l. Qed.

Lemma wrap_sub_l (x y : Z) : wrap (wrap x - y) = wrap (x - y).
Proof. unfold wrap. apply Zminus_mod_idemp_l. Qed.

(** Two addresses less than the whole address space apart are distinct. *)
Lemma wrap_apart (x d : Z) : 0 < d < 2 ^ 32 -> wrap (x + d) <> wrap x.
Proof.
  unfold wrap. intros Hd Heq.
  assert (H : (x + d - x) mod 2 ^ 32 = 0).
  { rewrite Zminus_mod, Heq, Z.sub_diag. reflexivity. }
  replace (x + d - x) with d in H by lia.
  rewrite Z.mod_small in H by lia. lia.
Qed.

Lemma wrap_neq (x y : Z) : 0 < y - x < 2 ^ 32 -> wrap x <> wrap y.
Proof.
  intros H E. apply (wrap_apart x (y - x) H).
  replace (x + (y - x)) with y by lia. symmetry. exact E.
Qed.

Lemma aligned_wrap (a : Z) : aligned (wrap a) = aligned a.
Proof.
  unfold aligned, wrap. f_equal.
  change (2 ^ 32) with (4 * 2 ^ 30).
  rewrite Z.rem_mul_r by lia.
  rewrite (Z.mul_comm 4), Z.mod_add by lia.
  apply Z.mod_mod. lia.
Qed.

Lemma aligned_add (a k : Z) : aligned a = true -> aligned (a + 4 * k) = true.
Proof.
  unfold aligned. rewrite !Z.eqb_eq. intros H.
  rewrite (Z.mul_comm 4), Z.mod_add by lia. exact H.
Qed.

Lemma aligned_wrap_add (a k : Z) :
  aligned a = true -> aligned (wrap (a + 4 * k)) = true.
Proof. intros H. rewrite aligned_wrap. apply aligned_add, H. Qed.

Lemma aligned_wrap_sub (a k : Z) :
  aligned a = true -> aligned (wrap (a - 4 * k)) = true.
Proof.
  intros H. replace (a - 4 * k) with (a + 4 * (- k)) by lia.
  apply aligned_wrap_add, H.
Qed.

Lemma aligned_round (v : Z) : aligned v = true -> 4 * (v / 4) = v.
Proof.
  unfold aligned. rewrite Z.eqb_eq. intros H.
  pose proof (Z.div_mod v 4). lia.
Qed.

Lemma read_write_same (m : Z -> Z) (a v : Z) :
  read_word (write_word m a v) a = wrap v.
Proof.
  unfold read_word, write_word. rewrite Z.eqb_refl. apply wrap_wrap.
Qed.

Lemma read_write_other (m : Z -> Z) (a b v : Z) :
  wrap b <> wrap a -> read_word (write_word m a v) b = read_word m b.
Proof.
  unfold read_word, write_word. intros H.
  destruct (Z.eqb_spec (wrap b) (wrap a)); [contradiction | reflexivity].
Qed.

Lemma write_other (m : Z -> Z) (a v x : Z) :
  x <> wrap a -> write_word m a v x = m x.
Proof.
  unfold write_word. intros H.
  destruct (Z.eqb_spec x (wrap a)); [contradiction | reflexivity].
Qed.



(** * Running the monad *)

Lemma bind_some {A B : Type} (m : M A) (k : A -> M B) (s s' : machine) (a : A) :
  m s = Some (a, s') -> bind m k s = k a s'.
Proof. intros H. unfold bind. rewrite H. reflexivity. Qed.

Lemma store32_run (a v : Z) (s : machine) :
  aligned a = true ->
  store32 a v s =
  Some (tt, with_mem s (write_word (mem s) a v) (log s ++ [Wr (wrap a) (wrap v)])).
Proof. intros H. unfold store32. rewrite H. reflexivity. Qed.

Lemma load32_run (a : Z) (s : machine) :
  aligned a = true ->
  load32 a s =
  Some (read_word (mem s) a, with_mem s (mem s) (log s ++ [Rd (wrap a)])).
Proof. intros H. unfold load32. rewrite H. reflexivity. Qed.

(** * The frame builder *)

Lemma push_run (sp v : Z) (s : machine) :
  aligned sp = true ->
  push sp v s =
  Some (wrap (sp - 4),
        with_mem s (write_word (mem s) (wrap (sp - 4)) v)
                 (log s ++ [Wr (wrap (sp - 4)) (wrap v)])).
Proof.
  intros H. unfold push.
  erewrite bind_some by (apply store32_run, (aligned_wrap_sub sp 1 H)).
  rewrite wrap_wrap. reflexivity.
Qed.

Lemma wrap_sub_sub (x a b : Z) : wrap (wrap (x - a) - b) = wrap (x - (a + b)).
Proof. rewrite wrap_sub_l. f_equal. lia. Qed.

Ltac fold_consts :=
  repeat match goal with
         | |- context [Z.add (Zpos ?a) (Zpos ?b)] =>
             let c := eval vm_compute in (Z.add (Zpos a) (Zpos b)) in
             change (Z.add (Zpos a) (Zpos b)) with c
         end.

Lemma aligned_sub (a c : Z) :
  aligned a = true -> aligned c = true -> aligned (wrap (a - c)) = true.
Proof.
  unfold aligned at 2. rewrite Z.eqb_eq. intros Ha Hc.
  pose proof (Z.div_mod c 4).
  replace c with (4 * (c / 4)) by lia.
  apply aligned_wrap_sub, Ha.
Qed.

Ltac proj_state :=
  cbn [with_mem with_gpr with_psp with_zflag with_icsr with_pc_xpsr
       mem gpr psp zflag pc xpsr icsr log].

Ltac push_step :=
  erewrite bind_some by (apply push_run, aligned_sub; [eassumption | reflexivity]);
  rewrite wrap_sub_sub; fold_consts; proj_state.

Lemma OS_ThreadInit_run (tcb stack_array stack_size task : Z) (s : machine) :
  aligned tcb = true ->
  aligned stack_array = true ->
  let top := stack_array + 4 * stack_size in
  let ws := frame_stores top task ++ [(TCB_stack_pointer tcb, wrap (top - 64))] in
  OS_ThreadInit tcb stack_array stack_size task s =
  Some (tt, with_mem s (write_list (mem s) ws) (log s ++ writes_log ws)).
Proof.
  intros Ht Ha top ws.
  assert (Atop : aligned top = true) by apply (aligned_add _ _ Ha).
  unfold OS_ThreadInit. fold top. clearbody top.
  erewrite bind_some by (apply push_run; rewrite aligned_wrap; exact Atop).
  rewrite wrap_sub_l. proj_state.
  do 15 push_step.
  rewrite store32_run by exact Ht.
  unfold ws, frame_stores, write_list, writes_log, TCB_stack_pointer.
  cbn [app fold_left map fst snd]. proj_state.
  rewrite <- !app_assoc. cbn [app].
  rewrite !wrap_wrap.
  reflexivity.
Qed.

Lemma wrap_add_sub (x a b : Z) : wrap (wrap (x - a) + b) = wrap (x - (a - b)).
Proof. rewrite wrap_add_l. f_equal. lia. Qed.

Lemma read_wrap (m : Z -> Z) (a : Z) : read_word m (wrap a) = read_word m a.
Proof. unfold read_word. rewrite wrap_wrap. reflexivity. Qed.

Lemma rw_same (m : Z -> Z) (x v : Z) :
  read_word (write_word m (wrap x) v) x = wrap v.
Proof.
  unfold read_word, write_word. rewrite wrap_wrap, Z.eqb_refl. apply wrap_wrap.
Qed.

Lemma rw_other (m : Z -> Z) (x y v : Z) :
  wrap y <> wrap x ->
  read_word (write_word m (wrap x) v) y = read_word m y.
Proof.
  intros H. apply read_write_other. rewrite wrap_wrap. exact H.
Qed.

Lemma write_list_other (ws : list (Z * Z)) (m : Z -> Z) (x : Z) :
  (forall a v, In (a, v) ws -> x <> wrap a) ->
  write_list m ws x = m x.
Proof.
  unfold write_list. revert m.
  induction ws as [|[a v] ws IH]; intros m H; simpl; [reflexivity|].
  rewrite IH.
  - apply write_other. apply (H a v). left. reflexivity.
  - intros a' v' Hin. apply (H a' v'). right. exact Hin.
Qed.

Lemma in_region_wrap_base (base n x : Z) :
  in_region (wrap base) n x = in_region base n x.
Proof.
  unfold in_region. f_equal. unfold wrap.
  rewrite Zminus_mod_idemp_r. reflexivity.
Qed.

Lemma in_region_wrap (base n x : Z) :
  in_region base n (wrap x) = in_region base n x.
Proof. unfold in_region. rewrite wrap_sub_l. reflexivity. Qed.

(** A word outside a region differs from every word of the region. *)
Lemma region_miss (base n x d : Z) :
  in_region base n x = false -> 0 <= d < 4 * n -> d < 2 ^ 32 ->
  wrap (base + d) <> wrap x.
Proof.
  unfold in_region. rewrite Z.ltb_ge. intros Hout Hd Hd' E.
  assert (Hx : wrap (x - base) = d).
  { rewrite <- wrap_sub_l, <- E, wrap_sub_l.
    replace (base + d - base) with d by lia.
    apply wrap_small. unfold word32. lia. }
  lia.
Qed.

Lemma region_hit (base n i : Z) :
  0 <= i < n -> 4 * n <= 2 ^ 32 -> in_region base n (base + 4 * i) = true.
Proof.
  unfold in_region. intros Hi Hn. rewrite Z.ltb_lt.
  replace (base + 4 * i - base) with (4 * i) by lia.
  rewrite wrap_small by (unfold word32; lia). lia.
Qed.

Lemma cons_eq {A : Type} (a b : A) (l l' : list A) :
  a = b -> l = l' -> a :: l = b :: l'.
Proof. intros -> ->. reflexivity. Qed.

Ltac fold_diffs :=
  repeat match goal with
         | |- context [Z.sub (Zpos ?a) (Zpos ?b)] =>
             let c := eval vm_compute in (Z.sub (Zpos a) (Zpos b)) in
             change (Z.sub (Zpos a) (Zpos b)) with c
         end.

(** Distinct constant offsets from one base are distinct addresses. *)
Ltac offsets_apart :=
  change (2 ^ 32) with 4294967296 in *;
  first [ apply wrap_neq; lia | apply not_eq_sym, wrap_neq; lia ].

(** The image the stores of the frame builder leave behind. *)
Lemma frame_image (m : Z -> Z) (top task tcb : Z) :
  in_region (top - 64) 16 tcb = false ->
  let m' := write_list m (frame_stores top task ++ [(tcb, wrap (top - 64))]) in
  read_word m' tcb = wrap (top - 64) /\
  read_words m' (wrap (top - 64)) 16 = initial_frame task.
Proof.
  intros Hout.
  assert (Htcb : forall d, 0 <= d < 64 -> wrap (top - 64 + d) <> wrap tcb).
  { intros d Hd. apply (region_miss _ 16); [exact Hout | lia | lia]. }
  unfold frame_stores, write_list. cbn [app fold_left fst snd].
  split; [rewrite read_write_same; apply wrap_wrap|].
  cbn [read_words].
  repeat (rewrite wrap_add_sub; fold_diffs).
  unfold initial_frame.
  repeat (apply cons_eq;
    [ rewrite read_wrap;
      rewrite read_write_other
        by (match goal with
            | |- wrap (top - ?k) <> _ =>
                replace (top - k) with (top - 64 + (64 - k)) by lia;
                apply Htcb; lia
            end);
      repeat first [ rewrite rw_same | rewrite rw_other by offsets_apart ];
      reflexivity
    | ]).
  reflexivity.
Qed.

(** C1: for every TCB, buffer, capacity and entry function, the frame
    builder starts one past the last word of the buffer and pushes
    downward, in this order, xPSR with the Thumb bit (0x01000000), PC =
    the entry address, LR = 0, R12, R3, R2, R1, R0 = 0, then R11 down to
    R4 = 0, and stores the resulting pointer in the TCB's stack_pointer.
    The pointers are word aligned, as their C types require, and the
    TCB is not one of the sixteen frame words. *)
Theorem OS_ThreadInit_frame (tcb stack_array stack_size task : Z) (s : machine) :
  aligned tcb = true ->
  aligned stack_array = true ->
  let top := stack_array + 4 * stack_size in
  in_region (top - 64) 16 (TCB_stack_pointer tcb) = false ->
  exists s',
    OS_ThreadInit tcb stack_array stack_size task s = Some (tt, s') /\
    log s' = log s ++
      [ Wr (wrap (top - 4)) 0x01000000;
        Wr (wrap (top - 8)) (wrap task);
        Wr (wrap (top - 12)) 0; Wr (wrap (top - 16)) 0;
        Wr (wrap (top - 20)) 0; Wr (wrap (top - 24)) 0;
        Wr (wrap (top - 28)) 0; Wr (wrap (top - 32)) 0;
        Wr (wrap (top - 36)) 0; Wr (wrap (top - 40)) 0;
        Wr (wrap (top - 44)) 0; Wr (wrap (top - 48)) 0;
        Wr (wrap (top - 52)) 0; Wr (wrap (top - 56)) 0;
        Wr (wrap (top - 60)) 0; Wr (wrap (top - 64)) 0;
        Wr (wrap (TCB_stack_pointer tcb)) (wrap (top - 64)) ] /\
    read_word (mem s') (TCB_stack_pointer tcb) = wrap (top - 64) /\
    read_words (mem s') (read_word (mem s') (TCB_stack_pointer tcb)) 16 =
      initial_frame task /\
    Z.testbit (nth 15 (initial_frame task) 0) 24 = true.
Proof.
  intros Ht Ha top Hout.
  destruct (frame_image (mem s) top task tcb Hout) as [Hsp Hfr].
  eexists. split; [apply OS_ThreadInit_run; assumption|].
  fold top. proj_state. unfold TCB_stack_pointer in *.
  split.
  { unfold frame_stores, writes_log. cbn [app map fst snd].
    rewrite !wrap_wrap. reflexivity. }
  split; [exact Hsp|].
  split; [rewrite Hsp; exact Hfr | reflexivity].
Qed.

Lemma frame_stores_addr (top task a v : Z) :
  In (a, v) (frame_stores top task) ->
  exists k, 1 <= k <= 16 /\ a = wrap (top - 4 * k).
Proof.
  unfold frame_stores. cbn [In]. intros H.
  repeat (destruct H as [H|H];
          [ injection H as <- _;
            match goal with
            | |- exists k, _ /\ wrap (_ - ?c) = _ =>
                let q := eval vm_compute in (c / 4) in
                exists q; split; [lia | reflexivity]
            end
          | ]).
  contradiction.
Qed.

Lemma writes_log_addr (ws : list (Z * Z)) :
  map access_addr (writes_log ws) = map (fun av => wrap (fst av)) ws.
Proof. unfold writes_log. rewrite map_map. reflexivity. Qed.

Lemma writes_log_writes (ws : list (Z * Z)) :
  forallb is_write (writes_log ws) = true.
Proof. induction ws; simpl; auto. Qed.

(** C9: with a buffer of at least sixteen words, the frame builder
    performs seventeen accesses, all of them stores: the buffer words of
    index stack_size-1 down to stack_size-16, then the TCB's stack_pointer
    field, which receives the address of word stack_size-16.  Every access
    lies in the buffer or is that field; the buffer below index
    stack_size-16, the TCB's next field, the two globals and every other
    word outside the buffer are neither accessed nor changed, and no
    register changes. *)
Theorem OS_ThreadInit_footprint
  (tcb stack_array stack_size task : Z) (s : machine) :
  aligned tcb = true ->
  aligned stack_array = true ->
  16 <= stack_size ->
  4 * stack_size <= 2 ^ 32 ->
  in_region stack_array stack_size (TCB_stack_pointer tcb) = false ->
  exists s' new,
    OS_ThreadInit tcb stack_array stack_size task s = Some (tt, s') /\
    log s' = log s ++ new /\
    map access_addr new =
      map (fun i => wrap (stack_array + 4 * (stack_size - i)))
          [1; 2; 3; 4; 5; 6; 7; 8; 9; 10; 11; 12; 13; 14; 15; 16]
      ++ [wrap (TCB_stack_pointer tcb)] /\
    forallb is_write new = true /\
    (forall e, In e new ->
       access_addr e = wrap (TCB_stack_pointer tcb) \/
       in_region stack_array stack_size (access_addr e) = true) /\
    read_word (mem s') (TCB_stack_pointer tcb) =
      wrap (stack_array + 4 * (stack_size - 16)) /\
    (forall i, 0 <= i < stack_size - 16 ->
       mem s' (wrap (stack_array + 4 * i)) = mem s (wrap (stack_array + 4 * i))
       /\ ~ In (wrap (stack_array + 4 * i)) (map access_addr new)) /\
    (forall x, in_region stack_array stack_size x = false ->
       wrap x <> wrap (TCB_stack_pointer tcb) ->
       mem s' (wrap x) = mem s (wrap x) /\ ~ In (wrap x) (map access_addr new)) /\
    (in_region stack_array stack_size (TCB_next tcb) = false ->
       mem s' (wrap (TCB_next tcb)) = mem s (wrap (TCB_next tcb)) /\
       ~ In (wrap (TCB_next tcb)) (map access_addr new)) /\
    (forall (symaddr : symbol -> Z) (g : symbol),
       in_region stack_array stack_size (symaddr g) = false ->
       wrap (symaddr g) <> wrap (TCB_stack_pointer tcb) ->
       mem s' (wrap (symaddr g)) = mem s (wrap (symaddr g)) /\
       ~ In (wrap (symaddr g)) (map access_addr new)) /\
    gpr s' = gpr s /\ psp s' = psp s /\ icsr s' = icsr s.
Proof.
  intros Ht Ha Hsz Hfit Hout.
  pose (top := stack_array + 4 * stack_size).
  pose (ws := frame_stores top task ++ [(TCB_stack_pointer tcb, wrap (top - 64))]).
  exists (with_mem s (write_list (mem s) ws) (log s ++ writes_log ws)), (writes_log ws).
  assert (Hk : forall k, top - 4 * k = stack_array + 4 * (stack_size - k))
    by (intros; unfold top; lia).
  assert (Hws : forall a v, In (a, v) ws ->
            a = TCB_stack_pointer tcb \/
            exists k, 1 <= k <= 16 /\ a = wrap (stack_array + 4 * (stack_size - k))).
  { intros a v Hin. apply in_app_or in Hin. destruct Hin as [Hin|Hin].
    - right. destruct (frame_stores_addr _ _ _ _ Hin) as (k & Hk1 & ->).
      exists k. rewrite Hk. auto.
    - left. destruct Hin as [Hin|[]]. injection Hin as <- _. reflexivity. }
  assert (Hfar : forall x,
            (forall k, 1 <= k <= 16 ->
               wrap x <> wrap (stack_array + 4 * (stack_size - k))) ->
            wrap x <> wrap (TCB_stack_pointer tcb) ->
            mem (with_mem s (write_list (mem s) ws) (log s ++ writes_log ws)) (wrap x)
              = mem s (wrap x)
            /\ ~ In (wrap x) (map access_addr (writes_log ws))).
  { intros x Hx1 Hx2. proj_state. split.
    - apply write_list_other. intros a v Hin.
      destruct (Hws a v Hin) as [->|(k & Hk1 & ->)];
        [exact Hx2 | rewrite wrap_wrap; apply Hx1, Hk1].
    - rewrite writes_log_addr, in_map_iff. intros ([a v] & E & Hin). cbn [fst] in E.
      destruct (Hws a v Hin) as [->|(k & Hk1 & ->)].
      + apply Hx2. symmetry. exact E.
      + rewrite wrap_wrap in E. apply (Hx1 k Hk1). symmetry. exact E. }
  split; [apply OS_ThreadInit_run; assumption|].
  split; [reflexivity|].
  split.
  { rewrite writes_log_addr. unfold ws, frame_stores.
    cbn [map app fst]. rewrite !wrap_wrap.
    repeat (apply cons_eq; [try (f_equal; unfold top; lia)|]). reflexivity. }
  split; [apply writes_log_writes|].
  split.
  { intros e He. unfold writes_log in He. apply in_map_iff in He.
    destruct He as ([a v] & <- & Hin). cbn [access_addr fst].
    destruct (Hws a v Hin) as [->|(k & Hk1 & ->)]; [left; reflexivity | right].
    rewrite wrap_wrap, in_region_wrap. apply region_hit; lia. }
  split.
  { proj_state. unfold ws, write_list. rewrite fold_left_app. cbn [fold_left fst snd].
    rewrite read_write_same, wrap_wrap. f_equal. unfold top. lia. }
  split.
  { intros i Hi. apply Hfar.
    - intros k Hk1. apply wrap_neq. change (2 ^ 32) with 4294967296 in *. lia.
    - apply region_miss with (n := stack_size); [exact Hout|lia|lia]. }
  split.
  { intros x Hx Hx'. apply Hfar; [|exact Hx'].
    intros k Hk1. apply not_eq_sym.
    apply region_miss with (n := stack_size); [exact Hx|lia|lia]. }
  split.
  { intros Hn. apply Hfar.
    - intros k Hk1. apply not_eq_sym.
      apply region_miss with (n := stack_size); [exact Hn|lia|lia].
    - unfold TCB_next, TCB_stack_pointer.
      apply wrap_apart. change (2 ^ 32) with 4294967296. lia. }
  split.
  { intros symaddr g Hg Hg'. apply Hfar; [|exact Hg'].
    intros k Hk1. apply not_eq_sym.
    apply region_miss with (n := stack_size); [exact Hg|lia|lia]. }
  proj_state. auto.
Qed.

(** * Store-multiple and load-multiple *)

Lemma store_regs_run (rl : list reg) (a : Z) (s : machine) :
  aligned a = true ->
  store_regs a rl s =
  Some (tt, with_mem s (write_list (mem s) (reg_stores (gpr s) a rl))
                     (log s ++ writes_log (reg_stores (gpr s) a rl))).
Proof.
  revert a s. induction rl as [|r rl IH]; intros a s Ha.
  - cbn [store_regs reg_stores writes_log map write_list fold_left].
    rewrite app_nil_r. destruct s; reflexivity.
  - cbn [store_regs reg_stores]. unfold get_reg at 1.
    unfold bind at 1. unfold bind at 1.
    rewrite store32_run by exact Ha.
    rewrite IH by (apply (aligned_wrap_add a 1 Ha)).
    proj_state. unfold writes_log, write_list.
    cbn [map fold_left fst snd]. rewrite <- app_assoc, wrap_wrap. reflexivity.
Qed.

Lemma load_regs_run (rl : list reg) (a : Z) (s : machine) :
  aligned a = true ->
  load_regs a rl s =
  Some (tt, with_mem (with_gpr s (load_into (mem s) (gpr s) a rl)) (mem s)
                     (log s ++ map Rd (word_addrs a (List.length rl)))).
Proof.
  revert a s. induction rl as [|r rl IH]; intros a s Ha.
  - cbn [load_regs load_into List.length word_addrs map].
    rewrite app_nil_r. destruct s; reflexivity.
  - cbn [load_regs load_into List.length word_addrs map].
    erewrite bind_some by (apply load32_run, Ha).
    unfold put_reg, bind at 1.
    rewrite IH by (apply (aligned_wrap_add a 1 Ha)).
    proj_state. rewrite <- app_assoc. reflexivity.
Qed.

Lemma set_reg_same (g : reg -> Z) (r : reg) (v : Z) : set_reg g r v r = wrap v.
Proof. unfold set_reg, reg_eqb. rewrite Nat.eqb_refl. reflexivity. Qed.

Lemma set_reg_other (g : reg -> Z) (r r' : reg) (v : Z) :
  reg_eqb r' r = false -> set_reg g r v r' = g r'.
Proof. unfold set_reg. intros ->. reflexivity. Qed.

Lemma load_into_other (m : Z -> Z) (rl : list reg) (g : reg -> Z) (a : Z) (r : reg) :
  existsb (reg_eqb r) rl = false -> load_into m g a rl r = g r.
Proof.
  revert g a. induction rl as [|r0 rl IH]; intros g a H; [reflexivity|].
  cbn [existsb] in H. apply orb_false_elim in H. destruct H as [H0 H].
  cbn [load_into]. rewrite IH by exact H. apply set_reg_other, H0.
Qed.

Lemma wrap_read (m : Z -> Z) (a : Z) : wrap (read_word m a) = read_word m a.
Proof. unfold read_word. apply wrap_wrap. Qed.

Lemma load_into_callee_saved (m : Z -> Z) (g : reg -> Z) (a : Z) :
  map (load_into m g a callee_saved) callee_saved = read_words m a 8.
Proof.
  cbn [callee_saved map load_into read_words set_reg reg_eqb reg_index Nat.eqb].
  rewrite !wrap_read. reflexivity.
Qed.

Lemma map_set_reg_other (g : reg -> Z) (r : reg) (v : Z) (rl : list reg) :
  existsb (reg_eqb r) rl = false -> map (set_reg g r v) rl = map g rl.
Proof.
  induction rl as [|r0 rl IH]; intros H; [reflexivity|].
  cbn [existsb] in H. apply orb_false_elim in H. destruct H as [H0 H].
  cbn [map]. rewrite IH by exact H. f_equal.
  apply set_reg_other. unfold reg_eqb in *. rewrite Nat.eqb_sym. exact H0.
Qed.

Lemma load32_run_w (a : Z) (s : machine) :
  aligned a = true ->
  load32 (wrap a) s =
  Some (read_word (mem s) a, with_mem s (mem s) (log s ++ [Rd (wrap a)])).
Proof.
  intros H. rewrite load32_run by (rewrite aligned_wrap; exact H).
  rewrite read_wrap, wrap_wrap. reflexivity.
Qed.

Lemma store32_run_w (a v : Z) (s : machine) :
  aligned a = true ->
  store32 (wrap a) v s =
  Some (tt, with_mem s (write_word (mem s) (wrap a) v) (log s ++ [Wr (wrap a) (wrap v)])).
Proof.
  intros H. rewrite store32_run by (rewrite aligned_wrap; exact H).
  rewrite wrap_wrap. reflexivity.
Qed.

Lemma store_regs_run_w (rl : list reg) (a : Z) (s : machine) :
  aligned a = true ->
  store_regs (wrap a) rl s =
  Some (tt, with_mem s (write_list (mem s) (reg_stores (gpr s) (wrap a) rl))
                     (log s ++ writes_log (reg_stores (gpr s) (wrap a) rl))).
Proof. intros H. apply store_regs_run. rewrite aligned_wrap. exact H. Qed.

Lemma write_wrap_addr (m : Z -> Z) (a v x : Z) :
  write_word m (wrap a) v x = write_word m a v x.
Proof. unfold write_word. rewrite wrap_wrap. reflexivity. Qed.

Lemma read_ext (m m' : Z -> Z) (a : Z) :
  (forall x, m x = m' x) -> read_word m a = read_word m' a.
Proof. intros H. unfold read_word. rewrite H. reflexivity. Qed.

Lemma read_words_ext (m m' : Z -> Z) (n : nat) (a : Z) :
  (forall x, m x = m' x) -> read_words m a n = read_words m' a n.
Proof.
  intros H. revert a. induction n as [|n IH]; intros a; [reflexivity|].
  cbn [read_words]. rewrite IH, (read_ext m m' a H). reflexivity.
Qed.

(** * The trampoline, instruction by instruction *)

Section Trampoline.

Variable symaddr : symbol -> Z.

Lemma exec_unfold (prog : list instr) (fuel pc : nat) (s : machine) :
  exec symaddr prog (S fuel) pc s =
  match nth_error prog pc with
  | None => None
  | Some i =>
      match step symaddr prog pc i s with
      | Some (Next pc', s') => exec symaddr prog fuel pc' s'
      | Some (Return t, s') => Some (t, s')
      | None => None
      end
  end.
Proof.
  cbn [exec]. destruct (nth_error prog pc); [|reflexivity].
  unfold bind. destruct (step symaddr prog pc i s) as [[[|] ?]|]; reflexivity.
Qed.

(** Fuel beyond what a run needs does not change its result. *)
Lemma exec_more_fuel (prog : list instr) (fuel k pc : nat) (s : machine)
  (r : Z * machine) :
  exec symaddr prog fuel pc s = Some r ->
  exec symaddr prog (fuel + k) pc s = Some r.
Proof.
  revert pc s. induction fuel as [|fuel IH]; intros pc s H; [discriminate|].
  cbn [Nat.add]. rewrite exec_unfold in *.
  destruct (nth_error prog pc) as [i|]; [|discriminate].
  destruct (step symaddr prog pc i s) as [[[pc'|t] s']|]; try discriminate.
  - apply IH, H.
  - exact H.
Qed.

Ltac regs_state :=
  unfold with_mem, with_gpr, with_psp, with_zflag, with_icsr, with_pc_xpsr;
  cbn [mem gpr psp zflag pc xpsr icsr log reg_stores callee_saved
       set_reg reg_eqb reg_index Nat.eqb];
  rewrite ?wrap_wrap, ?wrap_read;
  repeat match goal with
         | H : wrap ?x = ?x |- context [wrap ?x] => rewrite !H
         end.

Ltac instr_step :=
  rewrite exec_unfold;
  cbn [nth_error PendSV_Handler step bind ret get_reg put_reg get_psp put_psp
       put_zflag get_zflag List.length];
  regs_state;
  cbn [bind ret].

Ltac mem_step lem H :=
  erewrite bind_some by (apply lem, H);
  cbn [bind ret get_reg put_reg get_psp put_psp put_zflag get_zflag];
  regs_state.

Lemma PendSV_saves (s : machine) :
  aligned (symaddr current_tcb) = true ->
  aligned (symaddr next_tcb) = true ->
  running symaddr (mem s) <> 0 ->
  aligned (running symaddr (mem s)) = true ->
  aligned (psp s) = true ->
  aligned (incoming symaddr s) = true ->
  aligned (incoming_sp symaddr s) = true ->
  exists s',
    run_handler symaddr PendSV_Handler s = Some (EXC_RETURN_THREAD_PSP, s') /\
    switched symaddr s s'.
Proof.
  intros Hc Hn Hnz Hcur Hpsp Hnxt Hin.
  assert (Hz : (running symaddr (mem s) =? 0) = false) by (apply Z.eqb_neq, Hnz).
  assert (Hsp : aligned (psp s - 32) = true).
  { rewrite <- aligned_wrap. apply (aligned_wrap_sub (psp s) 8 Hpsp). }
  unfold switched, switch_log.
  unfold incoming_sp, after_commit, incoming, chosen, after_save in *.
  rewrite Hz in *.
  unfold save_stores, save_area, TCB_stack_pointer, running in *.
  cbn [reg_stores callee_saved] in *.
  set (cur := read_word (mem s) (symaddr current_tcb)) in *.
  set (m1 := write_word _ cur _) in *.
  set (nxt := read_word m1 (symaddr next_tcb)) in *.
  assert (Wcur : wrap cur = cur) by apply wrap_read.
  assert (Wnxt : wrap nxt = nxt) by apply wrap_read.
  assert (Em2 : forall x, write_word m1 (wrap (symaddr current_tcb)) nxt x
                          = write_word m1 (symaddr current_tcb) nxt x)
    by (intros; apply write_wrap_addr).
  rewrite <- !(read_ext _ _ nxt Em2) in *.
  rewrite <- (read_words_ext _ _ _ _ Em2).
  set (m2 := write_word m1 (wrap (symaddr current_tcb)) nxt) in *.
  set (sp_in := read_word m2 nxt) in *.
  assert (Wsp : wrap sp_in = sp_in) by apply wrap_read.
  unfold run_handler.
  change (Datatypes.length PendSV_Handler) with 18%nat.
  instr_step.
  instr_step. mem_step load32_run_w Hc. fold cur.
  instr_step. change (wrap 0) with 0. rewrite Hz.
  instr_step.
  instr_step.
  instr_step. change (4 * Z.of_nat 8) with 32. rewrite !wrap_sub_l.
  mem_step store_regs_run_w Hsp.
  instr_step. mem_step store32_run Hcur. fold m1.
  instr_step.
  instr_step.
  instr_step. mem_step load32_run_w Hn. fold nxt.
  instr_step. mem_step store32_run_w Hc.
  instr_step. mem_step load32_run Hnxt. fold m2 sp_in.
  instr_step. mem_step load_regs_run Hin.
  change (4 * Z.of_nat 8) with 32.
  instr_step. rewrite (aligned_round (wrap (sp_in + 32)))
    by (apply (aligned_wrap_add sp_in 8 Hin)).
  instr_step.
  instr_step.
  instr_step.
  instr_step.
  eexists. split; [reflexivity|].
  cbn [mem gpr psp zflag pc xpsr icsr log].
  split; [exact Em2|].
  split; [cbn [app]; rewrite <- !app_assoc; reflexivity|].
  split.
  { rewrite !map_set_reg_other by reflexivity.
    apply load_into_callee_saved. }
  split; [reflexivity|].
  split; [reflexivity|].
  split; [|auto].
  cbn [set_reg reg_eqb reg_index Nat.eqb].
  rewrite load_into_other by reflexivity.
  cbn [set_reg reg_eqb reg_index Nat.eqb]. reflexivity.
Qed.

Lemma PendSV_first (s : machine) :
  aligned (symaddr current_tcb) = true ->
  aligned (symaddr next_tcb) = true ->
  running symaddr (mem s) = 0 ->
  aligned (incoming symaddr s) = true ->
  aligned (incoming_sp symaddr s) = true ->
  exists s',
    run_handler symaddr PendSV_Handler s = Some (EXC_RETURN_THREAD_PSP, s') /\
    switched symaddr s s'.
Proof.
  intros Hc Hn Hnull Hnxt Hin.
  assert (Hz : (running symaddr (mem s) =? 0) = true) by (apply Z.eqb_eq, Hnull).
  unfold switched, switch_log.
  unfold incoming_sp, after_commit, incoming, chosen, after_save in *.
  rewrite Hz in *.
  unfold TCB_stack_pointer, running in *.
  set (nxt := read_word (mem s) (symaddr next_tcb)) in *.
  assert (Wnxt : wrap nxt = nxt) by apply wrap_read.
  assert (Em2 : forall x, write_word (mem s) (wrap (symaddr current_tcb)) nxt x
                          = write_word (mem s) (symaddr current_tcb) nxt x)
    by (intros; apply write_wrap_addr).
  rewrite <- !(read_ext _ _ nxt Em2) in *.
  rewrite <- (read_words_ext _ _ _ _ Em2).
  set (m2 := write_word (mem s) (wrap (symaddr current_tcb)) nxt) in *.
  set (sp_in := read_word m2 nxt) in *.
  assert (Wsp : wrap sp_in = sp_in) by apply wrap_read.
  unfold run_handler.
  change (Datatypes.length PendSV_Handler) with 18%nat.
  instr_step.
  instr_step. mem_step load32_run_w Hc.
  instr_step. change (wrap 0) with 0. rewrite Hz.
  instr_step.
  change (find_label "LoadNewContext"%string PendSV_Handler) with (Some 7%nat).
  cbn [bind ret].
  instr_step.
  instr_step.
  instr_step. mem_step load32_run_w Hn. fold nxt.
  instr_step. mem_step store32_run_w Hc.
  instr_step. mem_step load32_run Hnxt. fold m2 sp_in.
  instr_step. mem_step load_regs_run Hin.
  change (4 * Z.of_nat 8) with 32.
  instr_step. rewrite (aligned_round (wrap (sp_in + 32)))
    by (apply (aligned_wrap_add sp_in 8 Hin)).
  instr_step.
  instr_step.
  instr_step.
  instr_step.
  eexists. split; [reflexivity|].
  cbn [mem gpr psp zflag pc xpsr icsr log].
  split; [exact Em2|].
  split; [cbn [app]; rewrite <- !app_assoc; reflexivity|].
  split.
  { rewrite !map_set_reg_other by reflexivity.
    apply load_into_callee_saved. }
  split; [reflexivity|].
  split; [reflexivity|].
  split; [|auto].
  cbn [set_reg reg_eqb reg_index Nat.eqb].
  rewrite load_into_other by reflexivity.
  cbn [set_reg reg_eqb reg_index Nat.eqb]. reflexivity.
Qed.

End Trampoline.

Section Switch.

Variable symaddr : symbol -> Z.

(** One run of the trampoline, both branches. *)
Lemma PendSV_run (s : machine) :
  switch_aligned symaddr s = true ->
  exists s',
    run_handler symaddr PendSV_Handler s = Some (EXC_RETURN_THREAD_PSP, s') /\
    switched symaddr s s'.
Proof.
  unfold switch_aligned. rewrite !andb_true_iff.
  intros [[[[Hc Hn] Hcur] Hnxt] Hin].
  destruct (Z.eqb_spec (running symaddr (mem s)) 0) as [E|E].
  - apply PendSV_first; assumption.
  - apply andb_true_iff in Hcur. destruct Hcur as [Hcur Hpsp].
    apply PendSV_saves; assumption.
Qed.

(** The stores of the save phase, with their addresses spelled out. *)
Lemma save_stores_eq (s : machine) :
  save_stores s =
  [ (wrap (psp s - 32), wrap (gpr s R4));
    (wrap (psp s - 28), wrap (gpr s R5));
    (wrap (psp s - 24), wrap (gpr s R6));
    (wrap (psp s - 20), wrap (gpr s R7));
    (wrap (psp s - 16), wrap (gpr s R8));
    (wrap (psp s - 12), wrap (gpr s R9));
    (wrap (psp s - 8), wrap (gpr s R10));
    (wrap (psp s - 4), wrap (gpr s R11)) ].
Proof.
  unfold save_stores, save_area. cbn [reg_stores callee_saved].
  repeat (rewrite wrap_add_sub; fold_diffs). reflexivity.
Qed.

Lemma word_addrs_8 (a : Z) :
  word_addrs a 8 =
  [ wrap a; wrap (a + 4); wrap (a + 8); wrap (a + 12);
    wrap (a + 16); wrap (a + 20); wrap (a + 24); wrap (a + 28) ].
Proof.
  cbn [word_addrs]. rewrite !wrap_wrap, !wrap_add_l.
  rewrite <- !Z.add_assoc. fold_consts. reflexivity.
Qed.

Lemma running_after_commit (s : machine) :
  running symaddr (after_commit symaddr s) = incoming symaddr s.
Proof.
  unfold running, after_commit. rewrite read_write_same.
  unfold incoming, chosen. apply wrap_read.
Qed.

(** C2: with a thread running, one run of the trampoline (1) stores
    R4..R11 in the eight words below the process stack pointer, R4 at
    the lowest address, and writes the lowered pointer to the
    stack_pointer field of the running TCB, (2) then copies next_tcb to
    current_tcb, (3) then reads the stack_pointer field of the new
    current TCB, reloads R4..R11 from the eight words it points at, in
    the same order, leaves the process stack pointer just past them, and
    returns with EXC_RETURN = 0xFFFFFFFD. *)
Theorem PendSV_Handler_switch (s : machine) :
  running symaddr (mem s) <> 0 ->
  switch_aligned symaddr s = true ->
  exists s',
    run_handler symaddr PendSV_Handler s = Some (0xFFFFFFFD, s') /\
    let cur := running symaddr (mem s) in
    let out := wrap (psp s - 32) in
    let saved :=
      write_word
        (write_list (mem s)
           [ (wrap (psp s - 32), wrap (gpr s R4));
             (wrap (psp s - 28), wrap (gpr s R5));
             (wrap (psp s - 24), wrap (gpr s R6));
             (wrap (psp s - 20), wrap (gpr s R7));
             (wrap (psp s - 16), wrap (gpr s R8));
             (wrap (psp s - 12), wrap (gpr s R9));
             (wrap (psp s - 8), wrap (gpr s R10));
             (wrap (psp s - 4), wrap (gpr s R11)) ])
        (TCB_stack_pointer cur) out in
    let nxt := chosen symaddr saved in
    let sp := read_word (mem s') (TCB_stack_pointer (running symaddr (mem s'))) in
    (forall x, mem s' x = write_word saved (symaddr current_tcb) nxt x) /\
    running symaddr (mem s') = nxt /\
    map (gpr s') callee_saved = read_words (mem s') sp 8 /\
    psp s' = wrap (sp + 32) /\
    gpr s' LR = 0xFFFFFFFD /\
    log s' = log s ++
      [ Rd (wrap (symaddr current_tcb));
        Wr (wrap (psp s - 32)) (wrap (gpr s R4));
        Wr (wrap (psp s - 28)) (wrap (gpr s R5));
        Wr (wrap (psp s - 24)) (wrap (gpr s R6));
        Wr (wrap (psp s - 20)) (wrap (gpr s R7));
        Wr (wrap (psp s - 16)) (wrap (gpr s R8));
        Wr (wrap (psp s - 12)) (wrap (gpr s R9));
        Wr (wrap (psp s - 8)) (wrap (gpr s R10));
        Wr (wrap (psp s - 4)) (wrap (gpr s R11));
        Wr cur out;
        Rd (wrap (symaddr next_tcb));
        Wr (wrap (symaddr current_tcb)) nxt;
        Rd nxt;
        Rd sp; Rd (wrap (sp + 4)); Rd (wrap (sp + 8)); Rd (wrap (sp + 12));
        Rd (wrap (sp + 16)); Rd (wrap (sp + 20)); Rd (wrap (sp + 24));
        Rd (wrap (sp + 28)) ].
Proof.
  intros Hnz Hal.
  destruct (PendSV_run s Hal) as (s' & Hrun & Hmem & Hlog & Hregs & Hpsp & Hlr & _).
  exists s'. split; [exact Hrun|].
  assert (Hz : (running symaddr (mem s) =? 0) = false) by (apply Z.eqb_neq, Hnz).
  unfold switch_log, incoming_sp, incoming in *.
  assert (Hcommit : forall x,
            after_commit symaddr s x =
            write_word (after_save symaddr s) (symaddr current_tcb)
                       (chosen symaddr (after_save symaddr s)) x)
    by reflexivity.
  assert (Hsave : after_save symaddr s =
            write_word (write_list (mem s) (save_stores s))
              (TCB_stack_pointer (running symaddr (mem s))) (save_area s)).
  { unfold after_save. rewrite Hz. reflexivity. }
  rewrite Hz in Hlog.
  rewrite save_stores_eq in Hsave. unfold save_area in *.
  rewrite save_stores_eq in Hlog.
  rewrite <- Hsave.
  assert (Hcur' : running symaddr (mem s') = chosen symaddr (after_save symaddr s)).
  { unfold running at 1. rewrite (read_ext _ _ _ Hmem).
    apply running_after_commit. }
  cbv zeta. rewrite Hcur'.
  rewrite (read_ext _ _ _ Hmem), (read_words_ext _ _ _ _ Hmem).
  split; [intros x; rewrite Hmem; apply Hcommit|].
  split; [reflexivity|].
  split; [exact Hregs|].
  split; [exact Hpsp|].
  split; [exact Hlr|].
  rewrite Hlog. f_equal.
  rewrite word_addrs_8.
  unfold writes_log. cbn [map app fst snd].
  rewrite !wrap_wrap, !wrap_read.
  reflexivity.
Qed.

End Switch.

(** * The tick handler *)

Lemma testbit_wrap (x i : Z) : 0 <= i < 32 -> Z.testbit (wrap x) i = Z.testbit x i.
Proof. intros H. unfold wrap. apply Z.mod_pow2_bits_low. lia. Qed.

Section Tick.

Variable symaddr : symbol -> Z.

Lemma SysTick_run (s : machine) :
  aligned (symaddr current_tcb) = true ->
  aligned (symaddr next_tcb) = true ->
  aligned (running symaddr (mem s)) = true ->
  SysTick_Handler symaddr s =
  Some (tt,
        mkMachine
          (write_word (mem s) (symaddr next_tcb)
             (read_word (mem s) (TCB_next (running symaddr (mem s)))))
          (gpr s) (psp s) (zflag s) (pc s) (xpsr s)
          (wrap (Z.lor (wrap (icsr s)) (Z.shiftl 1 28)))
          (log s ++
             [ Rd (wrap (symaddr current_tcb));
               Rd (wrap (TCB_next (running symaddr (mem s))));
               Wr (wrap (symaddr next_tcb))
                  (read_word (mem s) (TCB_next (running symaddr (mem s)))) ])).
Proof.
  intros Hc Hn Hcur. unfold SysTick_Handler, running in *.
  erewrite bind_some by (apply load32_run, Hc). proj_state.
  erewrite bind_some
    by (apply load32_run; unfold TCB_next; apply (aligned_add _ 1 Hcur)).
  proj_state.
  erewrite bind_some by (apply store32_run, Hn). proj_state.
  unfold get_icsr, put_icsr, bind. proj_state.
  rewrite <- !app_assoc, wrap_read. reflexivity.
Qed.

(** C4: with a thread running, the tick handler sets next_tcb to
    current_tcb->next and sets bit 28 of ICSR, the pending bit of the
    switch exception.  Its only store is the one to next_tcb: current_tcb,
    every other word of RAM (so every TCB field and every stack), the
    registers, the process stack pointer and the other ICSR bits keep
    their values. *)
Theorem SysTick_Handler_effect (s : machine) :
  aligned (symaddr current_tcb) = true ->
  aligned (symaddr next_tcb) = true ->
  wrap (symaddr current_tcb) <> wrap (symaddr next_tcb) ->
  running symaddr (mem s) <> 0 ->
  aligned (running symaddr (mem s)) = true ->
  exists s',
    SysTick_Handler symaddr s = Some (tt, s') /\
    chosen symaddr (mem s') = read_word (mem s) (TCB_next (running symaddr (mem s))) /\
    Z.testbit (icsr s') 28 = true /\
    (forall i, 0 <= i < 32 -> i <> 28 ->
       Z.testbit (icsr s') i = Z.testbit (icsr s) i) /\
    running symaddr (mem s') = running symaddr (mem s) /\
    (forall x, x <> wrap (symaddr next_tcb) -> mem s' x = mem s x) /\
    (forall a, wrap a <> wrap (symaddr next_tcb) ->
       read_word (mem s') a = read_word (mem s) a) /\
    gpr s' = gpr s /\ psp s' = psp s /\ pc s' = pc s /\ xpsr s' = xpsr s /\
    log s' = log s ++
      [ Rd (wrap (symaddr current_tcb));
        Rd (wrap (TCB_next (running symaddr (mem s))));
        Wr (wrap (symaddr next_tcb))
           (read_word (mem s) (TCB_next (running symaddr (mem s)))) ].
Proof.
  intros Hc Hn Hcn _ Hcur.
  eexists. split; [apply SysTick_run; assumption|]. proj_state.
  split; [unfold chosen; rewrite read_write_same; apply wrap_read|].
  split.
  { rewrite testbit_wrap, Z.lor_spec by lia.
    change (Z.testbit (Z.shiftl 1 28) 28) with true. apply orb_true_r. }
  split.
  { intros i Hi Hne. rewrite testbit_wrap, Z.lor_spec, testbit_wrap by lia.
    change (Z.shiftl 1 28) with (2 ^ 28).
    rewrite Z.pow2_bits_eqb by lia.
    destruct (Z.eqb_spec 28 i); [lia | apply orb_false_r]. }
  split; [unfold running; apply read_write_other, Hcn|].
  split; [intros x Hx; apply write_other, Hx|].
  split; [intros a Ha; apply read_write_other, Ha|].
  auto 10.
Qed.

End Tick.

(** * Exception return *)

Lemma read_wrap_add (m : Z -> Z) (p k : Z) :
  read_word m (wrap p + k) = read_word m (p + k).
Proof. unfold read_word. rewrite wrap_add_l. reflexivity. Qed.

Lemma read_words_8 (m : Z -> Z) (a : Z) :
  read_words m a 8 =
  [ read_word m a; read_word m (a + 4); read_word m (a + 8);
    read_word m (a + 12); read_word m (a + 16); read_word m (a + 20);
    read_word m (a + 24); read_word m (a + 28) ].
Proof.
  cbn [read_words]. rewrite !read_wrap.
  repeat (rewrite read_wrap_add, <- ?Z.add_assoc; fold_consts).
  reflexivity.
Qed.

Lemma read_words_app (m : Z -> Z) (n k : nat) (a : Z) :
  read_words m a (n + k) =
  read_words m a n ++ read_words m (wrap (a + 4 * Z.of_nat n)) k.
Proof.
  revert a. induction n as [|n IH]; intros a.
  - cbn [read_words app Nat.add]. rewrite Z.add_0_r.
    destruct k; cbn [read_words]; [reflexivity|].
    rewrite read_wrap, wrap_add_l. reflexivity.
  - replace (wrap (a + 4 * Z.of_nat (S n)))
      with (wrap (wrap (a + 4) + 4 * Z.of_nat n))
      by (rewrite wrap_add_l; f_equal; lia).
    cbn [read_words app Nat.add]. rewrite IH. reflexivity.
Qed.

Lemma exception_return_run (s : machine) :
  aligned (psp s) = true ->
  exists s',
    exception_return EXC_RETURN_THREAD_PSP s = Some (tt, s') /\
    mem s' = mem s /\
    [ gpr s' R0; gpr s' R1; gpr s' R2; gpr s' R3; gpr s' R12; gpr s' LR;
      pc s'; xpsr s' ] = read_words (mem s) (psp s) 8 /\
    map (gpr s') callee_saved = map (gpr s) callee_saved /\
    (Z.testbit (read_word (mem s) (psp s + 28)) 9 = false ->
     psp s' = wrap (psp s + 32)) /\
    icsr s' = icsr s /\
    log s' = log s ++ map Rd (word_addrs (psp s) 8).
Proof.
  intros Hp.
  assert (Hk : forall k, aligned (wrap (psp s) + 4 * k) = true).
  { intros k. apply aligned_add. rewrite aligned_wrap. exact Hp. }
  unfold exception_return. rewrite Z.eqb_refl.
  unfold get_psp at 1. unfold bind at 1.
  erewrite bind_some
    by (apply load32_run; rewrite aligned_wrap; exact Hp).
  proj_state.
  erewrite bind_some by (apply load32_run, (Hk 1)). proj_state.
  erewrite bind_some by (apply load32_run, (Hk 2)). proj_state.
  erewrite bind_some by (apply load32_run, (Hk 3)). proj_state.
  erewrite bind_some by (apply load32_run, (Hk 4)). proj_state.
  erewrite bind_some by (apply load32_run, (Hk 5)). proj_state.
  erewrite bind_some by (apply load32_run, (Hk 6)). proj_state.
  erewrite bind_some by (apply load32_run, (Hk 7)). proj_state.
  unfold put_reg, put_psp, bind. proj_state.
  eexists. split; [reflexivity|]. proj_state.
  split; [reflexivity|].
  split.
  { rewrite read_words_8.
    cbn [set_reg reg_eqb reg_index Nat.eqb].
    rewrite !wrap_read, !read_wrap, !read_wrap_add. reflexivity. }
  split.
  { cbn [map callee_saved set_reg reg_eqb reg_index Nat.eqb]. reflexivity. }
  split.
  { rewrite read_wrap_add. intros ->. rewrite Z.lor_0_r, wrap_wrap, wrap_add_l.
    rewrite aligned_round by (apply (aligned_wrap_add _ 8 Hp)).
    apply wrap_wrap. }
  split; [reflexivity|].
  rewrite word_addrs_8, <- !app_assoc. cbn [app map].
  rewrite !wrap_wrap, !wrap_add_l. reflexivity.
Qed.

(** * The first switch *)

Lemma in_region_step (a x : Z) (n : nat) :
  4 * Z.of_nat (S n) <= 2 ^ 32 ->
  in_region a (Z.of_nat (S n)) x = false ->
  wrap x <> wrap a /\ in_region (wrap (a + 4)) (Z.of_nat n) x = false.
Proof.
  intros Hn H. split.
  - apply not_eq_sym. replace a with (a + 0) at 1 by lia.
    apply (region_miss _ _ _ _ H); lia.
  - rewrite in_region_wrap_base.
    unfold in_region in *. rewrite Z.ltb_ge in *.
    assert (E : wrap (x - a) = wrap (wrap (x - (a + 4)) + 4)).
    { rewrite wrap_add_l. f_equal. lia. }
    pose proof (wrap_range (x - (a + 4))) as R.
    change (2 ^ 32) with 4294967296 in *.
    destruct (Z_lt_ge_dec (wrap (x - (a + 4)) + 4) 4294967296) as [L|L].
    + rewrite (wrap_small (wrap (x - (a + 4)) + 4)) in E
        by (unfold word32; change (2 ^ 32) with 4294967296; lia).
      lia.
    + unfold wrap in E at 2.
      replace ((wrap (x - (a + 4)) + 4) mod 2 ^ 32)
        with (wrap (x - (a + 4)) + 4 - 4294967296) in E.
      * lia.
      * apply Z.mod_unique with (q := 1);
          change (2 ^ 32) with 4294967296; lia.
Qed.

Lemma read_words_write_other (n : nat) (m : Z -> Z) (a x v : Z) :
  4 * Z.of_nat n <= 2 ^ 32 ->
  in_region a (Z.of_nat n) x = false ->
  read_words (write_word m x v) a n = read_words m a n.
Proof.
  revert a. induction n as [|n IH]; intros a Hn H; [reflexivity|].
  destruct (in_region_step a x n Hn H) as [H0 H1].
  cbn [read_words]. rewrite IH by (try exact H1; lia).
  rewrite read_write_other by (apply not_eq_sym, H0). reflexivity.
Qed.

Lemma filter_writes_reads (l : list Z) : filter is_write (map Rd l) = [].
Proof. induction l; simpl; auto. Qed.

Section FirstSwitch.

Variable symaddr : symbol -> Z.

(** C3: with current_tcb still null and next_tcb pointing at a TCB that
    only the frame builder has touched (in the state [s] its
    stack_pointer field and the sixteen words of its frame are what
    [OS_ThreadInit] left; the rest of [s] is arbitrary), the trampoline
    saves nothing: its single store is the one to current_tcb, so no
    stack word and no stack_pointer field is written.  It restores from
    the TCB's frame, and the exception return resumes the thread at its
    entry function with R4..R11 (and R0-R3, R12, LR) zero, xPSR =
    0x01000000 and the stack empty again. *)
Theorem PendSV_Handler_first_switch
  (tcb stack_array stack_size task : Z) (s0 sb s : machine) :
  aligned tcb = true ->
  aligned stack_array = true ->
  aligned (symaddr current_tcb) = true ->
  aligned (symaddr next_tcb) = true ->
  let top := stack_array + 4 * stack_size in
  in_region (top - 64) 16 (TCB_stack_pointer tcb) = false ->
  in_region (top - 64) 16 (symaddr current_tcb) = false ->
  wrap (symaddr current_tcb) <> wrap (TCB_stack_pointer tcb) ->
  OS_ThreadInit tcb stack_array stack_size task s0 = Some (tt, sb) ->
  read_word (mem s) (TCB_stack_pointer tcb) = read_word (mem sb) (TCB_stack_pointer tcb) ->
  read_words (mem s) (wrap (top - 64)) 16 = read_words (mem sb) (wrap (top - 64)) 16 ->
  running symaddr (mem s) = 0 ->
  chosen symaddr (mem s) = wrap tcb ->
  exists s1 s2 new,
    run_handler symaddr PendSV_Handler s = Some (EXC_RETURN_THREAD_PSP, s1) /\
    exception_return EXC_RETURN_THREAD_PSP s1 = Some (tt, s2) /\
    context_switch symaddr s = Some (tt, s2) /\
    log s1 = log s ++ new /\
    filter is_write new = [Wr (wrap (symaddr current_tcb)) (wrap tcb)] /\
    (forall x, x <> wrap (symaddr current_tcb) -> mem s2 x = mem s x) /\
    running symaddr (mem s2) = wrap tcb /\
    pc s2 = wrap task /\
    map (gpr s2) callee_saved = [0; 0; 0; 0; 0; 0; 0; 0] /\
    map (gpr s2) [R0; R1; R2; R3; R12; LR] = [0; 0; 0; 0; 0; 0] /\
    xpsr s2 = 0x01000000 /\
    psp s2 = wrap top.
Proof.
  intros Ht Ha Hc Hn top Houtt Houtc Hct Hinit Hfield Himage Hrun Hnext.
  rewrite OS_ThreadInit_run in Hinit by assumption.
  fold top in Hinit. injection Hinit as Hs.
  destruct (frame_image (mem s0) top task tcb Houtt) as [Hsp Hfr].
  assert (Hm : mem sb = write_list (mem s0)
                 (frame_stores top task ++ [(TCB_stack_pointer tcb, wrap (top - 64))]))
    by (rewrite <- Hs; reflexivity).
  unfold TCB_stack_pointer in *. rewrite <- Hm in Hsp, Hfr. clear Hs Hm.
  rewrite <- Hfield in Hsp. rewrite <- Himage in Hfr. clear Hfield Himage.
  assert (Hz : (running symaddr (mem s) =? 0) = true) by (apply Z.eqb_eq, Hrun).
  assert (Hsave : after_save symaddr s = mem s)
    by (unfold after_save; rewrite Hz; reflexivity).
  assert (Hinc : incoming symaddr s = wrap tcb)
    by (unfold incoming; rewrite Hsave; exact Hnext).
  assert (Hisp : incoming_sp symaddr s = wrap (top - 64)).
  { unfold incoming_sp, after_commit, TCB_stack_pointer.
    rewrite Hinc, Hsave, read_wrap.
    rewrite read_write_other by (apply not_eq_sym, Hct). exact Hsp. }
  assert (Hal : switch_aligned symaddr s = true).
  { unfold switch_aligned. rewrite Hc, Hn, Hz, Hinc, Hisp, aligned_wrap, Ht.
    cbn [andb]. apply aligned_wrap_sub with (k := 16).
    apply aligned_add, Ha. }
  destruct (PendSV_run symaddr s Hal)
    as (s1 & Hrun1 & Hmem & Hlog & Hregs & Hpsp & _ & _ & _ & _ & _).
  rewrite Hisp in Hregs, Hpsp.
  assert (Himg : read_words (mem s1) (wrap (top - 64)) 16 = initial_frame task).
  { rewrite (read_words_ext _ _ _ _ Hmem). unfold after_commit. rewrite Hsave.
    rewrite read_words_write_other; [exact Hfr | vm_compute; discriminate |].
    rewrite in_region_wrap_base. exact Houtc. }
  change 16%nat with (8 + 8)%nat in Himg. rewrite read_words_app in Himg.
  change (4 * Z.of_nat 8) with 32 in Himg.
  rewrite <- (read_words_ext _ _ _ _ Hmem) in Hregs.
  unfold initial_frame in Himg.
  apply (f_equal (fun l => (firstn 8 l, skipn 8 l))) in Himg.
  rewrite firstn_app, skipn_app in Himg.
  replace (Datatypes.length (read_words (mem s1) (wrap (top - 64)) 8)) with 8%nat
    in Himg by reflexivity.
  rewrite firstn_all2, skipn_all2 in Himg by (cbn [read_words List.length]; lia).
  cbn [Nat.sub firstn skipn app] in Himg. rewrite app_nil_r in Himg.
  apply pair_equal_spec in Himg. destruct Himg as [Hlow Hhigh].
  rewrite <- Hpsp in Hhigh.
  assert (Hp1 : aligned (psp s1) = true).
  { rewrite Hpsp, wrap_add_l. replace (top - 64 + 32) with (top - 4 * 8) by lia.
    apply aligned_wrap_sub. apply aligned_add, Ha. }
  destruct (exception_return_run s1 Hp1)
    as (s2 & Hret & Hmem2 & Hframe & Hcs & Hpsp2 & _ & _).
  rewrite Hhigh in Hframe. injection Hframe as H0 H1 H2 H3 H12 Hlr Hpc Hx.
  exists s1, s2, (switch_log symaddr s).
  split; [exact Hrun1|].
  split; [exact Hret|].
  split.
  { unfold context_switch. rewrite (bind_some _ _ _ _ _ Hrun1). exact Hret. }
  split; [exact Hlog|].
  split.
  { unfold switch_log. rewrite Hz, Hinc. cbn [app filter is_write].
    rewrite filter_writes_reads. reflexivity. }
  split.
  { intros x Hx'. rewrite Hmem2, Hmem. unfold after_commit. rewrite Hsave.
    apply write_other, Hx'. }
  split.
  { rewrite Hmem2. unfold running. rewrite (read_ext _ _ _ Hmem).
    fold (running symaddr (after_commit symaddr s)).
    rewrite running_after_commit. exact Hinc. }
  split; [exact Hpc|].
  split; [rewrite Hcs, Hregs; exact Hlow|].
  split; [cbn [map]; rewrite H0, H1, H2, H3, H12, Hlr; reflexivity|].
  split; [exact Hx|].
  rewrite Hpsp2.
  - rewrite Hpsp, wrap_add_l, <- Z.add_assoc, wrap_add_l. f_equal. lia.
  - rewrite read_words_8 in Hhigh. injection Hhigh as _ _ _ _ _ _ _ Hx9.
    rewrite Hx9. reflexivity.
Qed.

End FirstSwitch.

(** * What a switch leaves in RAM *)

Lemma reg_stores_addr (g : reg -> Z) (rl : list reg) (b a v : Z) :
  In (a, v) (reg_stores g b rl) ->
  exists i, 0 <= i < Z.of_nat (List.length rl) /\ wrap a = wrap (b + 4 * i).
Proof.
  revert b. induction rl as [|r rl IH]; intros b H; [contradiction|].
  cbn [reg_stores In] in H. destruct H as [H|H].
  - injection H as <- _. exists 0. rewrite Z.add_0_r. cbn [List.length]. lia.
  - destruct (IH _ H) as (i & Hi & E). exists (i + 1). split.
    + cbn [List.length]. lia.
    + rewrite E, wrap_add_l. f_equal. lia.
Qed.

Lemma reg_stores_other (g : reg -> Z) (rl : list reg) (m : Z -> Z) (b x : Z) :
  4 * Z.of_nat (List.length rl) <= 2 ^ 32 ->
  in_region b (Z.of_nat (List.length rl)) x = false ->
  write_list m (reg_stores g b rl) (wrap x) = m (wrap x).
Proof.
  intros Hn Hx. apply write_list_other. intros a v Hin.
  destruct (reg_stores_addr _ _ _ _ _ Hin) as (i & Hi & ->).
  apply not_eq_sym. apply (region_miss _ _ _ _ Hx); lia.
Qed.

Lemma reg_stores_read_other (g : reg -> Z) (rl : list reg) (m : Z -> Z) (b x : Z) :
  4 * Z.of_nat (List.length rl) <= 2 ^ 32 ->
  in_region b (Z.of_nat (List.length rl)) x = false ->
  read_word (write_list m (reg_stores g b rl)) x = read_word m x.
Proof.
  intros Hn Hx. unfold read_word. rewrite reg_stores_other by assumption.
  reflexivity.
Qed.

(** Reading a store-multiple back. *)
Lemma read_back_stores (g : reg -> Z) (rl : list reg) (m : Z -> Z) (a : Z) :
  4 * Z.of_nat (List.length rl) <= 2 ^ 32 ->
  read_words (write_list m (reg_stores g a rl)) a (List.length rl) =
  map (fun r => wrap (g r)) rl.
Proof.
  revert m a. induction rl as [|r rl IH]; intros m a Hn; [reflexivity|].
  cbn [List.length] in Hn.
  cbn [reg_stores List.length read_words map].
  unfold write_list in *. cbn [fold_left fst snd]. f_equal.
  - fold (write_list (write_word m a (wrap (g r))) (reg_stores g (wrap (a + 4)) rl)).
    unfold read_word. rewrite write_list_other.
    + fold (read_word (write_word m a (wrap (g r))) a).
      rewrite read_write_same. apply wrap_wrap.
    + intros a' v' Hin.
      destruct (reg_stores_addr _ _ _ _ _ Hin) as (i & Hi & ->).
      rewrite wrap_add_l. apply not_eq_sym.
      replace (a + 4 + 4 * i) with (a + (4 + 4 * i)) by lia.
      apply wrap_apart. lia.
  - apply IH. lia.
Qed.

Section SwitchMemory.

Variable symaddr : symbol -> Z.

Lemma after_save_read (s : machine) (x : Z) :
  running symaddr (mem s) <> 0 ->
  in_region (save_area s) 8 x = false ->
  read_word (after_save symaddr s) x =
  if wrap x =? running symaddr (mem s) then save_area s else read_word (mem s) x.
Proof.
  intros Hnz Hx. unfold after_save.
  rewrite (proj2 (Z.eqb_neq _ _) Hnz). unfold TCB_stack_pointer.
  assert (Wc : wrap (running symaddr (mem s)) = running symaddr (mem s))
    by apply wrap_read.
  destruct (Z.eqb_spec (wrap x) (running symaddr (mem s))) as [E|E].
  - unfold read_word, write_word. rewrite Wc, E, Z.eqb_refl.
    unfold save_area. rewrite !wrap_wrap. reflexivity.
  - rewrite read_write_other by (rewrite Wc; exact E).
    apply (reg_stores_read_other _ callee_saved); [vm_compute; discriminate|exact Hx].
Qed.

Lemma after_commit_read (s : machine) (x : Z) :
  running symaddr (mem s) <> 0 ->
  in_region (save_area s) 8 x = false ->
  read_word (after_commit symaddr s) x =
  if wrap x =? wrap (symaddr current_tcb) then incoming symaddr s
  else if wrap x =? running symaddr (mem s) then save_area s
  else read_word (mem s) x.
Proof.
  intros Hnz Hx. unfold after_commit.
  destruct (Z.eqb_spec (wrap x) (wrap (symaddr current_tcb))) as [E|E].
  - unfold read_word, write_word. rewrite E, Z.eqb_refl.
    unfold incoming, chosen. rewrite !wrap_read. reflexivity.
  - rewrite read_write_other by exact E. apply after_save_read; assumption.
Qed.

(** The saved registers, read back after the whole switch. *)
Lemma saved_image (s : machine) :
  running symaddr (mem s) <> 0 ->
  in_region (save_area s) 8 (running symaddr (mem s)) = false ->
  in_region (save_area s) 8 (symaddr current_tcb) = false ->
  read_words (after_commit symaddr s) (save_area s) 8 =
  map (fun r => wrap (gpr s r)) callee_saved.
Proof.
  intros Hnz Hcur Hc. unfold after_commit, after_save.
  rewrite (proj2 (Z.eqb_neq _ _) Hnz). unfold TCB_stack_pointer.
  rewrite !read_words_write_other
    by (try assumption; vm_compute; discriminate).
  apply (read_back_stores _ callee_saved). vm_compute. discriminate.
Qed.

End SwitchMemory.

(** * Scheduling cycles *)

Section Cycles.

Variable symaddr : symbol -> Z.
Variable ring : list Z.

Lemma layout_ok_globals :
  layout_ok symaddr ring = true ->
  aligned (symaddr current_tcb) = true /\
  aligned (symaddr next_tcb) = true /\
  wrap (symaddr current_tcb) <> wrap (symaddr next_tcb).
Proof.
  unfold layout_ok. rewrite !andb_true_iff, negb_true_iff, Z.eqb_neq.
  intros [[[Hc Hn] Hcn] _]. auto.
Qed.

Lemma layout_ok_tcb (t : Z) :
  layout_ok symaddr ring = true ->
  In t ring ->
  wrap t = t /\ t <> 0 /\ aligned t = true /\
  wrap t <> wrap (symaddr current_tcb) /\
  wrap (t + 4) <> wrap (symaddr current_tcb) /\
  wrap t <> wrap (symaddr next_tcb) /\
  wrap (t + 4) <> wrap (symaddr next_tcb) /\
  (forall t', In t' ring -> wrap (t + 4) <> wrap t').
Proof.
  unfold layout_ok. rewrite !andb_true_iff. intros [_ H] Hin.
  rewrite forallb_forall in H. specialize (H t Hin).
  unfold TCB_stack_pointer, TCB_next in H.
  rewrite !andb_true_iff, !negb_true_iff, !Z.eqb_neq, Z.eqb_eq in H.
  destruct H as [[[[[[[H1 H2] H3] H4] H5] H6] H7] H8].
  repeat split; try assumption.
  intros t' Hin'. rewrite forallb_forall in H8. specialize (H8 t' Hin').
  rewrite negb_true_iff, Z.eqb_neq in H8. exact H8.
Qed.

Lemma clear_of_kernel_spec (a : Z) :
  clear_of_kernel symaddr ring a = true <->
  in_region a 8 (symaddr current_tcb) = false /\
  in_region a 8 (symaddr next_tcb) = false /\
  (forall t, In t ring ->
     in_region a 8 t = false /\ in_region a 8 (t + 4) = false).
Proof.
  unfold clear_of_kernel, kernel_words. cbn [forallb].
  rewrite !andb_true_iff, !negb_true_iff, forallb_forall.
  split.
  - intros (Hc & Hn & H). repeat split; try assumption.
    + specialize (H t). rewrite negb_true_iff in H. apply H.
      apply in_flat_map. exists t. split; [assumption | left; reflexivity].
    + specialize (H (t + 4)). rewrite negb_true_iff in H. apply H.
      apply in_flat_map. exists t. split; [assumption | right; left; reflexivity].
  - intros (Hc & Hn & H). repeat split; try assumption.
    intros x Hx. apply in_flat_map in Hx. destruct Hx as (t & Ht & Hx).
    rewrite negb_true_iff. destruct (H t Ht) as [H1 H2].
    destruct Hx as [<-|[<-|[]]]; assumption.
Qed.

Lemma clear_of_kernel_wrap (a : Z) :
  clear_of_kernel symaddr ring (wrap a) = clear_of_kernel symaddr ring a.
Proof.
  unfold clear_of_kernel.
  induction (kernel_words symaddr ring) as [|x l IH]; [reflexivity|].
  cbn [forallb]. rewrite IH, in_region_wrap_base. reflexivity.
Qed.

Lemma ring_closed_spec (m : Z -> Z) :
  ring_closed ring m = true <->
  ring <> [] /\
  (forall j, (j < List.length ring)%nat ->
     read_word m (TCB_next (nth j ring 0)) = nth (S j mod List.length ring) ring 0).
Proof.
  unfold ring_closed. rewrite andb_true_iff, negb_true_iff, Nat.eqb_neq, forallb_forall.
  split.
  - intros [Hn H]. split; [intros ->; apply Hn; reflexivity|].
    intros j Hj. apply Z.eqb_eq, H. apply in_seq. lia.
  - intros [Hn H]. split; [destruct ring; [contradiction | discriminate]|].
    intros j Hj. apply in_seq in Hj. apply Z.eqb_eq, H. lia.
Qed.

Lemma sched_ok_spec (i : nat) (s : machine) :
  sched_ok symaddr ring i s = true <->
  (i < List.length ring)%nat /\
  running symaddr (mem s) = nth i ring 0 /\
  ring_closed ring (mem s) = true /\
  aligned (psp s) = true /\
  clear_of_kernel symaddr ring (save_area s) = true /\
  (forall t, In t ring ->
     aligned (read_word (mem s) t) = true /\
     clear_of_kernel symaddr ring (read_word (mem s) t) = true).
Proof.
  unfold sched_ok, TCB_stack_pointer.
  rewrite !andb_true_iff, Nat.ltb_lt, Z.eqb_eq, forallb_forall.
  split.
  - intros [[[[[H1 H2] H3] H4] H5] H6]. repeat split; try assumption;
      specialize (H6 t H); apply andb_true_iff in H6; tauto.
  - intros (H1 & H2 & H3 & H4 & H5 & H6). repeat split; try assumption.
    intros t Ht. apply andb_true_iff. apply H6, Ht.
Qed.

Lemma cycle_step (i : nat) (s : machine) :
  layout_ok symaddr ring = true ->
  sched_ok symaddr ring i s = true ->
  exists s1 s2,
    SysTick_Handler symaddr s = Some (tt, s1) /\
    run_handler symaddr PendSV_Handler s1 = Some (EXC_RETURN_THREAD_PSP, s2) /\
    chosen symaddr (mem s1) = nth (S i mod List.length ring) ring 0 /\
    chosen symaddr (mem s2) = nth (S i mod List.length ring) ring 0 /\
    sched_ok symaddr ring (S i mod List.length ring) s2 = true /\
    read_word (mem s2) (nth i ring 0) = save_area s /\
    read_words (mem s2) (save_area s) 8 = map (fun r => wrap (gpr s r)) callee_saved /\
    psp s2 = wrap (read_word (mem s2) (nth (S i mod List.length ring) ring 0) + 32) /\
    map (gpr s2) callee_saved =
      read_words (mem s2)
        (read_word (mem s2) (nth (S i mod List.length ring) ring 0)) 8 /\
    (forall x,
       in_region (save_area s) 8 x = false ->
       wrap x <> wrap (symaddr current_tcb) ->
       wrap x <> wrap (symaddr next_tcb) ->
       wrap x <> wrap (nth i ring 0) ->
       read_word (mem s2) x = read_word (mem s) x).
Proof.
  intros HL HS.
  destruct (layout_ok_globals HL) as (Hc & Hn & Hcn).
  apply sched_ok_spec in HS.
  destruct HS as (Hi & Hrun & Hring & Hpsp & Hclr & Hsp).
  apply ring_closed_spec in Hring. destruct Hring as [Hne Hring].
  assert (Hi' : (S i mod List.length ring < List.length ring)%nat)
    by (apply Nat.mod_upper_bound; lia).
  set (ti := nth i ring 0) in *.
  set (tn := nth (S i mod List.length ring) ring 0) in *.
  assert (Iti : In ti ring) by (apply nth_In; exact Hi).
  assert (Itn : In tn ring) by (apply nth_In; exact Hi').
  destruct (layout_ok_tcb ti HL Iti) as (Wi & Zi & Ai & Ci & Ci4 & Ni & Ni4 & Di).
  destruct (layout_ok_tcb tn HL Itn) as (Wn & Zn & An & Cn & Cn4 & Nn & Nn4 & Dn).
  apply clear_of_kernel_spec in Hclr. destruct Hclr as (Kc & Kn & Kt).
  assert (Hnext : read_word (mem s) (TCB_next ti) = tn) by (apply Hring, Hi).
  (* the tick *)
  pose proof (SysTick_run symaddr s Hc Hn) as Htick.
  rewrite Hrun, Hnext in Htick. specialize (Htick Ai).
  match type of Htick with _ = Some (tt, ?st) => set (s1 := st) in * end.
  assert (M1 : forall x, wrap x <> wrap (symaddr next_tcb) ->
                         read_word (mem s1) x = read_word (mem s) x)
    by (intros x Hx; apply read_write_other, Hx).
  assert (R1 : running symaddr (mem s1) = ti)
    by (unfold running; rewrite M1 by exact Hcn; exact Hrun).
  assert (N1 : chosen symaddr (mem s1) = tn)
    by (unfold chosen, s1; cbn [mem]; rewrite read_write_same; exact Wn).
  assert (A1 : save_area s1 = save_area s) by reflexivity.
  assert (G1 : gpr s1 = gpr s) by reflexivity.
  assert (P1 : psp s1 = psp s) by reflexivity.
  clearbody s1.
  assert (Z1 : running symaddr (mem s1) <> 0) by (rewrite R1; exact Zi).
  (* what the switch reads *)
  assert (Hinc : incoming symaddr s1 = tn).
  { unfold incoming, chosen. rewrite after_save_read; [|exact Z1|rewrite A1; exact Kn].
    rewrite R1. destruct (Z.eqb_spec (wrap (symaddr next_tcb)) ti) as [E|E].
    - exfalso. apply Ni. rewrite Wi. symmetry. exact E.
    - exact N1. }
  assert (Hread : forall x, in_region (save_area s) 8 x = false ->
            read_word (after_commit symaddr s1) x =
            if wrap x =? wrap (symaddr current_tcb) then tn
            else if wrap x =? ti then save_area s
            else read_word (mem s1) x).
  { intros x Hx. rewrite after_commit_read; [|exact Z1|rewrite A1; exact Hx].
    rewrite Hinc, R1, A1. reflexivity. }
  assert (Asa : aligned (save_area s) = true)
    by (unfold save_area; apply (aligned_wrap_sub _ 8 Hpsp)).
  assert (Hstack : forall t, In t ring ->
            read_word (after_commit symaddr s1) t =
              (if wrap t =? ti then save_area s else read_word (mem s) t) /\
            aligned (read_word (after_commit symaddr s1) t) = true /\
            clear_of_kernel symaddr ring (read_word (after_commit symaddr s1) t) = true).
  { intros t Ht.
    destruct (layout_ok_tcb t HL Ht) as (_ & _ & _ & Ct & _ & Nt & _ & _).
    rewrite Hread by (apply Kt, Ht).
    rewrite (proj2 (Z.eqb_neq _ _) Ct), M1 by exact Nt.
    split; [reflexivity|].
    destruct (wrap t =? ti).
    - split; [exact Asa|]. apply clear_of_kernel_spec. auto.
    - apply Hsp, Ht. }
  assert (Hisp : incoming_sp symaddr s1 = read_word (after_commit symaddr s1) tn)
    by (unfold incoming_sp, TCB_stack_pointer; rewrite Hinc; reflexivity).
  destruct (Hstack tn Itn) as (_ & Aisp & Cisp).
  assert (Hal : switch_aligned symaddr s1 = true).
  { unfold switch_aligned.
    rewrite Hc, Hn, (proj2 (Z.eqb_neq _ _) Z1), R1, Ai, P1, Hpsp, Hinc, An, Hisp, Aisp.
    reflexivity. }
  destruct (PendSV_run symaddr s1 Hal)
    as (s2 & Hrun2 & Hmem & _ & Hregs & Hpsp2 & _).
  rewrite Hisp in Hregs, Hpsp2.
  rewrite <- (read_words_ext _ _ _ _ Hmem) in Hregs.
  rewrite <- (read_ext _ _ _ Hmem) in Hregs, Hpsp2.
  assert (Hread2 : forall x, read_word (mem s2) x = read_word (after_commit symaddr s1) x)
    by (intros x; apply read_ext, Hmem).
  exists s1, s2.
  split; [exact Htick|].
  split; [exact Hrun2|].
  split; [exact N1|].
  split.
  { unfold chosen. rewrite Hread2, Hread by exact Kn.
    rewrite (proj2 (Z.eqb_neq _ _) (not_eq_sym Hcn)).
    destruct (Z.eqb_spec (wrap (symaddr next_tcb)) ti) as [E|E]; [|exact N1].
    exfalso. apply Ni. rewrite Wi. symmetry. exact E. }
  split.
  { apply sched_ok_spec. split; [exact Hi'|]. fold tn.
    split.
    { unfold running. rewrite Hread2, Hread by exact Kc.
      rewrite Z.eqb_refl. reflexivity. }
    split.
    { apply ring_closed_spec. split; [exact Hne|]. intros j Hj.
      assert (Ij : In (nth j ring 0) ring) by (apply nth_In; exact Hj).
      destruct (layout_ok_tcb _ HL Ij) as (_ & _ & _ & _ & Cj4 & _ & Nj4 & Dj).
      unfold TCB_next. rewrite Hread2, Hread by (apply Kt, Ij).
      rewrite (proj2 (Z.eqb_neq _ _) Cj4).
      destruct (Z.eqb_spec (wrap (nth j ring 0 + 4)) ti) as [E|E].
      - exfalso. apply (Dj ti Iti). rewrite Wi. exact E.
      - rewrite M1 by exact Nj4. apply Hring, Hj. }
    split.
    { rewrite Hpsp2. apply (aligned_wrap_add _ 8). rewrite Hread2. exact Aisp. }
    split.
    { unfold save_area. rewrite Hpsp2, wrap_sub_l.
      replace (read_word (mem s2) tn + 32 - 32) with (read_word (mem s2) tn) by lia.
      rewrite clear_of_kernel_wrap, Hread2. exact Cisp. }
    intros t Ht. rewrite Hread2. apply Hstack, Ht. }
  split.
  { rewrite Hread2. destruct (Hstack ti Iti) as (-> & _). rewrite Wi, Z.eqb_refl.
    reflexivity. }
  split.
  { rewrite (read_words_ext _ _ _ _ Hmem), <- A1, <- G1.
    apply saved_image; [exact Z1| |rewrite A1; exact Kc].
    rewrite R1, A1. apply Kt, Iti. }
  split; [exact Hpsp2|].
  split; [exact Hregs|].
  intros x Hx Hxc Hxn Hxi.
  rewrite Hread2, Hread by exact Hx.
  rewrite (proj2 (Z.eqb_neq _ _) Hxc).
  rewrite Wi in Hxi. rewrite (proj2 (Z.eqb_neq _ _) Hxi).
  apply M1, Hxn.
Qed.

End Cycles.

Section RoundRobin.

Variable symaddr : symbol -> Z.
Variable ring : list Z.

Lemma tick_and_switch_run (s s1 s2 : machine) (t : Z) :
  SysTick_Handler symaddr s = Some (tt, s1) ->
  run_handler symaddr PendSV_Handler s1 = Some (t, s2) ->
  tick_and_switch symaddr s = Some (tt, s2).
Proof.
  intros H1 H2. unfold tick_and_switch.
  rewrite (bind_some _ _ _ _ _ H1), (bind_some _ _ _ _ _ H2). reflexivity.
Qed.

(** Any number of cycles: thread [i] is followed by thread [i + n]. *)
Lemma cycles_run (n i : nat) (s : machine) :
  layout_ok symaddr ring = true ->
  sched_ok symaddr ring i s = true ->
  exists s',
    cycles symaddr n s = Some (tt, s') /\
    sched_ok symaddr ring ((i + n) mod List.length ring) s' = true.
Proof.
  intros HL. revert i s. induction n as [|n IH]; intros i s HS.
  - exists s. split; [reflexivity|].
    rewrite Nat.add_0_r, Nat.mod_small; [exact HS|].
    apply sched_ok_spec in HS. tauto.
  - destruct (cycle_step symaddr ring i s HL HS) as (s1 & s2 & H1 & H2 & _ & _ & HS2 & _).
    destruct (IH _ _ HS2) as (s' & Hrun & HS').
    exists s'. split.
    + cbn [cycles]. rewrite (bind_some _ _ _ _ _ (tick_and_switch_run _ _ _ _ H1 H2)).
      exact Hrun.
    + rewrite Nat.Div0.add_mod_idemp_l in HS'.
      replace (i + S n)%nat with (S i + n)%nat by lia. exact HS'.
Qed.

(** C5: in a closed ring of N >= 1 TCBs, N consecutive tick-and-switch
    cycles started with thread T running end with thread T running
    again.  The caller's set-up is the one the kernel expects: aligned,
    non-overlapping TCBs and globals, and stacks that keep clear of
    them. *)
Theorem round_robin_closure (i : nat) (T : Z) (s : machine) :
  layout_ok symaddr ring = true ->
  sched_ok symaddr ring i s = true ->
  nth_error ring i = Some T ->
  running symaddr (mem s) = T /\
  exists s',
    cycles symaddr (List.length ring) s = Some (tt, s') /\
    running symaddr (mem s') = T.
Proof.
  intros HL HS HT.
  destruct (cycles_run (List.length ring) i s HL HS) as (s' & Hrun & HS').
  apply sched_ok_spec in HS. destruct HS as (Hi & Hr & _).
  apply sched_ok_spec in HS'. destruct HS' as (_ & Hr' & _).
  assert (E : nth i ring 0 = T) by (apply nth_error_nth, HT).
  split; [rewrite Hr; exact E|].
  exists s'. split; [exact Hrun|].
  rewrite Hr'.
  replace ((i + List.length ring) mod List.length ring)%nat with i; [exact E|].
  rewrite <- Nat.Div0.add_mod_idemp_r, Nat.Div0.mod_same, Nat.add_0_r.
  symmetry. apply Nat.mod_small, Hi.
Qed.

End RoundRobin.

(** * A ring of one thread *)

Lemma is_word_wrap (x : Z) : is_word x = true -> wrap x = x.
Proof.
  unfold is_word. rewrite andb_true_iff, Z.leb_le, Z.ltb_lt.
  intros H. apply wrap_small. exact H.
Qed.

Lemma saved_regs_wrap (s : machine) :
  saved_regs_words s = true ->
  map (fun r => wrap (gpr s r)) callee_saved = map (gpr s) callee_saved.
Proof.
  unfold saved_regs_words. rewrite forallb_forall. intros H.
  apply map_ext_in. intros r Hr. apply is_word_wrap, H, Hr.
Qed.

Lemma saved_regs_words_ext (s s' : machine) :
  map (gpr s') callee_saved = map (gpr s) callee_saved ->
  saved_regs_words s = true -> saved_regs_words s' = true.
Proof.
  unfold saved_regs_words. cbn [callee_saved map forallb].
  intros H. injection H as -> -> -> -> -> -> -> ->. auto.
Qed.

Section SelfSwitch.

Variable symaddr : symbol -> Z.
Variable T1 : Z.

Lemma self_switch_step (s : machine) :
  layout_ok symaddr [T1] = true ->
  sched_ok symaddr [T1] 0 s = true ->
  saved_regs_words s = true ->
  is_word (psp s) = true ->
  exists s1 s2,
    SysTick_Handler symaddr s = Some (tt, s1) /\
    run_handler symaddr PendSV_Handler s1 = Some (EXC_RETURN_THREAD_PSP, s2) /\
    chosen symaddr (mem s1) = T1 /\
    chosen symaddr (mem s2) = T1 /\
    running symaddr (mem s2) = T1 /\
    sched_ok symaddr [T1] 0 s2 = true /\
    map (gpr s2) callee_saved = map (gpr s) callee_saved /\
    psp s2 = psp s /\
    read_word (mem s2) (TCB_stack_pointer T1) = wrap (psp s - 32) /\
    read_words (mem s2) (wrap (psp s - 32)) 8 = map (gpr s) callee_saved.
Proof.
  intros HL HS HW HP.
  destruct (cycle_step symaddr [T1] 0 s HL HS)
    as (s1 & s2 & H1 & H2 & N1 & N2 & HS2 & Hsp & Himg & Hpsp & Hregs & _).
  cbn [List.length Nat.modulo Nat.divmod nth snd Nat.sub] in *.
  unfold save_area, TCB_stack_pointer in *.
  rewrite saved_regs_wrap in Himg by exact HW.
  rewrite Hsp in Hregs, Hpsp. rewrite Himg in Hregs.
  exists s1, s2. repeat split; try assumption.
  - apply sched_ok_spec in HS2. destruct HS2 as (_ & Hr & _). exact Hr.
  - rewrite Hpsp, wrap_add_l.
    replace (psp s - 32 + 32) with (psp s) by lia. apply is_word_wrap, HP.
Qed.

(** Any number of cycles of the one-thread ring. *)
Lemma self_switch_cycles (n : nat) (s : machine) :
  layout_ok symaddr [T1] = true ->
  sched_ok symaddr [T1] 0 s = true ->
  saved_regs_words s = true ->
  is_word (psp s) = true ->
  exists s',
    cycles symaddr n s = Some (tt, s') /\
    sched_ok symaddr [T1] 0 s' = true /\
    map (gpr s') callee_saved = map (gpr s) callee_saved /\
    psp s' = psp s /\
    ((0 < n)%nat ->
     chosen symaddr (mem s') = T1 /\
     read_word (mem s') (TCB_stack_pointer T1) = wrap (psp s - 32) /\
     read_words (mem s') (wrap (psp s - 32)) 8 = map (gpr s) callee_saved).
Proof.
  intros HL. revert s. induction n as [|n IH]; intros s HS HW HP.
  - exists s. split; [reflexivity|]. repeat split; try assumption; lia.
  - destruct (self_switch_step s HL HS HW HP)
      as (s1 & s2 & H1 & H2 & N1 & N2 & R2' & HS2 & Hregs & Hpsp & Hsp & Himg).
    assert (HW2 : saved_regs_words s2 = true)
      by (apply (saved_regs_words_ext s); assumption).
    assert (HP2 : is_word (psp s2) = true) by (rewrite Hpsp; exact HP).
    destruct (IH s2 HS2 HW2 HP2) as (s' & Hrun & HS' & Hg & Hp & Hrest).
    exists s'. split.
    { cbn [cycles]. rewrite (bind_some _ _ _ _ _ (tick_and_switch_run _ _ _ _ _ H1 H2)).
      exact Hrun. }
    split; [exact HS'|].
    split; [rewrite Hg; exact Hregs|].
    split; [rewrite Hp; exact Hpsp|].
    intros _. destruct n as [|n].
    + cbn [cycles] in Hrun. injection Hrun as <-. auto.
    + destruct Hrest as (Hn' & Hsp' & Himg'); [lia|].
      rewrite Hpsp, Hregs in *. auto.
Qed.

(** C7: in the ring T1 -> T1 with T1 running, every tick sets next_tcb
    to T1 and every switch stores R4..R11 on T1's stack and reloads the
    same values from the same words: after any number of cycles both
    handlers have returned, T1 is still running, and R4..R11 and the
    process stack pointer have their initial values.  From the first
    cycle on, T1's stack_pointer field points at the eight words below
    the process stack pointer, these words hold the register values, and
    one more cycle leaves the field and the words exactly as they
    were.  The first switch itself writes the register values over
    whatever these words held before. *)
Theorem single_thread_ring_switch (n : nat) (s : machine) :
  layout_ok symaddr [T1] = true ->
  sched_ok symaddr [T1] 0 s = true ->
  saved_regs_words s = true ->
  is_word (psp s) = true ->
  exists s',
    cycles symaddr n s = Some (tt, s') /\
    running symaddr (mem s') = T1 /\
    read_word (mem s') (TCB_next T1) = T1 /\
    map (gpr s') callee_saved = map (gpr s) callee_saved /\
    psp s' = psp s /\
    ((0 < n)%nat ->
     chosen symaddr (mem s') = T1 /\
     read_word (mem s') (TCB_stack_pointer T1) = wrap (psp s - 32) /\
     read_words (mem s') (read_word (mem s') (TCB_stack_pointer T1)) 8 =
       map (gpr s) callee_saved /\
     exists s'',
       tick_and_switch symaddr s' = Some (tt, s'') /\
       map (gpr s'') callee_saved = map (gpr s') callee_saved /\
       psp s'' = psp s' /\
       read_word (mem s'') (TCB_stack_pointer T1) =
         read_word (mem s') (TCB_stack_pointer T1) /\
       read_words (mem s'') (read_word (mem s'') (TCB_stack_pointer T1)) 8 =
         read_words (mem s') (read_word (mem s') (TCB_stack_pointer T1)) 8).
Proof.
  intros HL HS HW HP.
  destruct (self_switch_cycles n s HL HS HW HP) as (s' & Hrun & HS' & Hg & Hp & Hrest).
  assert (HW' : saved_regs_words s' = true)
    by (apply (saved_regs_words_ext s); assumption).
  assert (HP' : is_word (psp s') = true) by (rewrite Hp; exact HP).
  exists s'. split; [exact Hrun|].
  pose proof HS' as HS0. apply sched_ok_spec in HS0.
  destruct HS0 as (_ & Hr & Hc & _).
  apply ring_closed_spec in Hc. destruct Hc as [_ Hc].
  specialize (Hc 0%nat (Nat.lt_0_1)).
  split; [exact Hr|]. split; [exact Hc|].
  split; [exact Hg|]. split; [exact Hp|].
  intros Hn. destruct (Hrest Hn) as (Hch & Hsp & Himg).
  split; [exact Hch|]. split; [exact Hsp|].
  split; [rewrite Hsp; exact Himg|].
  destruct (self_switch_step s' HL HS' HW' HP')
    as (s1 & s'' & H1 & H2 & _ & _ & _ & _ & Hregs & Hpsp & Hsp' & Himg').
  exists s''.
  split; [exact (tick_and_switch_run _ _ _ _ _ H1 H2)|].
  split; [exact Hregs|]. split; [exact Hpsp|].
  rewrite Hsp', Hsp, Hp. split; [reflexivity|].
  rewrite Hp in Himg'. rewrite Himg', Himg, Hg. reflexivity.
Qed.

End SelfSwitch.

(** * Saving, then restoring *)

Section RoundTrip.

Variable symaddr : symbol -> Z.

(** A run leaves every word it does not store to as it was. *)
Lemma switch_frame (s : machine) (x : Z) :
  switch_writes symaddr s x = false ->
  read_word (after_commit symaddr s) x = read_word (mem s) x.
Proof.
  unfold switch_writes. rewrite orb_false_iff, Z.eqb_neq. intros [Hc H].
  unfold after_commit. rewrite read_write_other by exact Hc.
  destruct (Z.eqb_spec (running symaddr (mem s)) 0) as [E|E].
  - unfold after_save. rewrite (proj2 (Z.eqb_eq _ _) E). reflexivity.
  - apply orb_false_iff in H. destruct H as [Hr Hx].
    rewrite after_save_read by assumption. rewrite Hr. reflexivity.
Qed.

Lemma switch_frame_words (s : machine) (n : nat) (a : Z) :
  forallb (fun x => negb (switch_writes symaddr s x)) (word_addrs a n) = true ->
  read_words (after_commit symaddr s) a n = read_words (mem s) a n.
Proof.
  revert a. induction n as [|n IH]; intros a H; [reflexivity|].
  cbn [word_addrs forallb] in H. apply andb_true_iff in H. destruct H as [H0 H].
  cbn [read_words]. rewrite IH by exact H. f_equal.
  rewrite <- (read_wrap _ a), <- (read_wrap (mem s) a).
  apply switch_frame. apply negb_true_iff, H0.
Qed.

(** With next_tcb out of the way of the save phase, the thread switched
    to is the one next_tcb named when the handler was entered. *)
Lemma incoming_chosen (s : machine) :
  switch_writes symaddr s (symaddr next_tcb) = false ->
  incoming symaddr s = chosen symaddr (mem s).
Proof.
  intros Wn. unfold incoming.
  unfold switch_writes in Wn. apply orb_false_iff in Wn. destruct Wn as [_ Wn].
  destruct (Z.eqb_spec (running symaddr (mem s)) 0) as [E|E].
  - unfold after_save. rewrite (proj2 (Z.eqb_eq _ _) E). reflexivity.
  - apply orb_false_iff in Wn. destruct Wn as [Wr' Wx].
    unfold chosen. rewrite after_save_read by assumption.
    rewrite Wr'. reflexivity.
Qed.

(** C6: thread T is switched out in state [s] with any values in
    R4..R11.  In a later state [u] in which T's saved image (its
    stack_pointer field and the eight words it points at) is what the
    switch-out left, and in which the tick handler has chosen T, the
    trampoline switches T back in with R4..R11 holding the very values
    they had in [s], and with the process stack pointer where it was.
    The stores of the second run (the save of the thread then running)
    fall outside T's image. *)
Theorem save_restore_roundtrip (T : Z) (s s1 u : machine) :
  switch_aligned symaddr s = true ->
  running symaddr (mem s) = T ->
  T <> 0 ->
  in_region (save_area s) 8 (TCB_stack_pointer T) = false ->
  in_region (save_area s) 8 (symaddr current_tcb) = false ->
  wrap (TCB_stack_pointer T) <> wrap (symaddr current_tcb) ->
  saved_regs_words s = true ->
  is_word (psp s) = true ->
  run_handler symaddr PendSV_Handler s = Some (EXC_RETURN_THREAD_PSP, s1) ->
  read_word (mem u) (TCB_stack_pointer T) = read_word (mem s1) (TCB_stack_pointer T) ->
  read_words (mem u) (save_area s) 8 = read_words (mem s1) (save_area s) 8 ->
  chosen symaddr (mem u) = T ->
  switch_aligned symaddr u = true ->
  switch_writes symaddr u (symaddr next_tcb) = false ->
  switch_writes symaddr u (TCB_stack_pointer T) = false ->
  image_kept symaddr u (save_area s) = true ->
  exists u',
    run_handler symaddr PendSV_Handler u = Some (EXC_RETURN_THREAD_PSP, u') /\
    running symaddr (mem u') = T /\
    map (gpr u') callee_saved = map (gpr s) callee_saved /\
    psp u' = psp s.
Proof.
  unfold TCB_stack_pointer.
  intros Hal Hrun Hnz KT Kc HTc HW HP Hrun1 HuT Huimg Hch Hal' Wn WT Wimg.
  (* the switch-out *)
  destruct (PendSV_run symaddr s Hal) as (s1' & Hrun1' & Hmem & _).
  rewrite Hrun1 in Hrun1'. injection Hrun1' as <-.
  assert (Z0 : running symaddr (mem s) <> 0) by (rewrite Hrun; exact Hnz).
  assert (WTT : wrap T = T) by (rewrite <- Hrun; apply wrap_read).
  assert (HspT : read_word (mem s1) T = save_area s).
  { rewrite (read_ext _ _ _ Hmem), after_commit_read by (try assumption).
    rewrite (proj2 (Z.eqb_neq _ _) HTc), Hrun, WTT, Z.eqb_refl. reflexivity. }
  assert (Himg : read_words (mem s1) (save_area s) 8 = map (gpr s) callee_saved).
  { rewrite (read_words_ext _ _ _ _ Hmem), <- (saved_regs_wrap s HW).
    apply saved_image; [exact Z0|rewrite Hrun; exact KT|exact Kc]. }
  (* the switch-in *)
  destruct (PendSV_run symaddr u Hal') as (u' & Hrun2 & Hmem' & _ & Hregs & Hpsp & _).
  assert (Hinc : incoming symaddr u = T).
  { rewrite incoming_chosen by exact Wn. exact Hch. }
  assert (Hisp : incoming_sp symaddr u = save_area s).
  { unfold incoming_sp, TCB_stack_pointer. rewrite Hinc, switch_frame by exact WT.
    rewrite HuT. exact HspT. }
  exists u'. split; [exact Hrun2|].
  split.
  { unfold running. rewrite (read_ext _ _ _ Hmem').
    fold (running symaddr (after_commit symaddr u)).
    rewrite running_after_commit. exact Hinc. }
  split.
  { rewrite Hregs, Hisp, switch_frame_words by exact Wimg.
    rewrite Huimg. exact Himg. }
  rewrite Hpsp, Hisp. unfold save_area. rewrite wrap_add_l.
  replace (psp s - 32 + 32) with (psp s) by lia. apply is_word_wrap, HP.
Qed.

End RoundTrip.

(** * The ring under the kernel's operations *)

Lemma hop_ring (ring : list Z) (m : Z -> Z) (k j : nat) :
  ring_closed ring m = true ->
  (j < List.length ring)%nat ->
  hop m k (nth j ring 0) = nth ((j + k) mod List.length ring) ring 0.
Proof.
  intros Hc. apply ring_closed_spec in Hc. destruct Hc as [Hne Hc].
  revert j. induction k as [|k IH]; intros j Hj.
  - rewrite Nat.add_0_r, Nat.mod_small by exact Hj. reflexivity.
  - cbn [hop]. rewrite Hc by exact Hj.
    rewrite IH by (apply Nat.mod_upper_bound; lia).
    rewrite Nat.Div0.add_mod_idemp_l. f_equal. f_equal. lia.
Qed.

(** In a closed ring, following [next] from any TCB comes back to it. *)
Lemma ring_closed_returns (ring : list Z) (m : Z -> Z) (t : Z) :
  ring_closed ring m = true ->
  In t ring ->
  hop m (List.length ring) t = t.
Proof.
  intros Hc Ht. destruct (In_nth _ _ 0 Ht) as (j & Hj & <-).
  rewrite hop_ring by assumption.
  rewrite <- Nat.Div0.add_mod_idemp_r, Nat.Div0.mod_same, Nat.add_0_r.
  rewrite Nat.mod_small by exact Hj. reflexivity.
Qed.

Lemma forallb_agree {A : Type} (f g : A -> bool) (l : list A) :
  (forall x, In x l -> f x = g x) -> forallb f l = forallb g l.
Proof.
  induction l as [|a l IH]; intros H; [reflexivity|].
  cbn [forallb]. rewrite (H a) by (left; reflexivity).
  rewrite IH; [reflexivity|].
  intros x Hx. apply H. right. exact Hx.
Qed.

Lemma ring_closed_ext (ring : list Z) (m m' : Z -> Z) :
  (forall t, In t ring -> read_word m' (TCB_next t) = read_word m (TCB_next t)) ->
  ring_closed ring m' = ring_closed ring m.
Proof.
  intros H. unfold ring_closed. f_equal.
  apply forallb_agree.
  intros j Hj. apply in_seq in Hj. rewrite H; [reflexivity|].
  apply nth_In. lia.
Qed.

Section KernelOps.

Variable symaddr : symbol -> Z.

Lemma in_writes_log (ws : list (Z * Z)) (e : access) :
  In e (writes_log ws) ->
  exists a v, In (a, v) ws /\ e = Wr (wrap a) (wrap v).
Proof.
  unfold writes_log. rewrite in_map_iff. intros ([a v] & <- & Hin).
  exists a, v. auto.
Qed.

Lemma in_reads (l : list Z) (e : access) : In e (map Rd l) -> is_write e = false.
Proof. rewrite in_map_iff. intros (a & <- & _). reflexivity. Qed.

Lemma ThreadInit_effect (tcb stack_array stack_size task : Z) (s : machine) :
  aligned tcb = true ->
  aligned stack_array = true ->
  exists s' new,
    OS_ThreadInit tcb stack_array stack_size task s = Some (tt, s') /\
    log s' = log s ++ new /\
    (forall e, In e new -> is_write e = true ->
       op_writes symaddr (ThreadInit tcb stack_array stack_size task) s
                 (access_addr e) = true) /\
    (forall x,
       op_writes symaddr (ThreadInit tcb stack_array stack_size task) s x = false ->
       read_word (mem s') x = read_word (mem s) x).
Proof.
  intros Ht Ha.
  pose (top := stack_array + 4 * stack_size).
  pose (ws := frame_stores top task ++ [(TCB_stack_pointer tcb, wrap (top - 64))]).
  assert (Hws : forall a v, In (a, v) ws ->
            wrap a = wrap (TCB_stack_pointer tcb) \/
            exists k, 1 <= k <= 16 /\ wrap a = wrap (top - 64 + 4 * (16 - k))).
  { intros a v Hin. apply in_app_or in Hin. destruct Hin as [Hin|Hin].
    - right. destruct (frame_stores_addr _ _ _ _ Hin) as (k & Hk & ->).
      exists k. split; [exact Hk|]. rewrite wrap_wrap. f_equal. lia.
    - left. destruct Hin as [Hin|[]]. injection Hin as <- _. reflexivity. }
  exists (with_mem s (write_list (mem s) ws) (log s ++ writes_log ws)), (writes_log ws).
  split; [apply OS_ThreadInit_run; assumption|].
  split; [reflexivity|].
  cbn [op_writes]. fold top. split.
  - intros e He _. destruct (in_writes_log _ _ He) as (a & v & Hin & ->).
    cbn [access_addr]. rewrite wrap_wrap, in_region_wrap.
    destruct (Hws a v Hin) as [E|(k & Hk & E)].
    + rewrite E, Z.eqb_refl. reflexivity.
    + rewrite <- (in_region_wrap _ _ a), E, in_region_wrap.
      rewrite region_hit by (change (2 ^ 32) with 4294967296; lia).
      apply orb_true_r.
  - intros x Hx. apply orb_false_iff in Hx. destruct Hx as [Hx1 Hx2].
    apply Z.eqb_neq in Hx1. proj_state.
    unfold read_word. rewrite write_list_other; [reflexivity|].
    intros a v Hin. destruct (Hws a v Hin) as [E|(k & Hk & E)].
    + rewrite E. exact Hx1.
    + rewrite E. apply not_eq_sym.
      apply (region_miss _ _ _ _ Hx2); change (2 ^ 32) with 4294967296; lia.
Qed.

Lemma Switch_effect (s : machine) :
  switch_aligned symaddr s = true ->
  exists s' new,
    run_op symaddr Switch s = Some (tt, s') /\
    log s' = log s ++ new /\
    running symaddr (mem s') = incoming symaddr s /\
    (forall e, In e new -> is_write e = true ->
       switch_writes symaddr s (access_addr e) = true) /\
    (forall x, switch_writes symaddr s x = false ->
       read_word (mem s') x = read_word (mem s) x).
Proof.
  intros Hal.
  destruct (PendSV_run symaddr s Hal) as (s' & Hrun & Hmem & Hlog & _).
  exists s', (switch_log symaddr s).
  split; [cbn [run_op]; rewrite (bind_some _ _ _ _ _ Hrun); reflexivity|].
  split; [exact Hlog|].
  split.
  { unfold running. rewrite (read_ext _ _ _ Hmem).
    apply running_after_commit. }
  split.
  - intros e He Hw. unfold switch_log in He. unfold switch_writes.
    cbn [app In] in He. destruct He as [<-|He]; [discriminate|].
    apply in_app_or in He. destruct He as [He|He].
    + destruct (Z.eqb_spec (running symaddr (mem s)) 0) as [E|E]; [contradiction|].
      apply in_app_or in He. destruct He as [He|[<-|[]]].
      * destruct (in_writes_log _ _ He) as (a & v & Hin & ->).
        destruct (reg_stores_addr _ _ _ _ _ Hin) as (i & Hi & Ea).
        cbn [access_addr]. rewrite in_region_wrap.
        rewrite <- (in_region_wrap _ _ a), Ea, in_region_wrap.
        rewrite region_hit
          by (cbn [callee_saved List.length] in Hi;
              change (2 ^ 32) with 4294967296; lia).
        rewrite !orb_true_r. reflexivity.
      * cbn [access_addr].
        replace (wrap (running symaddr (mem s))) with (running symaddr (mem s))
          by (symmetry; apply wrap_read).
        rewrite Z.eqb_refl, orb_true_l, orb_true_r. reflexivity.
    + cbn [In] in He. destruct He as [<-|[<-|[<-|He]]]; try discriminate.
      * cbn [access_addr]. rewrite wrap_wrap, Z.eqb_refl. reflexivity.
      * rewrite (in_reads _ _ He) in Hw. discriminate.
  - intros x Hx. rewrite (read_ext _ _ _ Hmem). apply switch_frame, Hx.
Qed.

Lemma op_effect (op : kernel_op) (s : machine) :
  op_aligned symaddr op s = true ->
  exists s' new,
    run_op symaddr op s = Some (tt, s') /\
    log s' = log s ++ new /\
    (forall e, In e new -> is_write e = true ->
       op_writes symaddr op s (access_addr e) = true) /\
    (forall x, op_writes symaddr op s x = false ->
       read_word (mem s') x = read_word (mem s) x).
Proof.
  destruct op as [tcb stack_array stack_size task| |]; cbn [op_aligned]; intros Hal.
  - apply andb_true_iff in Hal. destruct Hal as [Ht Ha].
    apply ThreadInit_effect; assumption.
  - rewrite !andb_true_iff in Hal. destruct Hal as [[Hc Hn] Hcur].
    eexists. eexists. split; [apply SysTick_run; assumption|].
    cbn [log mem op_writes]. split; [reflexivity|]. split.
    + intros e He Hw. cbn [In] in He.
      destruct He as [<-|[<-|[<-|[]]]]; try discriminate.
      cbn [access_addr]. rewrite wrap_wrap. apply Z.eqb_refl.
    + intros x Hx. apply Z.eqb_neq in Hx. apply read_write_other, Hx.
  - destruct (Switch_effect s Hal) as (s' & new & H1 & H2 & _ & H3 & H4).
    exists s', new. auto.
Qed.

End KernelOps.

Section RingInvariant.

Variable symaddr : symbol -> Z.
Variable ring : list Z.

Lemma op_writes_wrap (op : kernel_op) (s : machine) (x : Z) :
  op_writes symaddr op s (wrap x) = op_writes symaddr op s x.
Proof.
  destruct op; cbn [op_writes]; unfold switch_writes;
    rewrite ?wrap_wrap, ?in_region_wrap; reflexivity.
Qed.

Lemma spared_step (op : kernel_op) (s : machine) :
  op_aligned symaddr op s = true ->
  spares_next symaddr ring op s = true ->
  exists s' new,
    run_op symaddr op s = Some (tt, s') /\
    log s' = log s ++ new /\
    writes_next ring new = false /\
    (forall t, In t ring ->
       read_word (mem s') (TCB_next t) = read_word (mem s) (TCB_next t)).
Proof.
  intros Hal Hsp. unfold spares_next in Hsp. rewrite forallb_forall in Hsp.
  destruct (op_effect symaddr op s Hal) as (s' & new & Hrun & Hlog & Hw & Hm).
  exists s', new. split; [exact Hrun|]. split; [exact Hlog|]. split.
  - unfold writes_next. apply not_true_is_false. intros H.
    apply existsb_exists in H. destruct H as (e & He & H).
    apply andb_true_iff in H. destruct H as [Hwe H].
    apply existsb_exists in H. destruct H as (t & Ht & H).
    apply Z.eqb_eq in H. specialize (Hw e He Hwe).
    rewrite H, op_writes_wrap in Hw.
    specialize (Hsp t Ht). rewrite Hw in Hsp. discriminate.
  - intros t Ht. apply Hm. apply negb_true_iff, Hsp, Ht.
Qed.

(** C8: a ring that is closed (following [next] from any of its TCBs
    comes back to that TCB, and there is at least one) stays closed under
    every run of kernel operations.  The frame builder, the tick handler
    and the trampoline store only to stack words, to stack_pointer
    fields and to the two globals; with no [next] field laid over one of
    those, no operation stores to a [next] field, and every [next] field
    keeps its value. *)
Theorem ring_closure_preserved (ops : list kernel_op) (s : machine) :
  ops_ok symaddr ring ops s = true ->
  exists s' new,
    run_ops symaddr ops s = Some (tt, s') /\
    log s' = log s ++ new /\
    writes_next ring new = false /\
    (forall t, In t ring ->
       read_word (mem s') (TCB_next t) = read_word (mem s) (TCB_next t)) /\
    ring_closed ring (mem s') = ring_closed ring (mem s) /\
    (ring_closed ring (mem s) = true ->
     forall t, In t ring -> hop (mem s') (List.length ring) t = t).
Proof.
  revert s. induction ops as [|op rest IH]; intros s Hok.
  - exists s, []. split; [reflexivity|]. split; [symmetry; apply app_nil_r|].
    split; [reflexivity|]. split; [reflexivity|]. split; [reflexivity|].
    intros Hc t Ht. apply ring_closed_returns; assumption.
  - cbn [ops_ok] in Hok. rewrite !andb_true_iff in Hok.
    destruct Hok as [[Hal Hsp] Hrest].
    destruct (spared_step op s Hal Hsp) as (s1 & new1 & Hrun1 & Hlog1 & Hw1 & Hm1).
    rewrite Hrun1 in Hrest.
    destruct (IH s1 Hrest) as (s' & new2 & Hrun2 & Hlog2 & Hw2 & Hm2 & _ & _).
    assert (Hm : forall t, In t ring ->
              read_word (mem s') (TCB_next t) = read_word (mem s) (TCB_next t))
      by (intros t Ht; rewrite Hm2, Hm1 by exact Ht; reflexivity).
    assert (Hc : ring_closed ring (mem s') = ring_closed ring (mem s))
      by (apply ring_closed_ext, Hm).
    exists s', (new1 ++ new2).
    split; [cbn [run_ops]; rewrite (bind_some _ _ _ _ _ Hrun1); exact Hrun2|].
    split; [rewrite Hlog2, Hlog1, app_assoc; reflexivity|].
    split; [unfold writes_next in *; rewrite existsb_app, Hw1, Hw2; reflexivity|].
    split; [exact Hm|]. split; [exact Hc|].
    intros Hcl t Ht. apply ring_closed_returns; [|exact Ht].
    rewrite Hc. exact Hcl.
Qed.

End RingInvariant.

(** * current_tcb over an execution *)

Section NonNull.

Variable symaddr : symbol -> Z.
Variable ring : list Z.

Hypothesis globals_apart : wrap (symaddr current_tcb) <> wrap (symaddr next_tcb).
Hypothesis ring_non_null : forallb (fun t => negb (t =? 0)) ring = true.



End NonNull.

(** * The theorems on the concrete system *)

Ltac computed := vm_compute; first [reflexivity | discriminate | lia].

Lemma OS_ThreadInit_frame_witness :
  exists s',
    OS_ThreadInit demo_t1 demo_stack1 32 demo_task1 demo_reset = Some (tt, s') /\
    read_word (mem s') (TCB_stack_pointer demo_t1) = 0x20000140 /\
    read_words (mem s') 0x20000140 16 = initial_frame demo_task1.
Proof.
  destruct (OS_ThreadInit_frame demo_t1 demo_stack1 32 demo_task1 demo_reset)
    as (s' & H1 & _ & H2 & H3 & _); [computed | computed | computed |].
  exists s'. split; [exact H1|]. split; [exact H2|].
  rewrite H2 in H3. exact H3.
Defined.

Lemma OS_ThreadInit_footprint_witness :
  exists s' new,
    OS_ThreadInit demo_t1 demo_stack1 32 demo_task1 demo_reset = Some (tt, s') /\
    log s' = log demo_reset ++ new /\
    forallb is_write new = true /\
    read_word (mem s') (TCB_stack_pointer demo_t1) = 0x20000140.
Proof.
  destruct (OS_ThreadInit_footprint demo_t1 demo_stack1 32 demo_task1 demo_reset)
    as (s' & new & H1 & H2 & _ & H3 & _ & H4 & _);
    [computed | computed | computed | computed | computed |].
  exists s', new. auto.
Defined.

Lemma PendSV_Handler_switch_witness :
  exists s',
    run_handler demo_symaddr PendSV_Handler demo_ticked = Some (0xFFFFFFFD, s') /\
    gpr s' LR = 0xFFFFFFFD.
Proof.
  destruct (PendSV_Handler_switch demo_symaddr demo_ticked)
    as (s' & H1 & _ & _ & _ & _ & H3 & _); [computed | computed |].
  exists s'. split; [exact H1 | exact H3].
Defined.

Lemma PendSV_Handler_first_switch_witness :
  exists s1 s2,
    run_handler demo_symaddr PendSV_Handler demo_boot
      = Some (EXC_RETURN_THREAD_PSP, s1) /\
    exception_return EXC_RETURN_THREAD_PSP s1 = Some (tt, s2) /\
    pc s2 = wrap demo_task1 /\
    map (gpr s2) callee_saved = [0; 0; 0; 0; 0; 0; 0; 0].
Proof.
  destruct (PendSV_Handler_first_switch demo_symaddr
              demo_t1 demo_stack1 32 demo_task1
              demo_linked demo_one_framed demo_boot)
    as (s1 & s2 & new & H1 & H2 & _ & _ & _ & _ & _ & H3 & H4 & _);
    [ computed | computed | computed | computed | computed | computed
    | computed | computed | computed | computed | computed | computed | ].
  exists s1, s2. auto.
Defined.

Lemma SysTick_Handler_effect_witness :
  exists s',
    SysTick_Handler demo_symaddr demo_running = Some (tt, s') /\
    Z.testbit (icsr s') 28 = true /\
    running demo_symaddr (mem s') = running demo_symaddr (mem demo_running).
Proof.
  destruct (SysTick_Handler_effect demo_symaddr demo_running)
    as (s' & H1 & _ & H3 & _ & H4 & _);
    [ computed | computed | computed | computed | computed | ].
  exists s'. auto.
Defined.

Lemma round_robin_closure_witness :
  running demo_symaddr (mem demo_running) = demo_t1 /\
  exists s',
    cycles demo_symaddr (List.length demo_ring) demo_running = Some (tt, s') /\
    running demo_symaddr (mem s') = demo_t1.
Proof.
  apply (round_robin_closure demo_symaddr demo_ring 0 demo_t1 demo_running);
    computed.
Defined.

Lemma save_restore_roundtrip_witness :
  exists u',
    run_handler demo_symaddr PendSV_Handler demo_later
      = Some (EXC_RETURN_THREAD_PSP, u') /\
    running demo_symaddr (mem u') = demo_t1 /\
    map (gpr u') callee_saved = map (gpr demo_ticked) callee_saved /\
    psp u' = psp demo_ticked.
Proof.
  apply (save_restore_roundtrip demo_symaddr demo_t1
           demo_ticked demo_switched demo_later);
    computed.
Defined.

Lemma single_thread_ring_switch_witness :
  exists s',
    cycles demo_symaddr 5 solo_running = Some (tt, s') /\
    running demo_symaddr (mem s') = demo_t1 /\
    map (gpr s') callee_saved = map (gpr solo_running) callee_saved /\
    psp s' = psp solo_running.
Proof.
  destruct (single_thread_ring_switch demo_symaddr demo_t1 5 solo_running)
    as (s' & H1 & H2 & _ & H3 & H4 & _);
    [computed | computed | computed | computed |].
  exists s'. auto.
Defined.

(** In the one-thread ring with T1 running, the first cycle does change
    the eight words T1's stack_pointer field points at: the field keeps
    its value, the words held the zeros of the initial frame and hold
    the registers' contents afterwards. *)
Lemma single_thread_ring_frame_overwritten :
  layout_ok demo_symaddr [demo_t1] = true /\
  sched_ok demo_symaddr [demo_t1] 0 solo_running = true /\
  read_word (mem solo_running) (TCB_next demo_t1) = demo_t1 /\
  running demo_symaddr (mem solo_running) = demo_t1 /\
  tick_and_switch demo_symaddr solo_running = Some (tt, solo_switched) /\
  map (gpr solo_switched) callee_saved = map (gpr solo_running) callee_saved /\
  psp solo_switched = psp solo_running /\
  read_word (mem solo_switched) (TCB_stack_pointer demo_t1) =
    read_word (mem solo_running) (TCB_stack_pointer demo_t1) /\
  read_words (mem solo_running)
    (read_word (mem solo_running) (TCB_stack_pointer demo_t1)) 8 =
    [0; 0; 0; 0; 0; 0; 0; 0] /\
  read_words (mem solo_switched)
    (read_word (mem solo_switched) (TCB_stack_pointer demo_t1)) 8 =
    [ 0xA5A50004; 0xA5A50005; 0xA5A50006; 0xA5A50007;
      0xA5A50008; 0xA5A50009; 0xA5A5000A; 0xA5A5000B ] /\
  read_words (mem solo_switched)
    (read_word (mem solo_switched) (TCB_stack_pointer demo_t1)) 8 <>
  read_words (mem solo_running)
    (read_word (mem solo_running) (TCB_stack_pointer demo_t1)) 8.
Proof. repeat (apply conj; [computed|]). computed. Qed.

Lemma ring_closure_preserved_witness :
  exists s',
    run_ops demo_symaddr (demo_init ++ [Switch; Tick; Switch; Tick; Switch])
            demo_linked = Some (tt, s') /\
    ring_closed demo_ring (mem s') = ring_closed demo_ring (mem demo_linked).
Proof.
  destruct (ring_closure_preserved demo_symaddr demo_ring
              (demo_init ++ [Switch; Tick; Switch; Tick; Switch]) demo_linked)
    as (s' & new & H1 & _ & _ & _ & H2 & _); [computed|].
  exists s'. auto.
Defined.


(** * More about the frame builder *)

Lemma wrap_neg (d : Z) : 0 < d <= 2 ^ 32 -> wrap (- d) = 2 ^ 32 - d.
Proof.
  intros H. unfold wrap. symmetry.
  apply Z.mod_unique with (q := -1); lia.
Qed.

(** A word below the start of a buffer is not in the buffer. *)
Lemma in_region_below (base n k : Z) :
  0 <= n -> n < k -> 4 * k <= 2 ^ 32 - 4 * n ->
  in_region base n (base + 4 * (n - k)) = false.
Proof.
  intros Hn Hk Hfit. unfold in_region. rewrite Z.ltb_ge.
  replace (base + 4 * (n - k) - base) with (- (4 * (k - n))) by lia.
  rewrite wrap_neg by lia. lia.
Qed.

(** The addresses the frame builder stores to. *)
Lemma frame_builder_stores (tcb top task a v : Z) :
  In (a, v) (frame_stores top task ++ [(TCB_stack_pointer tcb, wrap (top - 64))]) ->
  a = TCB_stack_pointer tcb \/ exists k, 1 <= k <= 16 /\ a = wrap (top - 4 * k).
Proof.
  intros Hin. apply in_app_or in Hin. destruct Hin as [Hin|Hin].
  - right. apply (frame_stores_addr _ _ _ _ Hin).
  - left. destruct Hin as [Hin|[]]. injection Hin as <- _. reflexivity.
Qed.

Lemma frame_builder_pushes (tcb top task k : Z) :
  1 <= k <= 16 ->
  In (wrap (top - 4 * k))
     (map access_addr
        (filter is_write
           (writes_log
              (frame_stores top task ++ [(TCB_stack_pointer tcb, wrap (top - 64))])))).
Proof.
  intros Hk.
  assert (E : k = 1 \/ k = 2 \/ k = 3 \/ k = 4 \/ k = 5 \/ k = 6 \/ k = 7 \/ k = 8 \/
              k = 9 \/ k = 10 \/ k = 11 \/ k = 12 \/ k = 13 \/ k = 14 \/ k = 15 \/
              k = 16) by lia.
  unfold frame_stores, writes_log.
  cbn [app map fst snd filter is_write access_addr]. rewrite !wrap_wrap.
  repeat (destruct E as [->|E]; [cbn [In Z.mul]; tauto|]).
  subst k. cbn [In Z.mul]. tauto.
Qed.

(** X1: the frame builder does not check the capacity.  With a buffer of
    fewer than sixteen words it still performs its sixteen pushes: push
    number k, for every k above the capacity, is a store to a word below
    the start of the buffer, and the pointer left in the TCB's
    stack_pointer field points below the buffer as well. *)
Theorem OS_ThreadInit_small_buffer
  (tcb stack_array stack_size task : Z) (s : machine) :
  aligned tcb = true ->
  aligned stack_array = true ->
  0 <= stack_size < 16 ->
  in_region (stack_array + 4 * stack_size - 64) 16 (TCB_stack_pointer tcb) = false ->
  exists s' new,
    OS_ThreadInit tcb stack_array stack_size task s = Some (tt, s') /\
    log s' = log s ++ new /\
    (forall k, stack_size < k <= 16 ->
       In (wrap (stack_array + 4 * (stack_size - k)))
          (map access_addr (filter is_write new)) /\
       in_region stack_array stack_size (stack_array + 4 * (stack_size - k)) = false) /\
    read_word (mem s') (TCB_stack_pointer tcb) =
      wrap (stack_array + 4 * (stack_size - 16)) /\
    in_region stack_array stack_size (read_word (mem s') (TCB_stack_pointer tcb)) = false.
Proof.
  intros Ht Ha Hsz Hout.
  pose (top := stack_array + 4 * stack_size).
  destruct (frame_image (mem s) top task tcb Hout) as [Hsp _].
  eexists. eexists.
  split; [apply OS_ThreadInit_run; assumption|]. proj_state. fold top.
  split; [reflexivity|].
  assert (Hk : forall k, top - 4 * k = stack_array + 4 * (stack_size - k))
    by (intros; unfold top; lia).
  split.
  { intros k Hk1. split.
    - rewrite <- Hk. apply frame_builder_pushes. lia.
    - apply in_region_below; change (2 ^ 32) with 4294967296; lia. }
  unfold TCB_stack_pointer in *. rewrite Hsp.
  replace (top - 64) with (stack_array + 4 * (stack_size - 16)) by (unfold top; lia).
  split; [reflexivity|].
  rewrite in_region_wrap.
  apply in_region_below; change (2 ^ 32) with 4294967296; lia.
Qed.

(** Where a list of stores has an entry for a word, what the word held
    before does not matter. *)
Lemma write_list_indep (ws : list (Z * Z)) (m m' : Z -> Z) (x : Z) :
  m x = m' x \/ In x (map (fun av => wrap (fst av)) ws) ->
  write_list m ws x = write_list m' ws x.
Proof.
  unfold write_list. revert m m'.
  induction ws as [|[a v] ws IH]; intros m m' H; cbn [fold_left fst snd].
  - destruct H as [H|[]]. exact H.
  - apply IH. unfold write_word.
    destruct (Z.eqb_spec x (wrap a)) as [E|E]; [left; reflexivity|].
    destruct H as [H|[H|H]]; [left; exact H | cbn [fst] in H; congruence | right; exact H].
Qed.

(** Two lists of stores to different words can be swapped. *)
Lemma write_list_swap (wa wb : list (Z * Z)) (m : Z -> Z) (x : Z) :
  (forall a v b w, In (a, v) wa -> In (b, w) wb -> wrap a <> wrap b) ->
  write_list (write_list m wa) wb x = write_list (write_list m wb) wa x.
Proof.
  intros Hd.
  destruct (in_dec Z.eq_dec x (map (fun av => wrap (fst av)) wa)) as [Ia|Ia];
    [|destruct (in_dec Z.eq_dec x (map (fun av => wrap (fst av)) wb)) as [Ib|Ib]].
  - rewrite (write_list_other wb).
    + apply write_list_indep. right. exact Ia.
    + intros b w Hb E. apply in_map_iff in Ia. destruct Ia as ([a v] & Ea & Ha).
      cbn [fst] in Ea. apply (Hd a v b w Ha Hb). congruence.
  - rewrite (write_list_other wa (write_list m wb)).
    + symmetry. apply write_list_indep. left.
      symmetry. apply write_list_other. intros a v Ha E. apply Ia.
      apply in_map_iff. exists (a, v). split; [symmetry; exact E | exact Ha].
    + intros a v Ha E. apply Ia.
      apply in_map_iff. exists (a, v). split; [symmetry; exact E | exact Ha].
  - assert (Na : forall a v, In (a, v) wa -> x <> wrap a).
    { intros a v Ha E. apply Ia. apply in_map_iff. exists (a, v).
      split; [symmetry; exact E | exact Ha]. }
    assert (Nb : forall b w, In (b, w) wb -> x <> wrap b).
    { intros b w Hb E. apply Ib. apply in_map_iff. exists (b, w).
      split; [symmetry; exact E | exact Hb]. }
    rewrite !write_list_other by first [exact Na | exact Nb]. reflexivity.
Qed.

(** A word of one region is outside a region apart from it. *)
Lemma regions_apart_miss (n a b x : Z) :
  0 <= n ->
  regions_apart n a b = true ->
  in_region b n x = true -> in_region a n x = false.
Proof.
  unfold regions_apart, in_region.
  rewrite andb_true_iff, !Z.leb_le, Z.ltb_lt, Z.ltb_ge. intros Hn [H1 H2] Hx.
  pose proof (wrap_range (x - b)) as R.
  replace (wrap (x - a)) with (wrap (x - b) + wrap (b - a)); [lia|].
  symmetry. unfold wrap at 1.
  replace (x - a) with ((x - b) + (b - a)) by lia.
  rewrite Zplus_mod. fold (wrap (x - b)) (wrap (b - a)).
  apply Z.mod_small. lia.
Qed.

Lemma regions_apart_sym (n a b : Z) :
  0 < n -> regions_apart n a b = true -> regions_apart n b a = true.
Proof.
  unfold regions_apart. rewrite !andb_true_iff, !Z.leb_le. intros Hn [H1 H2].
  assert (E : wrap (a - b) = 2 ^ 32 - wrap (b - a)).
  { replace (a - b) with (- (b - a)) by lia. unfold wrap.
    symmetry. apply Z.mod_unique with (q := - ((b - a) / 2 ^ 32) - 1).
    - pose proof (Z.mod_pos_bound (b - a) (2 ^ 32)). unfold wrap in H1. lia.
    - pose proof (Z.div_mod (b - a) (2 ^ 32)). lia. }
  lia.
Qed.

(** The stores of two runs of the frame builder go to different words
    when the frames are apart and neither TCB lies in a frame. *)
Lemma frame_builders_apart (tcbA topA taskA tcbB topB taskB a v b w : Z) :
  regions_apart 16 (topA - 64) (topB - 64) = true ->
  in_region (topB - 64) 16 (TCB_stack_pointer tcbA) = false ->
  in_region (topA - 64) 16 (TCB_stack_pointer tcbB) = false ->
  wrap (TCB_stack_pointer tcbA) <> wrap (TCB_stack_pointer tcbB) ->
  In (a, v) (frame_stores topA taskA ++ [(TCB_stack_pointer tcbA, wrap (topA - 64))]) ->
  In (b, w) (frame_stores topB taskB ++ [(TCB_stack_pointer tcbB, wrap (topB - 64))]) ->
  wrap a <> wrap b.
Proof.
  intros Hap HAB HBA Hne Ha Hb.
  destruct (frame_builder_stores _ _ _ _ _ Ha) as [->|(k & Hk & ->)];
    destruct (frame_builder_stores _ _ _ _ _ Hb) as [->|(j & Hj & ->)];
    rewrite ?wrap_wrap.
  - exact Hne.
  - apply not_eq_sym.
    replace (topB - 4 * j) with (topB - 64 + (64 - 4 * j)) by lia.
    apply (region_miss _ 16); [exact HAB | lia | lia].
  - replace (topA - 4 * k) with (topA - 64 + (64 - 4 * k)) by lia.
    apply (region_miss _ 16); [exact HBA | lia | lia].
  - replace (topA - 4 * k) with (topA - 64 + (64 - 4 * k)) by lia.
    apply (region_miss _ 16); [|lia|lia].
    apply (regions_apart_miss 16 _ (topB - 64)); [lia | exact Hap |].
    replace (topB - 4 * j) with (topB - 64 + 4 * (16 - j)) by lia.
    apply region_hit; change (2 ^ 32) with 4294967296; lia.
Qed.

(** X2: two threads can be initialised in either order.  When the two
    frames share no word and neither TCB lies in a frame, both orders
    leave the same RAM, and in it each TCB's stack_pointer field points
    at that thread's own untouched initial frame. *)
Theorem OS_ThreadInit_independent
  (tcbA stackA sizeA taskA tcbB stackB sizeB taskB : Z) (s : machine) :
  aligned tcbA = true -> aligned stackA = true ->
  aligned tcbB = true -> aligned stackB = true ->
  let topA := stackA + 4 * sizeA in
  let topB := stackB + 4 * sizeB in
  regions_apart 16 (topA - 64) (topB - 64) = true ->
  in_region (topA - 64) 16 (TCB_stack_pointer tcbA) = false ->
  in_region (topB - 64) 16 (TCB_stack_pointer tcbA) = false ->
  in_region (topA - 64) 16 (TCB_stack_pointer tcbB) = false ->
  in_region (topB - 64) 16 (TCB_stack_pointer tcbB) = false ->
  wrap (TCB_stack_pointer tcbA) <> wrap (TCB_stack_pointer tcbB) ->
  exists sab sba,
    (OS_ThreadInit tcbA stackA sizeA taskA ;;
     OS_ThreadInit tcbB stackB sizeB taskB) s = Some (tt, sab) /\
    (OS_ThreadInit tcbB stackB sizeB taskB ;;
     OS_ThreadInit tcbA stackA sizeA taskA) s = Some (tt, sba) /\
    (forall x, mem sab x = mem sba x) /\
    read_word (mem sab) (TCB_stack_pointer tcbA) = wrap (topA - 64) /\
    read_words (mem sab) (wrap (topA - 64)) 16 = initial_frame taskA /\
    read_word (mem sab) (TCB_stack_pointer tcbB) = wrap (topB - 64) /\
    read_words (mem sab) (wrap (topB - 64)) 16 = initial_frame taskB.
Proof.
  intros HtA HaA HtB HaB topA topB Hap HAA HBA HAB HBB Hne.
  pose (wa := frame_stores topA taskA ++ [(TCB_stack_pointer tcbA, wrap (topA - 64))]).
  pose (wb := frame_stores topB taskB ++ [(TCB_stack_pointer tcbB, wrap (topB - 64))]).
  assert (Hswap : forall x,
            write_list (write_list (mem s) wa) wb x
            = write_list (write_list (mem s) wb) wa x).
  { intros x. apply write_list_swap. intros a v b w Ha Hb.
    apply (frame_builders_apart tcbA topA taskA tcbB topB taskB a v b w);
      assumption. }
  eexists. eexists.
  split.
  { erewrite bind_some by (apply OS_ThreadInit_run; assumption).
    apply OS_ThreadInit_run; assumption. }
  split.
  { erewrite bind_some by (apply OS_ThreadInit_run; assumption).
    apply OS_ThreadInit_run; assumption. }
  proj_state. fold topA topB wa wb.
  split; [exact Hswap|].
  destruct (frame_image (write_list (mem s) wb) topA taskA tcbA HAA) as [HspA HfrA].
  destruct (frame_image (write_list (mem s) wa) topB taskB tcbB HBB) as [HspB HfrB].
  unfold TCB_stack_pointer in *. fold wa in HspA, HfrA. fold wb in HspB, HfrB.
  rewrite (read_ext _ _ tcbA Hswap), (read_words_ext _ _ _ _ Hswap).
  auto.
Qed.

(** * More about the tick handler

    Neither handler tests the pointer it dereferences.  In the machine
    model a null pointer is address 0, an ordinary address of the 32-bit
    address space (on a Cortex-M the vector table sits there), so a load
    through it returns whatever word the memory holds. *)

Lemma pend_again (i : Z) :
  let v := wrap (Z.lor (wrap i) (Z.shiftl 1 28)) in
  wrap (Z.lor (wrap v) (Z.shiftl 1 28)) = v.
Proof.
  intros v.
  assert (Hv : wrap v = v) by apply wrap_wrap.
  assert (H28 : Z.testbit v 28 = true).
  { unfold v. rewrite testbit_wrap, Z.lor_spec by lia.
    change (Z.testbit (Z.shiftl 1 28) 28) with true. apply orb_true_r. }
  rewrite Hv.
  replace (Z.lor v (Z.shiftl 1 28)) with v; [exact Hv|].
  apply Z.bits_inj'. intros n Hn. rewrite Z.lor_spec.
  change (Z.shiftl 1 28) with (2 ^ 28). rewrite Z.pow2_bits_eqb by lia.
  destruct (Z.eqb_spec 28 n) as [<-|_];
    [rewrite H28; reflexivity | rewrite orb_false_r; reflexivity].
Qed.

Section TickEdges.

Variable symaddr : symbol -> Z.


(** X4: ticks do not add up.  A second run of the tick handler before
    the trampoline has run stores the same successor of the running
    thread in next_tcb again and finds the pending bit already set: it
    leaves RAM, ICSR and the registers as the first run left them, so no
    thread is skipped. *)
Theorem SysTick_Handler_twice (s : machine) :
  aligned (symaddr current_tcb) = true ->
  aligned (symaddr next_tcb) = true ->
  wrap (symaddr current_tcb) <> wrap (symaddr next_tcb) ->
  aligned (running symaddr (mem s)) = true ->
  wrap (TCB_next (running symaddr (mem s))) <> wrap (symaddr next_tcb) ->
  exists s1 s2,
    SysTick_Handler symaddr s = Some (tt, s1) /\
    SysTick_Handler symaddr s1 = Some (tt, s2) /\
    chosen symaddr (mem s2) = read_word (mem s) (TCB_next (running symaddr (mem s))) /\
    (forall x, mem s2 x = mem s1 x) /\
    icsr s2 = icsr s1 /\
    gpr s2 = gpr s1 /\ psp s2 = psp s1 /\ pc s2 = pc s1 /\ xpsr s2 = xpsr s1.
Proof.
  intros Hc Hn Hcn Hcur Hnn.
  pose proof (SysTick_run symaddr s Hc Hn Hcur) as Htick.
  set (t := running symaddr (mem s)) in *.
  set (v := read_word (mem s) (TCB_next t)) in *.
  match type of Htick with _ = Some (tt, ?st) => set (s1 := st) in * end.
  assert (R1 : running symaddr (mem s1) = t)
    by (unfold running, s1; cbn [mem]; rewrite read_write_other by exact Hcn;
        reflexivity).
  assert (V1 : read_word (mem s1) (TCB_next t) = v)
    by (unfold s1; cbn [mem]; rewrite read_write_other by exact Hnn; reflexivity).
  pose proof (SysTick_run symaddr s1 Hc Hn) as Htick2.
  rewrite R1, V1 in Htick2. specialize (Htick2 Hcur).
  exists s1. eexists. split; [exact Htick|]. split; [exact Htick2|].
  cbn [mem gpr psp pc xpsr icsr].
  split; [unfold chosen; rewrite read_write_same; apply wrap_read|].
  split.
  { intros x. unfold s1. cbn [mem]. unfold write_word.
    destruct (x =? wrap (symaddr next_tcb)); reflexivity. }
  split; [unfold s1; cbn [icsr]; apply pend_again|].
  auto.
Qed.

End TickEdges.

(** * More about the trampoline *)

Section TrampolineEdges.

Variable symaddr : symbol -> Z.

Lemma filter_reads_reads (l : list Z) :
  filter (fun e => negb (is_write e)) (map Rd l) = map Rd l.
Proof. induction l as [|a l IH]; [reflexivity|]. cbn. rewrite IH. reflexivity. Qed.

(** X5: what one run of the trampoline touches, on both of its paths.
    It stores to current_tcb and, when a thread is running, before that
    to the eight words below the process stack pointer and to the
    running TCB's stack_pointer field; it loads current_tcb, next_tcb,
    the stack_pointer field of the TCB it switches to and the eight words
    that field points at.  Every other word of RAM keeps its value, and
    so do ICSR, R12 and the thread's PC and xPSR. *)
Theorem PendSV_Handler_footprint (s : machine) :
  switch_aligned symaddr s = true ->
  exists s' new,
    run_handler symaddr PendSV_Handler s = Some (EXC_RETURN_THREAD_PSP, s') /\
    log s' = log s ++ new /\
    map access_addr (filter is_write new) =
      (if running symaddr (mem s) =? 0 then []
       else [ wrap (psp s - 32); wrap (psp s - 28); wrap (psp s - 24);
              wrap (psp s - 20); wrap (psp s - 16); wrap (psp s - 12);
              wrap (psp s - 8); wrap (psp s - 4);
              running symaddr (mem s) ])
      ++ [wrap (symaddr current_tcb)] /\
    map access_addr (filter (fun e => negb (is_write e)) new) =
      [ wrap (symaddr current_tcb); wrap (symaddr next_tcb);
        running symaddr (mem s') ]
      ++ word_addrs
           (read_word (mem s') (TCB_stack_pointer (running symaddr (mem s')))) 8 /\
    (forall x,
       wrap x <> wrap (symaddr current_tcb) ->
       running symaddr (mem s) = 0 \/
       (wrap x <> running symaddr (mem s) /\ in_region (psp s - 32) 8 x = false) ->
       read_word (mem s') x = read_word (mem s) x) /\
    icsr s' = icsr s /\ pc s' = pc s /\ xpsr s' = xpsr s /\
    gpr s' R12 = gpr s R12.
Proof.
  intros Hal.
  destruct (PendSV_run symaddr s Hal)
    as (s' & Hrun & Hmem & Hlog & _ & _ & _ & H12 & Hpc & Hx & Hi).
  assert (Hcur : running symaddr (mem s') = incoming symaddr s).
  { unfold running. rewrite (read_ext _ _ _ Hmem).
    apply (running_after_commit symaddr). }
  exists s', (switch_log symaddr s).
  split; [exact Hrun|]. split; [exact Hlog|].
  split.
  { unfold switch_log.
    destruct (running symaddr (mem s) =? 0).
    - cbn [app filter is_write map access_addr].
      rewrite filter_writes_reads. reflexivity.
    - rewrite save_stores_eq. unfold writes_log, save_area.
      cbn [app filter is_write map access_addr fst snd].
      rewrite filter_writes_reads, !wrap_wrap. reflexivity. }
  split.
  { rewrite Hcur, (read_ext _ _ _ Hmem). fold (incoming_sp symaddr s).
    unfold switch_log.
    destruct (running symaddr (mem s) =? 0).
    - cbn [app filter is_write negb map access_addr].
      rewrite filter_reads_reads, map_map. cbn [access_addr].
      rewrite map_id. reflexivity.
    - rewrite save_stores_eq. unfold writes_log.
      cbn [app filter is_write negb map access_addr fst snd].
      rewrite filter_reads_reads, map_map. cbn [access_addr].
      rewrite map_id. reflexivity. }
  split.
  { intros x Hxc Hxs. rewrite (read_ext _ _ _ Hmem).
    apply switch_frame. unfold switch_writes.
    rewrite (proj2 (Z.eqb_neq _ _) Hxc). cbn [orb].
    destruct (Z.eqb_spec (running symaddr (mem s)) 0) as [E|E]; [reflexivity|].
    destruct Hxs as [Hz|[Hr Hs]]; [contradiction|].
    unfold save_area. rewrite in_region_wrap_base, Hs.
    rewrite (proj2 (Z.eqb_neq _ _) Hr). reflexivity. }
  auto.
Qed.

(** X6: a switch that is not preceded by a tick changes nothing for the
    thread.  Entered with next_tcb equal to the non-null current_tcb, the
    trampoline saves R4..R11 below the process stack pointer and reloads
    them from there: the same thread goes on with the same R4..R11 and
    the same process stack pointer. *)
Theorem PendSV_Handler_same_thread (s : machine) :
  switch_aligned symaddr s = true ->
  running symaddr (mem s) <> 0 ->
  chosen symaddr (mem s) = running symaddr (mem s) ->
  wrap (symaddr next_tcb) <> wrap (symaddr current_tcb) ->
  wrap (symaddr next_tcb) <> running symaddr (mem s) ->
  wrap (symaddr current_tcb) <> running symaddr (mem s) ->
  in_region (psp s - 32) 8 (symaddr next_tcb) = false ->
  in_region (psp s - 32) 8 (symaddr current_tcb) = false ->
  in_region (psp s - 32) 8 (TCB_stack_pointer (running symaddr (mem s))) = false ->
  saved_regs_words s = true ->
  is_word (psp s) = true ->
  exists s',
    run_handler symaddr PendSV_Handler s = Some (EXC_RETURN_THREAD_PSP, s') /\
    running symaddr (mem s') = running symaddr (mem s) /\
    map (gpr s') callee_saved = map (gpr s) callee_saved /\
    psp s' = psp s /\
    read_word (mem s') (TCB_stack_pointer (running symaddr (mem s))) = wrap (psp s - 32) /\
    read_words (mem s') (wrap (psp s - 32)) 8 = map (gpr s) callee_saved.
Proof.
  unfold TCB_stack_pointer.
  intros Hal Hnz Hch Hnc Hnr Hcr Kn Kc Kt HW HP.
  rewrite <- (in_region_wrap_base (psp s - 32)) in Kn, Kc, Kt.
  fold (save_area s) in Kn, Kc, Kt |- *.
  set (T := running symaddr (mem s)) in *.
  assert (WT : wrap T = T) by apply wrap_read.
  destruct (PendSV_run symaddr s Hal) as (s' & Hrun & Hmem & _ & Hregs & Hpsp & _).
  assert (Wn : switch_writes symaddr s (symaddr next_tcb) = false).
  { unfold switch_writes. fold T.
    rewrite (proj2 (Z.eqb_neq _ _) Hnc), (proj2 (Z.eqb_neq _ _) Hnz),
      (proj2 (Z.eqb_neq _ _) Hnr), Kn. reflexivity. }
  assert (Hinc : incoming symaddr s = T)
    by (rewrite incoming_chosen by exact Wn; exact Hch).
  assert (Hsp : read_word (after_commit symaddr s) T = save_area s).
  { rewrite after_commit_read by assumption. fold T. rewrite WT.
    rewrite (proj2 (Z.eqb_neq _ _) (not_eq_sym Hcr)), Z.eqb_refl. reflexivity. }
  assert (Hisp : incoming_sp symaddr s = save_area s)
    by (unfold incoming_sp, TCB_stack_pointer; rewrite Hinc; exact Hsp).
  assert (Himg : read_words (after_commit symaddr s) (save_area s) 8
                 = map (gpr s) callee_saved).
  { rewrite <- (saved_regs_wrap s HW). apply saved_image; assumption. }
  exists s'. split; [exact Hrun|].
  split.
  { unfold running at 1. rewrite (read_ext _ _ _ Hmem).
    fold (running symaddr (after_commit symaddr s)).
    rewrite running_after_commit. exact Hinc. }
  split; [rewrite Hregs, Hisp; exact Himg|].
  split.
  { rewrite Hpsp, Hisp. unfold save_area. rewrite wrap_add_l.
    replace (psp s - 32 + 32) with (psp s) by lia. apply is_word_wrap, HP. }
  split; [rewrite (read_ext _ _ _ Hmem); exact Hsp|].
  rewrite (read_words_ext _ _ _ _ Hmem). exact Himg.
Qed.

(** X7: the trampoline does not test next_tcb.  Entered with next_tcb
    null (never seeded, or copied by the tick from a [next] field that
    was null), it makes current_tcb null and takes the word at address 0
    for a saved stack pointer: it loads R4..R11 from the eight words that
    word points at and sets the process stack pointer past them.  With
    current_tcb null again, the next run skips the save phase. *)
Theorem PendSV_Handler_null_next (s : machine) :
  switch_aligned symaddr s = true ->
  chosen symaddr (mem s) = 0 ->
  switch_writes symaddr s (symaddr next_tcb) = false ->
  switch_writes symaddr s 0 = false ->
  exists s',
    run_handler symaddr PendSV_Handler s = Some (EXC_RETURN_THREAD_PSP, s') /\
    running symaddr (mem s') = 0 /\
    map (gpr s') callee_saved = read_words (mem s') (read_word (mem s) 0) 8 /\
    psp s' = wrap (read_word (mem s) 0 + 32).
Proof.
  intros Hal Hnext Wn W0.
  destruct (PendSV_run symaddr s Hal) as (s' & Hrun & Hmem & _ & Hregs & Hpsp & _).
  assert (Hinc : incoming symaddr s = 0)
    by (rewrite incoming_chosen by exact Wn; exact Hnext).
  assert (Hisp : incoming_sp symaddr s = read_word (mem s) 0).
  { unfold incoming_sp, TCB_stack_pointer. rewrite Hinc. apply switch_frame, W0. }
  exists s'. split; [exact Hrun|]. split.
  { unfold running. rewrite (read_ext _ _ _ Hmem).
    fold (running symaddr (after_commit symaddr s)).
    rewrite running_after_commit. exact Hinc. }
  rewrite Hisp in Hregs, Hpsp.
  split; [rewrite (read_words_ext _ _ _ _ Hmem); exact Hregs | exact Hpsp].
Qed.

End TrampolineEdges.

(** * The saved image of a thread *)

Lemma read_words_wrap (m : Z -> Z) (a : Z) (n : nat) :
  read_words m (wrap a) n = read_words m a n.
Proof.
  destruct n as [|n]; [reflexivity|].
  cbn [read_words]. rewrite read_wrap, wrap_add_l. reflexivity.
Qed.

Lemma read_words_nth (m : Z -> Z) (n k : nat) (a : Z) :
  (k < n)%nat ->
  nth k (read_words m a n) 0 = read_word m (a + 4 * Z.of_nat k).
Proof.
  revert k a. induction n as [|n IH]; intros k a Hk; [lia|].
  destruct k as [|k]; cbn [read_words nth].
  - rewrite Z.add_0_r. reflexivity.
  - rewrite IH by lia. rewrite read_wrap_add. f_equal. lia.
Qed.

(** A region contains its sub-regions. *)
Lemma in_region_sub (a n k l x : Z) :
  0 <= k -> 0 <= l -> k + l <= n -> 4 * n <= 2 ^ 32 ->
  in_region a n x = false -> in_region (a + 4 * k) l x = false.
Proof.
  unfold in_region. rewrite !Z.ltb_ge. intros Hk Hl Hkl Hn H.
  pose proof (wrap_range (x - a)) as R.
  replace (wrap (x - (a + 4 * k))) with (wrap (x - a) - 4 * k); [lia|].
  symmetry. replace (x - (a + 4 * k)) with (x - a - 4 * k) by lia.
  rewrite <- (wrap_sub_l (x - a) (4 * k)).
  apply wrap_small. unfold word32. lia.
Qed.

Lemma in_region_grow (a x : Z) (n : nat) :
  4 * Z.of_nat (S n) <= 2 ^ 32 ->
  in_region (wrap (a + 4)) (Z.of_nat n) x = true ->
  in_region a (Z.of_nat (S n)) x = true.
Proof.
  intros Hn H.
  destruct (in_region a (Z.of_nat (S n)) x) eqn:E; [reflexivity|].
  destruct (in_region_step a x n Hn E) as [_ H']. congruence.
Qed.

(** Two memories that agree on a region give the same words there. *)
Lemma read_words_agree (m m' : Z -> Z) (n : nat) (a : Z) :
  4 * Z.of_nat n <= 2 ^ 32 ->
  (forall x, in_region a (Z.of_nat n) x = true -> read_word m' x = read_word m x) ->
  read_words m' a n = read_words m a n.
Proof.
  revert a. induction n as [|n IH]; intros a Hn H; [reflexivity|].
  cbn [read_words]. f_equal.
  - apply H. replace a with (a + 4 * 0) at 2 by lia. apply region_hit; lia.
  - apply IH; [lia|]. intros x Hx. apply H. apply in_region_grow; assumption.
Qed.

Lemma save_area_below (s : machine) : regions_apart 8 (save_area s) (psp s) = true.
Proof.
  unfold regions_apart, save_area.
  replace (wrap (psp s - wrap (psp s - 32))) with 32; [reflexivity|].
  unfold wrap. rewrite Zminus_mod_idemp_r.
  replace (psp s - (psp s - 32)) with 32 by lia. reflexivity.
Qed.

(** The process stack pointer after an exception return: past the frame,
    and 4 bytes further when bit 9 of the stacked xPSR records that the
    processor had inserted a padding word on exception entry. *)
Lemma wrap_lor (a b : Z) : wrap (Z.lor a b) = Z.lor (wrap a) (wrap b).
Proof.
  unfold wrap. rewrite <- !Z.land_ones by lia. apply Z.land_lor_distr_l.
Qed.

Lemma aligned_lor_4 (a : Z) : aligned a = true -> aligned (Z.lor a 4) = true.
Proof.
  unfold aligned. rewrite !Z.eqb_eq. change 4 with (2 ^ 2) at 1 3.
  rewrite <- !Z.land_ones by lia. intros H.
  rewrite Z.land_lor_distr_l, H. reflexivity.
Qed.

Lemma realigned (a : Z) (b : bool) :
  aligned a = true ->
  wrap (4 * (wrap (Z.lor (wrap a) (if b then 4 else 0)) / 4))
  = Z.lor (wrap a) (if b then 4 else 0).
Proof.
  intros Ha.
  assert (Hw : wrap (Z.lor (wrap a) (if b then 4 else 0))
               = Z.lor (wrap a) (if b then 4 else 0)).
  { rewrite wrap_lor, wrap_wrap. destruct b; reflexivity. }
  assert (Hal : aligned (Z.lor (wrap a) (if b then 4 else 0)) = true).
  { destruct b.
    - apply aligned_lor_4. rewrite aligned_wrap. exact Ha.
    - rewrite Z.lor_0_r, aligned_wrap. exact Ha. }
  rewrite Hw, aligned_round by exact Hal. exact Hw.
Qed.

Lemma exception_return_psp (s s' : machine) :
  aligned (psp s) = true ->
  exception_return EXC_RETURN_THREAD_PSP s = Some (tt, s') ->
  psp s' = Z.lor (wrap (psp s + 32))
             (if Z.testbit (read_word (mem s) (psp s + 28)) 9 then 4 else 0).
Proof.
  intros Hp.
  assert (Hk : forall k, aligned (wrap (psp s) + 4 * k) = true).
  { intros k. apply aligned_add. rewrite aligned_wrap. exact Hp. }
  unfold exception_return. rewrite Z.eqb_refl.
  unfold get_psp at 1. unfold bind at 1.
  erewrite bind_some
    by (apply load32_run; rewrite aligned_wrap; exact Hp).
  proj_state.
  erewrite bind_some by (apply load32_run, (Hk 1)). proj_state.
  erewrite bind_some by (apply load32_run, (Hk 2)). proj_state.
  erewrite bind_some by (apply load32_run, (Hk 3)). proj_state.
  erewrite bind_some by (apply load32_run, (Hk 4)). proj_state.
  erewrite bind_some by (apply load32_run, (Hk 5)). proj_state.
  erewrite bind_some by (apply load32_run, (Hk 6)). proj_state.
  erewrite bind_some by (apply load32_run, (Hk 7)). proj_state.
  unfold put_reg, put_psp, bind. proj_state.
  intros H. injection H as <-. proj_state.
  rewrite read_wrap_add, wrap_add_l.
  apply realigned. apply (aligned_add _ 8 Hp).
Qed.

Section SavedImage.

Variable symaddr : symbol -> Z.

(** The sixteen words a switch leaves at the saved stack pointer. *)
Lemma after_commit_image (s : machine) :
  running symaddr (mem s) <> 0 ->
  wrap (symaddr current_tcb) <> running symaddr (mem s) ->
  in_region (psp s - 32) 16 (TCB_stack_pointer (running symaddr (mem s))) = false ->
  in_region (psp s - 32) 16 (symaddr current_tcb) = false ->
  read_word (after_commit symaddr s) (TCB_stack_pointer (running symaddr (mem s)))
    = save_area s /\
  read_words (after_commit symaddr s) (save_area s) 16 =
    map (fun r => wrap (gpr s r)) callee_saved ++ read_words (mem s) (psp s) 8.
Proof.
  unfold TCB_stack_pointer. intros Hnz Hcr Kt Kc.
  set (T := running symaddr (mem s)) in *.
  assert (WT : wrap T = T) by apply wrap_read.
  assert (Hsub : forall x, in_region (psp s - 32) 16 x = false ->
            in_region (save_area s) 8 x = false /\ in_region (psp s) 8 x = false).
  { intros x Hx. split.
    - unfold save_area. rewrite in_region_wrap_base.
      replace (psp s - 32) with (psp s - 32 + 4 * 0) by lia.
      apply (in_region_sub _ 16); [lia|lia|lia|change (2 ^ 32) with 4294967296; lia|].
      exact Hx.
    - replace (psp s) with (psp s - 32 + 4 * 8) by lia.
      apply (in_region_sub _ 16); [lia|lia|lia|change (2 ^ 32) with 4294967296; lia|].
      exact Hx. }
  destruct (Hsub _ Kt) as [Kt1 Kt2]. destruct (Hsub _ Kc) as [Kc1 Kc2].
  split.
  { rewrite after_commit_read by assumption. fold T. rewrite WT.
    rewrite (proj2 (Z.eqb_neq _ _) (not_eq_sym Hcr)), Z.eqb_refl. reflexivity. }
  change 16%nat with (8 + 8)%nat. rewrite read_words_app. f_equal.
  - apply saved_image; assumption.
  - change (4 * Z.of_nat 8) with 32. unfold save_area at 1.
    rewrite wrap_add_l. replace (psp s - 32 + 32) with (psp s) by lia.
    rewrite read_words_wrap.
    unfold after_commit, after_save. fold T.
    rewrite (proj2 (Z.eqb_neq _ _) Hnz). unfold TCB_stack_pointer.
    rewrite !read_words_write_other
      by (try assumption; vm_compute; discriminate).
    apply read_words_agree; [vm_compute; discriminate|].
    intros x Hx. apply (reg_stores_read_other _ callee_saved);
      [vm_compute; discriminate|].
    apply (regions_apart_miss 8 _ (psp s)); [lia|apply save_area_below|exact Hx].
Qed.

(** X8: the image a switch leaves of the thread it switches out has the
    layout the frame builder uses.  The TCB's stack_pointer field points
    at sixteen words: R4..R11 as they were on entry, followed by the
    eight words that were at the process stack pointer (the frame the
    processor pushed when it took the exception). *)
Theorem PendSV_Handler_saved_image (s : machine) :
  switch_aligned symaddr s = true ->
  running symaddr (mem s) <> 0 ->
  wrap (symaddr current_tcb) <> running symaddr (mem s) ->
  in_region (psp s - 32) 16 (TCB_stack_pointer (running symaddr (mem s))) = false ->
  in_region (psp s - 32) 16 (symaddr current_tcb) = false ->
  exists s',
    run_handler symaddr PendSV_Handler s = Some (EXC_RETURN_THREAD_PSP, s') /\
    read_word (mem s') (TCB_stack_pointer (running symaddr (mem s))) = wrap (psp s - 32) /\
    read_words (mem s')
      (read_word (mem s') (TCB_stack_pointer (running symaddr (mem s)))) 16 =
      map (fun r => wrap (gpr s r)) callee_saved ++ read_words (mem s) (psp s) 8.
Proof.
  intros Hal Hnz Hcr Kt Kc.
  destruct (PendSV_run symaddr s Hal) as (s' & Hrun & Hmem & _).
  destruct (after_commit_image s Hnz Hcr Kt Kc) as [Hsp Himg].
  exists s'. split; [exact Hrun|].
  rewrite (read_ext _ _ _ Hmem), (read_words_ext _ _ _ _ Hmem), Hsp.
  split; [reflexivity | exact Himg].
Qed.

(** The exception return after a switch, on a sixteen-word image. *)
Lemma return_to_image (s s1 : machine) :
  let T := chosen symaddr (mem s) in
  let sp := read_word (mem s) (TCB_stack_pointer T) in
  switch_aligned symaddr s = true ->
  switched symaddr s s1 ->
  switch_writes symaddr s (symaddr next_tcb) = false ->
  switch_writes symaddr s (TCB_stack_pointer T) = false ->
  forallb (fun x => negb (switch_writes symaddr s x)) (word_addrs sp 16) = true ->
  Z.testbit (read_word (mem s) (sp + 60)) 9 = false ->
  exists s2,
    exception_return EXC_RETURN_THREAD_PSP s1 = Some (tt, s2) /\
    running symaddr (mem s2) = T /\
    map (gpr s2) callee_saved
      ++ [ gpr s2 R0; gpr s2 R1; gpr s2 R2; gpr s2 R3; gpr s2 R12; gpr s2 LR;
           pc s2; xpsr s2 ]
      = read_words (mem s) sp 16 /\
    psp s2 = wrap (sp + 64).
Proof.
  intros T sp Hal (Hmem & _ & Hregs & Hpsp & _) Wn WT Wimg Hbit.
  assert (Hinc : incoming symaddr s = T) by (apply incoming_chosen, Wn).
  assert (Hisp : incoming_sp symaddr s = sp).
  { unfold incoming_sp. rewrite Hinc. apply switch_frame, WT. }
  assert (Himg : read_words (mem s1) sp 16 = read_words (mem s) sp 16).
  { rewrite (read_words_ext _ _ _ _ Hmem). apply switch_frame_words, Wimg. }
  rewrite Hisp in Hregs, Hpsp.
  rewrite <- (read_words_ext _ _ _ _ Hmem) in Hregs.
  assert (Asp : aligned sp = true).
  { unfold switch_aligned in Hal. rewrite !andb_true_iff in Hal.
    destruct Hal as [_ Hal]. rewrite Hisp in Hal. exact Hal. }
  assert (Ap : aligned (psp s1) = true)
    by (rewrite Hpsp; apply (aligned_wrap_add sp 8 Asp)).
  destruct (exception_return_run s1 Ap)
    as (s2 & Hret & Hmem2 & Hhw & Hcs & Hpsp2 & _).
  assert (Hbit1 : Z.testbit (read_word (mem s1) (psp s1 + 28)) 9 = false).
  { rewrite Hpsp, read_wrap_add.
    replace (sp + 32 + 28) with (sp + 4 * Z.of_nat 15) by lia.
    rewrite <- (read_words_nth _ 16) by lia. rewrite Himg.
    rewrite read_words_nth by lia.
    replace (sp + 4 * Z.of_nat 15) with (sp + 60) by lia. exact Hbit. }
  exists s2. split; [exact Hret|].
  split.
  { rewrite Hmem2. unfold running. rewrite (read_ext _ _ _ Hmem).
    fold (running symaddr (after_commit symaddr s)).
    rewrite running_after_commit. exact Hinc. }
  split.
  { rewrite Hcs, Hregs, Hhw, <- Himg.
    change 16%nat with (8 + 8)%nat. rewrite read_words_app. f_equal.
    change (4 * Z.of_nat 8) with 32. rewrite Hpsp, !read_words_wrap.
    reflexivity. }
  rewrite (Hpsp2 Hbit1), Hpsp, wrap_add_l. f_equal. lia.
Qed.

(** The trampoline followed by the exception return. *)
Lemma context_switch_image (s : machine) :
  let T := chosen symaddr (mem s) in
  let sp := read_word (mem s) (TCB_stack_pointer T) in
  switch_aligned symaddr s = true ->
  switch_writes symaddr s (symaddr next_tcb) = false ->
  switch_writes symaddr s (TCB_stack_pointer T) = false ->
  forallb (fun x => negb (switch_writes symaddr s x)) (word_addrs sp 16) = true ->
  Z.testbit (read_word (mem s) (sp + 60)) 9 = false ->
  exists s2,
    context_switch symaddr s = Some (tt, s2) /\
    running symaddr (mem s2) = T /\
    map (gpr s2) callee_saved
      ++ [ gpr s2 R0; gpr s2 R1; gpr s2 R2; gpr s2 R3; gpr s2 R12; gpr s2 LR;
           pc s2; xpsr s2 ]
      = read_words (mem s) sp 16 /\
    psp s2 = wrap (sp + 64).
Proof.
  intros T sp Hal Wn WT Wimg Hbit.
  destruct (PendSV_run symaddr s Hal) as (s1 & Hrun & Hsw).
  destruct (return_to_image s s1 Hal Hsw Wn WT Wimg Hbit) as (s2 & Hret & H).
  exists s2. split; [|exact H].
  unfold context_switch. rewrite (bind_some _ _ _ _ _ Hrun). exact Hret.
Qed.

(** The exception return after a switch, whatever bit 9 of the stacked
    xPSR is. *)
Lemma return_to_image_padded (s s1 : machine) :
  let T := chosen symaddr (mem s) in
  let sp := read_word (mem s) (TCB_stack_pointer T) in
  switch_aligned symaddr s = true ->
  switched symaddr s s1 ->
  switch_writes symaddr s (symaddr next_tcb) = false ->
  switch_writes symaddr s (TCB_stack_pointer T) = false ->
  forallb (fun x => negb (switch_writes symaddr s x)) (word_addrs sp 16) = true ->
  exists s2,
    exception_return EXC_RETURN_THREAD_PSP s1 = Some (tt, s2) /\
    running symaddr (mem s2) = T /\
    map (gpr s2) callee_saved
      ++ [ gpr s2 R0; gpr s2 R1; gpr s2 R2; gpr s2 R3; gpr s2 R12; gpr s2 LR;
           pc s2; xpsr s2 ]
      = read_words (mem s) sp 16 /\
    psp s2 = Z.lor (wrap (sp + 64))
               (if Z.testbit (read_word (mem s) (sp + 60)) 9 then 4 else 0) /\
    read_words (mem s2) sp 16 = read_words (mem s) sp 16.
Proof.
  intros T sp Hal (Hmem & _ & Hregs & Hpsp & _) Wn WT Wimg.
  assert (Hinc : incoming symaddr s = T) by (apply incoming_chosen, Wn).
  assert (Hisp : incoming_sp symaddr s = sp).
  { unfold incoming_sp. rewrite Hinc. apply switch_frame, WT. }
  assert (Himg : read_words (mem s1) sp 16 = read_words (mem s) sp 16).
  { rewrite (read_words_ext _ _ _ _ Hmem). apply switch_frame_words, Wimg. }
  rewrite Hisp in Hregs, Hpsp.
  rewrite <- (read_words_ext _ _ _ _ Hmem) in Hregs.
  assert (Asp : aligned sp = true).
  { unfold switch_aligned in Hal. rewrite !andb_true_iff in Hal.
    destruct Hal as [_ Hal]. rewrite Hisp in Hal. exact Hal. }
  assert (Ap : aligned (psp s1) = true)
    by (rewrite Hpsp; apply (aligned_wrap_add sp 8 Asp)).
  destruct (exception_return_run s1 Ap)
    as (s2 & Hret & Hmem2 & Hhw & Hcs & _).
  pose proof (exception_return_psp s1 s2 Ap Hret) as Hpsp2.
  assert (Hx : read_word (mem s1) (psp s1 + 28) = read_word (mem s) (sp + 60)).
  { rewrite Hpsp, read_wrap_add.
    replace (sp + 32 + 28) with (sp + 4 * Z.of_nat 15) by lia.
    rewrite <- (read_words_nth _ 16) by lia. rewrite Himg.
    rewrite read_words_nth by lia. f_equal; lia. }
  exists s2. split; [exact Hret|].
  split.
  { rewrite Hmem2. unfold running. rewrite (read_ext _ _ _ Hmem).
    fold (running symaddr (after_commit symaddr s)).
    rewrite running_after_commit. exact Hinc. }
  split.
  { rewrite Hcs, Hregs, Hhw, <- Himg.
    change 16%nat with (8 + 8)%nat. rewrite read_words_app. f_equal.
    change (4 * Z.of_nat 8) with 32. rewrite Hpsp, !read_words_wrap.
    reflexivity. }
  split.
  { rewrite Hpsp2, Hx, Hpsp, wrap_add_l. f_equal; f_equal; lia. }
  rewrite Hmem2. exact Himg.
Qed.

(** X9: switching a thread in restores its whole context from its
    sixteen-word image.  With next_tcb naming a TCB whose stack_pointer
    field points at the words r4..r11, r0, r1, r2, r3, r12, lr, pc, xpsr,
    none of which the save phase of this run overwrites, the trampoline
    returns with EXC_RETURN = 0xFFFFFFFD, and the exception return that
    this value asks for leaves exactly these sixteen values in the
    registers and RAM as the trampoline left it.  The process stack
    pointer ends just above the image, or 4 bytes further up when bit 9
    of the xpsr word of the image is set (the processor then skips the
    padding word it had inserted on exception entry). *)
Theorem context_switch_restores (s : machine) :
  let T := chosen symaddr (mem s) in
  let sp := read_word (mem s) (TCB_stack_pointer T) in
  switch_aligned symaddr s = true ->
  switch_writes symaddr s (symaddr next_tcb) = false ->
  switch_writes symaddr s (TCB_stack_pointer T) = false ->
  forallb (fun x => negb (switch_writes symaddr s x)) (word_addrs sp 16) = true ->
  exists s1 s2,
    run_handler symaddr PendSV_Handler s = Some (0xFFFFFFFD, s1) /\
    exception_return 0xFFFFFFFD s1 = Some (tt, s2) /\
    context_switch symaddr s = Some (tt, s2) /\
    running symaddr (mem s2) = T /\
    map (gpr s2) callee_saved
      ++ [ gpr s2 R0; gpr s2 R1; gpr s2 R2; gpr s2 R3; gpr s2 R12; gpr s2 LR;
           pc s2; xpsr s2 ]
      = read_words (mem s) sp 16 /\
    psp s2 = Z.lor (wrap (sp + 64))
               (if Z.testbit (read_word (mem s) (sp + 60)) 9 then 4 else 0) /\
    (Z.testbit (read_word (mem s) (sp + 60)) 9 = false -> psp s2 = wrap (sp + 64)) /\
    read_words (mem s2) sp 16 = read_words (mem s) sp 16.
Proof.
  intros T sp Hal Wn WT Wimg.
  destruct (PendSV_run symaddr s Hal) as (s1 & Hrun & Hsw).
  destruct (return_to_image_padded s s1 Hal Hsw Wn WT Wimg)
    as (s2 & Hret & Hcur & Hregs & Hpsp & Himg).
  exists s1, s2.
  split; [exact Hrun|]. split; [exact Hret|].
  split.
  { unfold context_switch. rewrite (bind_some _ _ _ _ _ Hrun). exact Hret. }
  split; [exact Hcur|]. split; [exact Hregs|]. split; [exact Hpsp|].
  split; [|exact Himg].
  intros Hbit. subst sp T. rewrite Hpsp, Hbit, Z.lor_0_r. reflexivity.
Qed.

Lemma word_addrs_wrap (a : Z) (n : nat) : word_addrs (wrap a) n = word_addrs a n.
Proof.
  destruct n as [|n]; [reflexivity|].
  cbn [word_addrs]. rewrite wrap_wrap, wrap_add_l. reflexivity.
Qed.

Lemma switch_writes_wrap (s : machine) (x : Z) :
  switch_writes symaddr s (wrap x) = switch_writes symaddr s x.
Proof. unfold switch_writes. rewrite wrap_wrap, in_region_wrap. reflexivity. Qed.

(** X12: a thread starts at its entry function however it is first
    switched in.  Let the frame builder set up a thread; in any later
    state in which the thread's image is still what the builder left,
    next_tcb names the thread and the save phase of the run (if there is
    one) stays out of the image, the trampoline and the exception return
    start the thread at its entry address with R0-R12 and LR zero, xPSR
    = 0x01000000 and an empty stack. *)
Theorem thread_first_activation
  (tcb stack_array stack_size task : Z) (s0 s1 s : machine) :
  aligned tcb = true ->
  aligned stack_array = true ->
  let top := stack_array + 4 * stack_size in
  in_region (top - 64) 16 (TCB_stack_pointer tcb) = false ->
  OS_ThreadInit tcb stack_array stack_size task s0 = Some (tt, s1) ->
  read_word (mem s) (TCB_stack_pointer tcb) = read_word (mem s1) (TCB_stack_pointer tcb) ->
  read_words (mem s) (wrap (top - 64)) 16 = read_words (mem s1) (wrap (top - 64)) 16 ->
  chosen symaddr (mem s) = wrap tcb ->
  switch_aligned symaddr s = true ->
  switch_writes symaddr s (symaddr next_tcb) = false ->
  switch_writes symaddr s (TCB_stack_pointer tcb) = false ->
  forallb (fun x => negb (switch_writes symaddr s x)) (word_addrs (top - 64) 16) = true ->
  exists s2,
    context_switch symaddr s = Some (tt, s2) /\
    running symaddr (mem s2) = wrap tcb /\
    pc s2 = wrap task /\
    xpsr s2 = 0x01000000 /\
    map (gpr s2) callee_saved = [0; 0; 0; 0; 0; 0; 0; 0] /\
    map (gpr s2) [R0; R1; R2; R3; R12; LR] = [0; 0; 0; 0; 0; 0] /\
    psp s2 = wrap top.
Proof.
  intros Ht Ha top Hout Hinit Hsp Himg Hch Hal Wn WT Wimg.
  unfold TCB_stack_pointer in *.
  rewrite OS_ThreadInit_run in Hinit by assumption.
  fold top in Hinit. injection Hinit as Hs1.
  destruct (frame_image (mem s0) top task tcb Hout) as [Hsp1 Hfr1].
  assert (Hm : mem s1 = write_list (mem s0)
                 (frame_stores top task ++ [(TCB_stack_pointer tcb, wrap (top - 64))]))
    by (rewrite <- Hs1; reflexivity).
  unfold TCB_stack_pointer in Hm. rewrite <- Hm in Hsp1, Hfr1. clear Hs1 Hm.
  rewrite Hsp1 in Hsp. rewrite Hfr1 in Himg.
  pose proof (context_switch_image s) as H. cbv zeta in H.
  unfold TCB_stack_pointer in H.
  rewrite Hch, read_wrap, Hsp, switch_writes_wrap, word_addrs_wrap in H.
  specialize (H Hal Wn WT Wimg).
  rewrite Himg in H.
  assert (Hbit : Z.testbit (read_word (mem s) (wrap (top - 64) + 60)) 9 = false).
  { replace (wrap (top - 64) + 60) with (wrap (top - 64) + 4 * Z.of_nat 15) by lia.
    rewrite <- (read_words_nth _ 16) by lia. rewrite Himg. reflexivity. }
  destruct (H Hbit) as (s2 & Hrun & Hcur & Hregs & Hpsp).
  exists s2. split; [exact Hrun|]. split; [exact Hcur|].
  unfold initial_frame in Hregs. cbn [callee_saved map app] in Hregs |- *.
  injection Hregs as -> -> -> -> -> -> -> -> -> -> -> -> -> -> -> ->.
  repeat split.
  rewrite Hpsp, wrap_add_l. f_equal. lia.
Qed.

(** X14: being switched out and in again is invisible to a thread.  A
    thread is switched out in state [s]; in a later state [u] its
    sixteen-word image is what the switch-out left, next_tcb names it
    and the save phase of the run stays out of the image.  Then the
    trampoline and the exception return leave R4..R11 as they were in
    [s] and load R0-R3, R12, LR, PC and xPSR from the frame that was at
    the process stack pointer in [s].  The process stack pointer ends
    just above that frame, or 4 bytes further up when bit 9 of the
    stacked xPSR is set: where it was before the processor took the
    exception. *)
Theorem thread_resumes (s s1 u : machine) :
  let T := running symaddr (mem s) in
  switch_aligned symaddr s = true ->
  T <> 0 ->
  wrap (symaddr current_tcb) <> T ->
  in_region (psp s - 32) 16 (TCB_stack_pointer T) = false ->
  in_region (psp s - 32) 16 (symaddr current_tcb) = false ->
  saved_regs_words s = true ->
  run_handler symaddr PendSV_Handler s = Some (EXC_RETURN_THREAD_PSP, s1) ->
  read_word (mem u) (TCB_stack_pointer T) = read_word (mem s1) (TCB_stack_pointer T) ->
  read_words (mem u) (wrap (psp s - 32)) 16 = read_words (mem s1) (wrap (psp s - 32)) 16 ->
  chosen symaddr (mem u) = T ->
  switch_aligned symaddr u = true ->
  switch_writes symaddr u (symaddr next_tcb) = false ->
  switch_writes symaddr u (TCB_stack_pointer T) = false ->
  forallb (fun x => negb (switch_writes symaddr u x)) (word_addrs (psp s - 32) 16) = true ->
  exists u2,
    context_switch symaddr u = Some (tt, u2) /\
    running symaddr (mem u2) = T /\
    map (gpr u2) callee_saved = map (gpr s) callee_saved /\
    [ gpr u2 R0; gpr u2 R1; gpr u2 R2; gpr u2 R3; gpr u2 R12; gpr u2 LR;
      pc u2; xpsr u2 ] = read_words (mem s) (psp s) 8 /\
    psp u2 = Z.lor (wrap (psp s + 32))
               (if Z.testbit (read_word (mem s) (psp s + 28)) 9 then 4 else 0) /\
    (Z.testbit (read_word (mem s) (psp s + 28)) 9 = false ->
     psp u2 = wrap (psp s + 32)).
Proof.
  intros T Hal Hnz Hcr Kt Kc HW Hrun1 HuT Huimg Hch Hal' Wn WT Wimg.
  destruct (PendSV_run symaddr s Hal) as (s1' & Hrun1' & Hmem & _).
  rewrite Hrun1 in Hrun1'. injection Hrun1' as <-.
  destruct (after_commit_image s Hnz Hcr Kt Kc) as [Hsp Himg].
  fold T in Hsp. unfold save_area in Hsp, Himg.
  rewrite (read_ext _ _ _ Hmem), Hsp in HuT.
  rewrite (read_words_ext _ _ _ _ Hmem), Himg in Huimg.
  rewrite saved_regs_wrap in Huimg by exact HW.
  destruct (PendSV_run symaddr u Hal') as (u1 & Hrunu & Hsw).
  pose proof (return_to_image_padded u u1) as H. cbv zeta in H.
  rewrite Hch, HuT, word_addrs_wrap in H.
  specialize (H Hal' Hsw Wn WT Wimg). rewrite Huimg in H.
  assert (Hx : read_word (mem u) (wrap (psp s - 32) + 60)
               = read_word (mem s) (psp s + 28)).
  { replace (wrap (psp s - 32) + 60)
      with (wrap (psp s - 32) + 4 * Z.of_nat 15) by lia.
    rewrite <- (read_words_nth _ 16) by lia. rewrite Huimg.
    rewrite app_nth2 by (cbn [callee_saved map List.length]; lia).
    cbn [callee_saved map List.length Nat.sub].
    rewrite read_words_nth by lia. f_equal; lia. }
  destruct H as (u2 & Hret & Hcur & Hregs & Hpsp & _).
  assert (Hpsp' : psp u2 = Z.lor (wrap (psp s + 32))
                    (if Z.testbit (read_word (mem s) (psp s + 28)) 9 then 4 else 0)).
  { rewrite Hpsp, Hx, wrap_add_l. f_equal; f_equal; lia. }
  exists u2. split.
  { unfold context_switch. rewrite (bind_some _ _ _ _ _ Hrunu). exact Hret. }
  split; [exact Hcur|].
  split; [|split; [|split; [exact Hpsp'|]]].
  - rewrite read_words_8 in Hregs. cbn [callee_saved map app] in Hregs |- *.
    injection Hregs as -> -> -> -> -> -> -> -> _ _ _ _ _ _ _ _. reflexivity.
  - rewrite read_words_8 in Hregs |- *. cbn [callee_saved map app] in Hregs.
    injection Hregs as _ _ _ _ _ _ _ _ -> -> -> -> -> -> -> ->. reflexivity.
  - intros Hbit. rewrite Hpsp', Hbit, Z.lor_0_r. reflexivity.
Qed.

End SavedImage.

(** * The order of the round robin *)

Section RingOrder.

Variable symaddr : symbol -> Z.
Variable ring : list Z.

(** X10: the schedule is a strict round robin.  After any number k of
    tick-and-switch cycles the running thread is the one k places
    further along the ring, which is the TCB reached from the thread
    that ran at the start by following [next] k times; no thread is
    skipped, and the state is again one from which the next cycle can
    run. *)
Theorem round_robin_order (k i : nat) (s : machine) :
  layout_ok symaddr ring = true ->
  sched_ok symaddr ring i s = true ->
  exists s',
    cycles symaddr k s = Some (tt, s') /\
    running symaddr (mem s') = nth ((i + k) mod List.length ring) ring 0 /\
    running symaddr (mem s') = hop (mem s) k (running symaddr (mem s)) /\
    sched_ok symaddr ring ((i + k) mod List.length ring) s' = true.
Proof.
  intros HL HS.
  destruct (cycles_run symaddr ring k i s HL HS) as (s' & Hrun & HS').
  exists s'. split; [exact Hrun|].
  pose proof HS as H0. apply sched_ok_spec in H0.
  destruct H0 as (Hi & Hr & Hc & _).
  pose proof HS' as H1. apply sched_ok_spec in H1.
  destruct H1 as (_ & Hr' & _).
  split; [exact Hr'|]. split; [|exact HS'].
  rewrite Hr', Hr. symmetry. apply hop_ring; assumption.
Qed.

(** X13: no thread starves.  Every thread of the ring is the running
    thread after fewer cycles than the ring has threads. *)
Theorem every_thread_runs (i : nat) (s : machine) (t : Z) :
  layout_ok symaddr ring = true ->
  sched_ok symaddr ring i s = true ->
  In t ring ->
  exists k s',
    (k < List.length ring)%nat /\
    cycles symaddr k s = Some (tt, s') /\
    running symaddr (mem s') = t.
Proof.
  intros HL HS Ht.
  destruct (In_nth _ _ 0 Ht) as (j & Hj & <-).
  set (N := List.length ring) in *.
  assert (Hi : (i < N)%nat) by (apply sched_ok_spec in HS; tauto).
  set (k := ((j + (N - i)) mod N)%nat).
  destruct (cycles_run symaddr ring k i s HL HS) as (s' & Hrun & HS').
  exists k, s'. split; [apply Nat.mod_upper_bound; lia|].
  split; [exact Hrun|].
  apply sched_ok_spec in HS'. destruct HS' as (_ & Hr' & _).
  rewrite Hr'. f_equal. unfold k. fold N.
  rewrite Nat.Div0.add_mod_idemp_r.
  replace (i + (j + (N - i)))%nat with (j + N)%nat by lia.
  rewrite <- Nat.Div0.add_mod_idemp_r, Nat.Div0.mod_same, Nat.add_0_r.
  apply Nat.mod_small, Hj.
Qed.

End RingOrder.

(** * The contexts of all threads over the cycles *)

Lemma is_word_of_wrap (x : Z) : is_word (wrap x) = true.
Proof.
  unfold is_word. pose proof (wrap_range x).
  apply andb_true_iff. rewrite Z.leb_le, Z.ltb_lt. lia.
Qed.

Lemma map_wrap_read_words (m : Z -> Z) (n : nat) (a : Z) :
  map wrap (read_words m a n) = read_words m a n.
Proof.
  revert a. induction n as [|n IH]; intros a; [reflexivity|].
  cbn [read_words map]. rewrite IH, wrap_read. reflexivity.
Qed.

Lemma wrapped_regs_of_reads (s : machine) (m : Z -> Z) (a : Z) :
  map (gpr s) callee_saved = read_words m a 8 ->
  map (fun r => wrap (gpr s r)) callee_saved = read_words m a 8 /\
  saved_regs_words s = true.
Proof.
  intros H. split.
  - rewrite <- (map_map (gpr s) wrap), H. apply map_wrap_read_words.
  - unfold saved_regs_words.
    rewrite <- (map_wrap_read_words m 8 a) in H.
    cbn [callee_saved map read_words forallb] in *.
    injection H as -> -> -> -> -> -> -> ->.
    rewrite !is_word_of_wrap. reflexivity.
Qed.

Lemma same_save_area (a b : Z) :
  is_word a = true -> is_word b = true ->
  wrap (a - 32) = wrap (b - 32) -> a = b.
Proof.
  intros Ha Hb H.
  rewrite <- (is_word_wrap a Ha), <- (is_word_wrap b Hb).
  replace a with (a - 32 + 32) by lia. replace b with (b - 32 + 32) by lia.
  rewrite <- (wrap_add_l (a - 32)), <- (wrap_add_l (b - 32)), H. reflexivity.
Qed.

Lemma forallb_seq_spec (f : nat -> bool) (n : nat) :
  forallb f (seq 0 n) = true <-> forall j, (j < n)%nat -> f j = true.
Proof.
  rewrite forallb_forall. split.
  - intros H j Hj. apply H, in_seq. lia.
  - intros H j Hj. apply in_seq in Hj. apply H. lia.
Qed.

Section RingContexts.

Variable symaddr : symbol -> Z.
Variable ring : list Z.

Lemma ring_distinct_spec :
  ring_distinct ring = true <->
  forall j k, (j < List.length ring)%nat -> (k < List.length ring)%nat ->
    j <> k -> nth j ring 0 <> nth k ring 0.
Proof.
  unfold ring_distinct. rewrite forallb_seq_spec. split.
  - intros H j k Hj Hk Hjk. specialize (H j Hj).
    rewrite forallb_seq_spec in H. specialize (H k Hk).
    apply orb_true_iff in H. destruct H as [H|H].
    + apply Nat.eqb_eq in H. contradiction.
    + apply negb_true_iff, Z.eqb_neq in H. exact H.
  - intros H j Hj. apply forallb_seq_spec. intros k Hk.
    destruct (Nat.eqb_spec j k) as [E|E]; [reflexivity|].
    cbn [orb]. apply negb_true_iff, Z.eqb_neq. apply H; assumption.
Qed.

Lemma contexts_apart_spec (i : nat) (s : machine) :
  contexts_apart ring i s = true <->
  forall j k, (j < List.length ring)%nat -> (k < List.length ring)%nat ->
    j <> k ->
    regions_apart 8 (context_area ring i s j) (context_area ring i s k) = true.
Proof.
  unfold contexts_apart. rewrite forallb_seq_spec. split.
  - intros H j k Hj Hk Hjk. specialize (H j Hj).
    rewrite forallb_seq_spec in H. specialize (H k Hk).
    apply orb_true_iff in H. destruct H as [H|H]; [|exact H].
    apply Nat.eqb_eq in H. contradiction.
  - intros H j Hj. apply forallb_seq_spec. intros k Hk.
    destruct (Nat.eqb_spec j k) as [E|E]; [reflexivity|].
    cbn [orb]. apply H; assumption.
Qed.

(** One cycle moves the running thread's context to its stack and the
    next thread's context to the registers, and leaves every context as
    it was. *)
Lemma cycle_contexts (i : nat) (s : machine) :
  layout_ok symaddr ring = true ->
  ring_distinct ring = true ->
  sched_ok symaddr ring i s = true ->
  contexts_apart ring i s = true ->
  exists s2,
    tick_and_switch symaddr s = Some (tt, s2) /\
    sched_ok symaddr ring (S i mod List.length ring) s2 = true /\
    is_word (psp s2) = true /\
    saved_regs_words s2 = true /\
    (forall j, (j < List.length ring)%nat ->
       context_area ring (S i mod List.length ring) s2 j = context_area ring i s j /\
       context_regs ring (S i mod List.length ring) s2 j = context_regs ring i s j).
Proof.
  intros HL HD HS HA.
  destruct (cycle_step symaddr ring i s HL HS)
    as (s1 & s2 & H1 & H2 & _ & _ & HS2 & Hsp & Himg & Hpsp & Hregs & Hframe).
  pose proof HS as HS0. apply sched_ok_spec in HS0.
  destruct HS0 as (Hi & Hrun & _ & _ & Hclr & Hstk).
  apply clear_of_kernel_spec in Hclr. destruct Hclr as (_ & _ & Kt).
  rewrite ring_distinct_spec in HD. rewrite contexts_apart_spec in HA.
  set (N := List.length ring) in *.
  assert (Hi' : (S i mod N < N)%nat) by (apply Nat.mod_upper_bound; lia).
  set (i' := (S i mod N)%nat) in *.
  set (ti := nth i ring 0) in *.
  assert (Iti : In ti ring) by (apply nth_In; exact Hi).
  destruct (layout_ok_tcb symaddr ring ti HL Iti) as (Wi & _).
  (* the saved stack pointers *)
  assert (C1 : forall j, (j < N)%nat ->
            read_word (mem s2) (nth j ring 0) = context_area ring i s j).
  { intros j Hj. unfold context_area, TCB_stack_pointer.
    destruct (Nat.eqb_spec j i) as [->|Hji]; [exact Hsp|].
    assert (Ij : In (nth j ring 0) ring) by (apply nth_In; exact Hj).
    destruct (layout_ok_tcb symaddr ring _ HL Ij) as (Wj & _ & _ & Cj & _ & Nj & _).
    apply Hframe; [apply Kt, Ij | exact Cj | exact Nj |].
    fold ti. rewrite Wj, Wi. apply HD; assumption. }
  (* the saved registers *)
  assert (C2 : forall j, (j < N)%nat ->
            read_words (mem s2) (context_area ring i s j) 8 = context_regs ring i s j).
  { intros j Hj. unfold context_regs.
    destruct (Nat.eqb_spec j i) as [->|Hji].
    - unfold context_area. rewrite Nat.eqb_refl. exact Himg.
    - assert (Ij : In (nth j ring 0) ring) by (apply nth_In; exact Hj).
      assert (Hap := HA i j Hi Hj (not_eq_sym Hji)).
      unfold context_area in Hap |- *. rewrite Nat.eqb_refl in Hap.
      rewrite (proj2 (Nat.eqb_neq _ _) Hji) in Hap |- *.
      unfold TCB_stack_pointer in *.
      set (a := read_word (mem s) (nth j ring 0)) in *.
      destruct (Hstk _ Ij) as [_ Ka]. fold a in Ka.
      apply clear_of_kernel_spec in Ka. destruct Ka as (Kc & Kn & Ka).
      apply read_words_agree; [vm_compute; discriminate|].
      intros x Hx. change (Z.of_nat 8) with 8 in Hx.
      assert (Hne : forall y, in_region a 8 y = false -> wrap x <> wrap y).
      { intros y Hy E.
        assert (Exy : in_region a 8 x = in_region a 8 y)
          by (rewrite <- (in_region_wrap a 8 x), E; apply in_region_wrap).
        congruence. }
      apply Hframe.
      + apply (regions_apart_miss 8 _ a); [lia | exact Hap | exact Hx].
      + apply Hne, Kc.
      + apply Hne, Kn.
      + apply Hne. fold ti. apply Ka, Iti. }
  assert (Hsa : save_area s2 = context_area ring i s i').
  { unfold save_area. rewrite Hpsp, wrap_sub_l.
    replace (read_word (mem s2) (nth i' ring 0) + 32 - 32)
      with (read_word (mem s2) (nth i' ring 0)) by lia.
    rewrite wrap_read. apply C1, Hi'. }
  destruct (wrapped_regs_of_reads s2 _ _ Hregs) as [Hregs' HW2].
  rewrite (C1 i' Hi') in Hregs'.
  exists s2. split; [exact (tick_and_switch_run _ _ _ _ _ H1 H2)|].
  split; [exact HS2|].
  split; [rewrite Hpsp; apply is_word_of_wrap|].
  split; [exact HW2|].
  intros j Hj.
  assert (Ea : context_area ring i' s2 j = context_area ring i s j).
  { unfold context_area at 1.
    destruct (Nat.eqb_spec j i') as [->|_]; [exact Hsa | apply C1, Hj]. }
  split; [exact Ea|].
  unfold context_regs at 1. rewrite Ea.
  destruct (Nat.eqb_spec j i') as [->|_].
  - rewrite Hregs'. apply C2, Hi'.
  - apply C2, Hj.
Qed.

Lemma cycles_contexts (k : nat) (i : nat) (s : machine) :
  layout_ok symaddr ring = true ->
  ring_distinct ring = true ->
  sched_ok symaddr ring i s = true ->
  contexts_apart ring i s = true ->
  saved_regs_words s = true ->
  is_word (psp s) = true ->
  exists s',
    cycles symaddr k s = Some (tt, s') /\
    sched_ok symaddr ring ((i + k) mod List.length ring) s' = true /\
    is_word (psp s') = true /\
    saved_regs_words s' = true /\
    (forall j, (j < List.length ring)%nat ->
       context_area ring ((i + k) mod List.length ring) s' j = context_area ring i s j /\
       context_regs ring ((i + k) mod List.length ring) s' j = context_regs ring i s j).
Proof.
  intros HL HD. revert i s. induction k as [|k IH]; intros i s HS HA HW HP.
  - exists s. split; [reflexivity|].
    assert (Hi : (i < List.length ring)%nat) by (apply sched_ok_spec in HS; tauto).
    rewrite Nat.add_0_r, Nat.mod_small by exact Hi. auto.
  - destruct (cycle_contexts i s HL HD HS HA) as (s2 & Hrun2 & HS2 & HP2 & HW2 & HC2).
    assert (HA2 : contexts_apart ring (S i mod List.length ring) s2 = true).
    { apply contexts_apart_spec. intros j l Hj Hl Hjl.
      rewrite (proj1 (HC2 j Hj)), (proj1 (HC2 l Hl)).
      rewrite contexts_apart_spec in HA. apply HA; assumption. }
    destruct (IH _ _ HS2 HA2 HW2 HP2) as (s' & Hrun & HS' & HP' & HW' & HC').
    rewrite Nat.Div0.add_mod_idemp_l in HS', HC'.
    replace (S i + k)%nat with (i + S k)%nat in HS', HC' by lia.
    exists s'. split.
    { cbn [cycles]. rewrite (bind_some _ _ _ _ _ Hrun2). exact Hrun. }
    split; [exact HS'|]. split; [exact HP'|]. split; [exact HW'|].
    intros j Hj. destruct (HC' j Hj) as [Ea Er]. destruct (HC2 j Hj) as [Ea2 Er2].
    split; [rewrite Ea; exact Ea2 | rewrite Er; exact Er2].
Qed.

(** X11: switching never loses a context.  In a ring of pairwise
    distinct TCBs whose context areas share no word, any number of
    tick-and-switch cycles leaves every thread's R4..R11 and the place
    they are kept as they were.  Whenever the thread that ran at the
    start runs again (after one full round, for one), R4..R11 and the
    process stack pointer are what they were at the start, and the saved
    stack pointer and saved registers of every other thread are
    unchanged. *)
Theorem cycles_keep_contexts (k i : nat) (s : machine) :
  layout_ok symaddr ring = true ->
  ring_distinct ring = true ->
  sched_ok symaddr ring i s = true ->
  contexts_apart ring i s = true ->
  saved_regs_words s = true ->
  is_word (psp s) = true ->
  exists s',
    cycles symaddr k s = Some (tt, s') /\
    (forall j, (j < List.length ring)%nat ->
       context_area ring ((i + k) mod List.length ring) s' j = context_area ring i s j /\
       context_regs ring ((i + k) mod List.length ring) s' j = context_regs ring i s j) /\
    (((i + k) mod List.length ring)%nat = i ->
     running symaddr (mem s') = running symaddr (mem s) /\
     map (gpr s') callee_saved = map (gpr s) callee_saved /\
     psp s' = psp s /\
     forall j, (j < List.length ring)%nat -> j <> i ->
       read_word (mem s') (TCB_stack_pointer (nth j ring 0)) =
         read_word (mem s) (TCB_stack_pointer (nth j ring 0)) /\
       read_words (mem s') (read_word (mem s') (TCB_stack_pointer (nth j ring 0))) 8 =
         read_words (mem s) (read_word (mem s) (TCB_stack_pointer (nth j ring 0))) 8).
Proof.
  intros HL HD HS HA HW HP.
  destruct (cycles_contexts k i s HL HD HS HA HW HP)
    as (s' & Hrun & HS' & HP' & HW' & HC).
  exists s'. split; [exact Hrun|]. split; [exact HC|].
  intros Ek. rewrite Ek in HC, HS'.
  apply sched_ok_spec in HS. destruct HS as (Hi & Hr & _).
  apply sched_ok_spec in HS'. destruct HS' as (_ & Hr' & _).
  destruct (HC i Hi) as [Ea Er].
  unfold context_area, context_regs in Ea, Er. rewrite Nat.eqb_refl in Ea, Er.
  rewrite !saved_regs_wrap in Er by assumption.
  split; [rewrite Hr', Hr; reflexivity|].
  split; [exact Er|].
  split; [apply same_save_area; assumption|].
  intros j Hj Hji. destruct (HC j Hj) as [Ea' Er'].
  unfold context_regs in Er'. unfold context_area in Ea', Er'.
  rewrite (proj2 (Nat.eqb_neq _ _) Hji) in Ea', Er'.
  split; [exact Ea' | exact Er'].
Qed.

End RingContexts.

(** * What the handlers store to over the cycles *)

Lemma existsb_seq_spec (f : nat -> bool) (n : nat) :
  existsb f (seq 0 n) = true <-> exists j, (j < n)%nat /\ f j = true.
Proof.
  rewrite existsb_exists. split.
  - intros (j & Hj & H). apply in_seq in Hj. exists j. split; [lia | exact H].
  - intros (j & Hj & H). exists j. split; [apply in_seq; lia | exact H].
Qed.

Section CycleFootprint.

Variable symaddr : symbol -> Z.
Variable ring : list Z.

Lemma scheduler_word_spec (i : nat) (s : machine) (x : Z) :
  scheduler_word symaddr ring i s x = false <->
  wrap x <> wrap (symaddr next_tcb) /\
  wrap x <> wrap (symaddr current_tcb) /\
  (forall j, (j < List.length ring)%nat ->
     wrap x <> wrap (nth j ring 0) /\
     in_region (context_area ring i s j) 8 x = false).
Proof.
  unfold scheduler_word, TCB_stack_pointer.
  rewrite !orb_false_iff, !Z.eqb_neq. split.
  - intros [[Hn Hc] He]. split; [exact Hn|]. split; [exact Hc|].
    intros j Hj.
    assert (H : (wrap x =? wrap (nth j ring 0))
                || in_region (context_area ring i s j) 8 x = false).
    { destruct ((wrap x =? wrap (nth j ring 0))
                || in_region (context_area ring i s j) 8 x) eqn:E; [|reflexivity].
      rewrite <- He. symmetry. apply existsb_seq_spec. exists j. auto. }
    apply orb_false_iff in H. rewrite Z.eqb_neq in H. exact H.
  - intros (Hn & Hc & H). split; [split; assumption|].
    apply not_true_is_false. intros He. apply existsb_seq_spec in He.
    destruct He as (j & Hj & He). destruct (H j Hj) as [H1 H2].
    rewrite H2, (proj2 (Z.eqb_neq _ _) H1) in He. discriminate.
Qed.

(** The tick, with the state it leaves for the trampoline. *)
Lemma cycle_tick (i : nat) (s : machine) :
  layout_ok symaddr ring = true ->
  sched_ok symaddr ring i s = true ->
  exists s1,
    SysTick_Handler symaddr s = Some (tt, s1) /\
    switch_aligned symaddr s1 = true /\
    log s1 = log s ++
      [ Rd (wrap (symaddr current_tcb));
        Rd (wrap (TCB_next (nth i ring 0)));
        Wr (wrap (symaddr next_tcb)) (nth (S i mod List.length ring) ring 0) ] /\
    running symaddr (mem s1) = nth i ring 0 /\
    save_area s1 = save_area s.
Proof.
  intros HL HS.
  destruct (layout_ok_globals symaddr ring HL) as (Hc & Hn & Hcn).
  apply sched_ok_spec in HS.
  destruct HS as (Hi & Hrun & Hring & Hpsp & Hclr & Hsp).
  apply ring_closed_spec in Hring. destruct Hring as [Hne Hring].
  assert (Hi' : (S i mod List.length ring < List.length ring)%nat)
    by (apply Nat.mod_upper_bound; lia).
  set (ti := nth i ring 0) in *.
  set (tn := nth (S i mod List.length ring) ring 0) in *.
  assert (Iti : In ti ring) by (apply nth_In; exact Hi).
  assert (Itn : In tn ring) by (apply nth_In; exact Hi').
  destruct (layout_ok_tcb symaddr ring ti HL Iti) as (Wi & Zi & Ai & Ci & Ci4 & Ni & Ni4 & Di).
  destruct (layout_ok_tcb symaddr ring tn HL Itn) as (Wn & Zn & An & Cn & Cn4 & Nn & Nn4 & Dn).
  apply clear_of_kernel_spec in Hclr. destruct Hclr as (Kc & Kn & Kt).
  assert (Hnext : read_word (mem s) (TCB_next ti) = tn) by (apply Hring, Hi).
  pose proof (SysTick_run symaddr s Hc Hn) as Htick.
  rewrite Hrun, Hnext in Htick. specialize (Htick Ai).
  match type of Htick with _ = Some (tt, ?st) => set (s1 := st) in * end.
  assert (M1 : forall x, wrap x <> wrap (symaddr next_tcb) ->
                         read_word (mem s1) x = read_word (mem s) x)
    by (intros x Hx; apply read_write_other, Hx).
  assert (R1 : running symaddr (mem s1) = ti)
    by (unfold running; rewrite M1 by exact Hcn; exact Hrun).
  assert (N1 : chosen symaddr (mem s1) = tn)
    by (unfold chosen, s1; cbn [mem]; rewrite read_write_same; exact Wn).
  assert (A1 : save_area s1 = save_area s) by reflexivity.
  assert (P1 : psp s1 = psp s) by reflexivity.
  assert (L1 : log s1 = log s ++
                 [ Rd (wrap (symaddr current_tcb)); Rd (wrap (TCB_next ti));
                   Wr (wrap (symaddr next_tcb)) tn ]) by reflexivity.
  clearbody s1.
  assert (Z1 : running symaddr (mem s1) <> 0) by (rewrite R1; exact Zi).
  assert (Hinc : incoming symaddr s1 = tn).
  { unfold incoming, chosen. rewrite after_save_read; [|exact Z1|rewrite A1; exact Kn].
    rewrite R1. destruct (Z.eqb_spec (wrap (symaddr next_tcb)) ti) as [E|E].
    - exfalso. apply Ni. rewrite Wi. symmetry. exact E.
    - exact N1. }
  assert (Asa : aligned (save_area s) = true)
    by (unfold save_area; apply (aligned_wrap_sub _ 8 Hpsp)).
  assert (Aisp : aligned (incoming_sp symaddr s1) = true).
  { unfold incoming_sp, TCB_stack_pointer. rewrite Hinc.
    rewrite after_commit_read; [|exact Z1|rewrite A1; apply Kt, Itn].
    rewrite (proj2 (Z.eqb_neq _ _) Cn), R1.
    destruct (wrap tn =? ti); [rewrite A1; exact Asa|].
    rewrite M1 by exact Nn. apply Hsp, Itn. }
  exists s1. split; [exact Htick|]. split.
  { unfold switch_aligned.
    rewrite Hc, Hn, (proj2 (Z.eqb_neq _ _) Z1), R1, Ai, P1, Hpsp, Hinc, An, Aisp.
    reflexivity. }
  auto.
Qed.

(** One cycle stores to next_tcb, to the context area and the
    stack_pointer field of the thread it switches out, and to
    current_tcb. *)
Lemma cycle_footprint (i : nat) (s : machine) :
  layout_ok symaddr ring = true ->
  sched_ok symaddr ring i s = true ->
  exists s2 new,
    tick_and_switch symaddr s = Some (tt, s2) /\
    log s2 = log s ++ new /\
    (forall e, In e new -> is_write e = true ->
       scheduler_word symaddr ring i s (access_addr e) = true) /\
    (forall x, scheduler_word symaddr ring i s x = false ->
       read_word (mem s2) x = read_word (mem s) x).
Proof.
  intros HL HS.
  destruct (cycle_tick i s HL HS) as (s1 & H1 & Hal & L1 & R1 & A1).
  destruct (cycle_step symaddr ring i s HL HS)
    as (s1' & s2 & H1' & H2 & _ & _ & _ & _ & _ & _ & _ & Hframe).
  rewrite H1 in H1'. injection H1' as <-.
  destruct (Switch_effect symaddr s1 Hal) as (s2' & new & Hrun & Hlog & _ & Hw & _).
  cbn [run_op] in Hrun. rewrite (bind_some _ _ _ _ _ H2) in Hrun.
  injection Hrun as <-.
  assert (Hi : (i < List.length ring)%nat) by (apply sched_ok_spec in HS; tauto).
  assert (Iti : In (nth i ring 0) ring) by (apply nth_In; exact Hi).
  destruct (layout_ok_tcb symaddr ring _ HL Iti) as (Wi & Zi & _).
  eexists s2, (_ ++ new).
  split; [exact (tick_and_switch_run _ _ _ _ _ H1 H2)|].
  split; [rewrite Hlog, L1, <- app_assoc; reflexivity|].
  split.
  - intros e He Hwe. apply not_false_is_true. intros Hs.
    apply scheduler_word_spec in Hs. destruct Hs as (Hn & Hc & Hj).
    destruct (Hj i Hi) as [Hti Har].
    unfold context_area in Har. rewrite Nat.eqb_refl in Har.
    apply in_app_or in He. destruct He as [He|He].
    + cbn [In] in He. destruct He as [<-|[<-|[<-|[]]]]; try discriminate.
      cbn [access_addr] in Hn. rewrite wrap_wrap in Hn. apply Hn. reflexivity.
    + specialize (Hw e He Hwe). unfold switch_writes in Hw.
      rewrite (proj2 (Z.eqb_neq _ _) Hc), R1, A1, Har in Hw.
      rewrite (proj2 (Z.eqb_neq _ _) Zi) in Hw. rewrite Wi in Hti.
      rewrite (proj2 (Z.eqb_neq _ _) Hti) in Hw. discriminate.
  - intros x Hs. apply scheduler_word_spec in Hs. destruct Hs as (Hn & Hc & Hj).
    destruct (Hj i Hi) as [Hti Har].
    unfold context_area in Har. rewrite Nat.eqb_refl in Har.
    apply Hframe; assumption.
Qed.

Lemma scheduler_word_ext (i i' : nat) (s s' : machine) (x : Z) :
  (forall j, (j < List.length ring)%nat ->
     context_area ring i' s' j = context_area ring i s j) ->
  scheduler_word symaddr ring i' s' x = scheduler_word symaddr ring i s x.
Proof.
  intros H.
  destruct (scheduler_word symaddr ring i s x) eqn:E.
  - apply not_false_is_true. intros E'. apply scheduler_word_spec in E'.
    destruct E' as (Hn & Hc & Hj).
    assert (E0 : scheduler_word symaddr ring i s x = false).
    { apply scheduler_word_spec. split; [exact Hn|]. split; [exact Hc|].
      intros j Hjn. rewrite <- (H j Hjn). apply Hj, Hjn. }
    congruence.
  - apply scheduler_word_spec in E. destruct E as (Hn & Hc & Hj).
    apply scheduler_word_spec. split; [exact Hn|]. split; [exact Hc|].
    intros j Hjn. rewrite (H j Hjn). apply Hj, Hjn.
Qed.

(** X15: the handlers keep to their own words.  Over any number of
    tick-and-switch cycles every store goes to next_tcb, to current_tcb,
    to the stack_pointer field of a TCB of the ring or into the context
    area of a thread; every other word of RAM (the [next] fields, the
    rest of every stack, everything else) keeps its value. *)
Theorem cycles_stores_confined (k i : nat) (s : machine) :
  layout_ok symaddr ring = true ->
  ring_distinct ring = true ->
  sched_ok symaddr ring i s = true ->
  contexts_apart ring i s = true ->
  exists s' new,
    cycles symaddr k s = Some (tt, s') /\
    log s' = log s ++ new /\
    (forall e, In e new -> is_write e = true ->
       scheduler_word symaddr ring i s (access_addr e) = true) /\
    (forall x, scheduler_word symaddr ring i s x = false ->
       read_word (mem s') x = read_word (mem s) x).
Proof.
  intros HL HD. revert i s. induction k as [|k IH]; intros i s HS HA.
  - exists s, []. split; [reflexivity|]. split; [symmetry; apply app_nil_r|].
    split; [intros e []|reflexivity].
  - destruct (cycle_contexts symaddr ring i s HL HD HS HA)
      as (s2 & Hrun2 & HS2 & _ & _ & HC2).
    destruct (cycle_footprint i s HL HS) as (s2' & new1 & Hrun2' & Hlog1 & Hw1 & Hm1).
    rewrite Hrun2 in Hrun2'. injection Hrun2' as <-.
    assert (HA2 : contexts_apart ring (S i mod List.length ring) s2 = true).
    { apply contexts_apart_spec. intros j l Hj Hl Hjl.
      rewrite (proj1 (HC2 j Hj)), (proj1 (HC2 l Hl)).
      rewrite contexts_apart_spec in HA. apply HA; assumption. }
    assert (Hext : forall x,
              scheduler_word symaddr ring (S i mod List.length ring) s2 x
              = scheduler_word symaddr ring i s x)
      by (intros x; apply scheduler_word_ext; intros j Hj; apply HC2, Hj).
    destruct (IH _ _ HS2 HA2) as (s' & new2 & Hrun & Hlog2 & Hw2 & Hm2).
    exists s', (new1 ++ new2).
    split; [cbn [cycles]; rewrite (bind_some _ _ _ _ _ Hrun2); exact Hrun|].
    split; [rewrite Hlog2, Hlog1, app_assoc; reflexivity|].
    split.
    + intros e He Hwe. apply in_app_or in He. destruct He as [He|He].
      * apply Hw1; assumption.
      * rewrite <- Hext. apply Hw2; assumption.
    + intros x Hx. rewrite Hm2 by (rewrite Hext; exact Hx). apply Hm1, Hx.
Qed.

End CycleFootprint.

(** * Preemption is invisible to the threads *)

Lemma words_eqb_spec (l l' : list Z) : words_eqb l l' = true <-> l = l'.
Proof.
  revert l'. induction l as [|x r IH]; intros [|y r']; cbn [words_eqb];
    try (split; [discriminate | discriminate]); [tauto|].
  rewrite andb_true_iff, Z.eqb_eq, IH. split.
  - intros [-> ->]. reflexivity.
  - intros H. injection H as -> ->. auto.
Qed.

Section Preempted.

Variable symaddr : symbol -> Z.
Variable ring : list Z.

Lemma others_kept_spec (i : nat) (s s' : machine) :
  others_kept ring i s s' = true ->
  forall j, (j < List.length ring)%nat -> j <> i ->
    context_area ring i s' j = context_area ring i s j /\
    context_regs ring i s' j = context_regs ring i s j.
Proof.
  unfold others_kept. rewrite forallb_seq_spec. intros H j Hj Hji.
  specialize (H j Hj). rewrite (proj2 (Nat.eqb_neq _ _) Hji) in H.
  cbn [orb] in H. apply andb_true_iff in H. destruct H as [H1 H2].
  apply Z.eqb_eq in H1. apply words_eqb_spec in H2. auto.
Qed.

Lemma resumed_along (es : list slice) :
  layout_ok symaddr ring = true ->
  ring_distinct ring = true ->
  forall (i : nat) (s : machine) (out : nat -> option (list Z * Z)),
    sched_ok symaddr ring i s = true ->
    contexts_apart ring i s = true ->
    saved_regs_words s = true ->
    is_word (psp s) = true ->
    out_agrees ring i s out ->
    slices_ok symaddr ring es i s = true ->
    exists s',
      run_slices symaddr es s = Some (tt, s') /\
      resumed symaddr ring es i s out = true.
Proof.
  intros HL HD. induction es as [|e rest IH]; intros i s out HS HA HW HP HO Hok.
  - exists s. split; reflexivity.
  - destruct e as [|f]; cbn [slices_ok] in Hok.
    + destruct (cycle_contexts symaddr ring i s HL HD HS HA)
        as (s2 & Hrun2 & HS2 & HP2 & HW2 & HC2).
      rewrite Hrun2 in Hok.
      set (N := List.length ring) in *.
      set (i' := (S i mod N)%nat) in *.
      assert (Hi : (i < N)%nat) by (apply sched_ok_spec in HS; tauto).
      assert (Hi' : (i' < N)%nat) by (apply Nat.mod_upper_bound; lia).
      assert (HA2 : contexts_apart ring i' s2 = true).
      { apply contexts_apart_spec. intros j l Hj Hl Hjl.
        rewrite (proj1 (HC2 j Hj)), (proj1 (HC2 l Hl)).
        rewrite contexts_apart_spec in HA. apply HA; assumption. }
      set (out' := fun j => if Nat.eqb j i
                            then Some (map (gpr s) callee_saved, psp s)
                            else out j).
      (* what the table records for any thread is what its context holds *)
      assert (HO' : forall j regs sp, (j < N)%nat -> out' j = Some (regs, sp) ->
                context_regs ring i' s2 j = regs /\
                context_area ring i' s2 j = wrap (sp - 32) /\
                is_word sp = true).
      { intros j regs sp Hj Hout. destruct (HC2 j Hj) as [Ea Er].
        rewrite Ea, Er. unfold out' in Hout.
        destruct (Nat.eqb_spec j i) as [->|Hji].
        - injection Hout as <- <-.
          unfold context_regs, context_area. rewrite Nat.eqb_refl.
          rewrite saved_regs_wrap by exact HW. auto.
        - apply (HO j regs sp Hj Hji Hout). }
      destruct (IH i' s2 out' HS2 HA2 HW2 HP2) as (s' & Hrun & Hres);
        [intros j regs sp Hj _ Hout; apply (HO' j regs sp Hj Hout) | exact Hok |].
      exists s'. split.
      { cbn [run_slices run_slice]. rewrite (bind_some _ _ _ _ _ Hrun2). exact Hrun. }
      cbn [resumed]. rewrite Hrun2. fold N i' out'. rewrite Hres, andb_true_r.
      change (match out' i' with
              | Some (regs, sp) =>
                  words_eqb (map (gpr s2) callee_saved) regs && (psp s2 =? sp)
              | None => true
              end = true).
      destruct (out' i') as [[regs sp]|] eqn:Eo; [|reflexivity].
      destruct (HO' i' regs sp Hi' Eo) as (Er & Ea & Hsp).
      unfold context_regs, context_area in Er, Ea. rewrite Nat.eqb_refl in Er, Ea.
      rewrite saved_regs_wrap in Er by exact HW2.
      apply andb_true_iff. split; [apply words_eqb_spec, Er|].
      apply Z.eqb_eq. apply same_save_area; assumption.
    + apply andb_true_iff in Hok. destruct Hok as [Hrun Hok].
      unfold run_ok in Hrun. rewrite !andb_true_iff in Hrun.
      destruct Hrun as [[[[HS' HA'] HW'] HP'] HK].
      pose proof (others_kept_spec i s (f s) HK) as HK'.
      destruct (IH i (f s) out HS' HA' HW' HP') as (s' & Hrun & Hres);
        [|exact Hok|].
      { intros j regs sp Hj Hji Hout. destruct (HK' j Hj Hji) as [Ea Er].
        rewrite Ea, Er. apply (HO j regs sp Hj Hji Hout). }
      exists s'. split; [exact Hrun | exact Hres].
Qed.

(** X16: preemption is invisible to the threads.  Take any execution
    made of preemptions (a tick and the switch it requests) and
    stretches of thread code, in which the thread code leaves the
    kernel's words and the other threads' saved contexts alone.  Every
    handler of the execution returns, and every preemption switches in a
    thread that finds in R4..R11 and in the process stack pointer what
    it had when it was last switched out. *)
Theorem preemption_keeps_contexts (es : list slice) (i : nat) (s : machine) :
  layout_ok symaddr ring = true ->
  ring_distinct ring = true ->
  sched_ok symaddr ring i s = true ->
  contexts_apart ring i s = true ->
  saved_regs_words s = true ->
  is_word (psp s) = true ->
  slices_ok symaddr ring es i s = true ->
  exists s',
    run_slices symaddr es s = Some (tt, s') /\
    resumed symaddr ring es i s (fun _ => None) = true.
Proof.
  intros HL HD HS HA HW HP Hok.
  apply (resumed_along es HL HD i s (fun _ => None)); try assumption.
  intros j regs sp _ _ H. discriminate.
Qed.

End Preempted.

(** * The further theorems on the concrete system *)

Lemma OS_ThreadInit_small_buffer_witness :
  exists s' new,
    OS_ThreadInit demo_t1 demo_stack1 4 demo_task1 demo_reset = Some (tt, s') /\
    log s' = log demo_reset ++ new /\
    In (wrap (demo_stack1 + 4 * (4 - 5))) (map access_addr (filter is_write new)) /\
    in_region demo_stack1 4 (demo_stack1 + 4 * (4 - 5)) = false.
Proof.
  destruct (OS_ThreadInit_small_buffer demo_t1 demo_stack1 4 demo_task1 demo_reset)
    as (s' & new & H1 & H2 & H3 & _); [computed | computed | lia | computed |].
  exists s', new. split; [exact H1|]. split; [exact H2|]. apply H3. lia.
Defined.

Lemma OS_ThreadInit_independent_witness :
  exists sab sba,
    (OS_ThreadInit demo_t1 demo_stack1 32 demo_task1 ;;
     OS_ThreadInit demo_t2 demo_stack2 32 demo_task2) demo_reset = Some (tt, sab) /\
    (OS_ThreadInit demo_t2 demo_stack2 32 demo_task2 ;;
     OS_ThreadInit demo_t1 demo_stack1 32 demo_task1) demo_reset = Some (tt, sba) /\
    (forall x, mem sab x = mem sba x) /\
    read_words (mem sab) (wrap (demo_stack1 + 4 * 32 - 64)) 16 = initial_frame demo_task1.
Proof.
  destruct (OS_ThreadInit_independent
              demo_t1 demo_stack1 32 demo_task1
              demo_t2 demo_stack2 32 demo_task2 demo_reset)
    as (sab & sba & H1 & H2 & H3 & _ & H4 & _);
    [ computed | computed | computed | computed | computed | computed
    | computed | computed | computed | computed | ].
  exists sab, sba. auto.
Defined.


Lemma SysTick_Handler_twice_witness :
  exists s1 s2,
    SysTick_Handler demo_symaddr demo_running = Some (tt, s1) /\
    SysTick_Handler demo_symaddr s1 = Some (tt, s2) /\
    chosen demo_symaddr (mem s2) = demo_t2 /\
    icsr s2 = icsr s1.
Proof.
  destruct (SysTick_Handler_twice demo_symaddr demo_running)
    as (s1 & s2 & H1 & H2 & H3 & _ & H4 & _);
    [ computed | computed | computed | computed | computed | ].
  exists s1, s2. split; [exact H1|]. split; [exact H2|].
  split; [rewrite H3; computed | exact H4].
Defined.

Lemma PendSV_Handler_footprint_witness :
  exists s' new,
    run_handler demo_symaddr PendSV_Handler demo_ticked
      = Some (EXC_RETURN_THREAD_PSP, s') /\
    log s' = log demo_ticked ++ new /\
    List.length (filter is_write new) = 10%nat /\
    icsr s' = icsr demo_ticked.
Proof.
  destruct (PendSV_Handler_footprint demo_symaddr demo_ticked)
    as (s' & new & H1 & H2 & H3 & _ & _ & H4 & _); [computed|].
  exists s', new. split; [exact H1|]. split; [exact H2|].
  split; [|exact H4].
  rewrite <- (length_map access_addr), H3. reflexivity.
Defined.

Lemma PendSV_Handler_same_thread_witness :
  exists s',
    run_handler demo_symaddr PendSV_Handler demo_running
      = Some (EXC_RETURN_THREAD_PSP, s') /\
    running demo_symaddr (mem s') = running demo_symaddr (mem demo_running) /\
    map (gpr s') callee_saved = map (gpr demo_running) callee_saved /\
    psp s' = psp demo_running.
Proof.
  destruct (PendSV_Handler_same_thread demo_symaddr demo_running)
    as (s' & H1 & H2 & H3 & H4 & _);
    [ computed | computed | computed | computed | computed | computed
    | computed | computed | computed | computed | computed | ].
  exists s'. auto.
Defined.

Lemma PendSV_Handler_null_next_witness :
  exists s',
    run_handler demo_symaddr PendSV_Handler demo_reset
      = Some (EXC_RETURN_THREAD_PSP, s') /\
    running demo_symaddr (mem s') = 0 /\
    psp s' = 32.
Proof.
  destruct (PendSV_Handler_null_next demo_symaddr demo_reset)
    as (s' & H1 & H2 & _ & H3); [computed | computed | computed | computed |].
  exists s'. split; [exact H1|]. split; [exact H2|]. rewrite H3. computed.
Defined.

Lemma PendSV_Handler_saved_image_witness :
  exists s',
    run_handler demo_symaddr PendSV_Handler demo_ticked
      = Some (EXC_RETURN_THREAD_PSP, s') /\
    read_word (mem s') (TCB_stack_pointer demo_t1) = wrap (psp demo_ticked - 32).
Proof.
  destruct (PendSV_Handler_saved_image demo_symaddr demo_ticked)
    as (s' & H1 & H2 & _);
    [ computed | computed | computed | computed | computed | ].
  exists s'. split; [exact H1 | exact H2].
Defined.

Lemma context_switch_restores_witness :
  exists s2,
    context_switch demo_symaddr demo_padded = Some (tt, s2) /\
    running demo_symaddr (mem s2) = demo_t2 /\
    xpsr s2 = 0x01000200 /\
    psp s2 = demo_stack2 + 4 * 32 + 4.
Proof.
  destruct (context_switch_restores demo_symaddr demo_padded)
    as (s1 & s2 & _ & _ & H1 & H2 & H3 & H4 & _);
    [ computed | computed | computed | computed | ].
  exists s2. split; [exact H1|].
  split; [rewrite H2; computed|].
  split; [|rewrite H4; computed].
  apply (f_equal (fun l => nth 15 l 0)) in H3. cbv beta in H3.
  rewrite read_words_nth in H3 by lia.
  rewrite app_nth2 in H3 by (cbn [callee_saved map List.length]; lia).
  cbn [callee_saved map List.length Nat.sub nth] in H3.
  rewrite H3. computed.
Defined.

Lemma round_robin_order_witness :
  exists s',
    cycles demo_symaddr 5 demo_running = Some (tt, s') /\
    running demo_symaddr (mem s') = demo_t3.
Proof.
  destruct (round_robin_order demo_symaddr demo_ring 5 0 demo_running)
    as (s' & H1 & H2 & _); [computed | computed |].
  exists s'. split; [exact H1 | exact H2].
Defined.

Lemma every_thread_runs_witness :
  exists k s',
    (k < 3)%nat /\
    cycles demo_symaddr k demo_running = Some (tt, s') /\
    running demo_symaddr (mem s') = demo_t3.
Proof.
  apply (every_thread_runs demo_symaddr demo_ring 0 demo_running demo_t3);
    [computed | computed | right; right; left; reflexivity].
Defined.

Lemma cycles_keep_contexts_witness :
  exists s',
    cycles demo_symaddr 3 demo_running = Some (tt, s') /\
    map (gpr s') callee_saved = map (gpr demo_running) callee_saved /\
    psp s' = psp demo_running.
Proof.
  destruct (cycles_keep_contexts demo_symaddr demo_ring 3 0 demo_running)
    as (s' & H1 & _ & H2);
    [ computed | computed | computed | computed | computed | computed | ].
  destruct (H2 eq_refl) as (_ & H3 & H4 & _).
  exists s'. auto.
Defined.

Lemma thread_first_activation_witness :
  exists s2,
    context_switch demo_symaddr demo_ticked = Some (tt, s2) /\
    running demo_symaddr (mem s2) = wrap demo_t2 /\
    pc s2 = wrap demo_task2 /\
    map (gpr s2) callee_saved = [0; 0; 0; 0; 0; 0; 0; 0].
Proof.
  destruct (thread_first_activation demo_symaddr
              demo_t2 demo_stack2 32 demo_task2
              demo_one_framed demo_two_framed demo_ticked)
    as (s2 & H1 & H2 & H3 & _ & H4 & _);
    [ computed | computed | computed | computed | computed | computed
    | computed | computed | computed | computed | computed | ].
  exists s2. auto.
Defined.

Lemma thread_resumes_witness :
  exists u2,
    context_switch demo_symaddr demo_later = Some (tt, u2) /\
    running demo_symaddr (mem u2) = demo_t1 /\
    map (gpr u2) callee_saved = map (gpr demo_ticked) callee_saved /\
    pc u2 = wrap demo_task1.
Proof.
  destruct (thread_resumes demo_symaddr demo_ticked demo_switched demo_later)
    as (u2 & H1 & H2 & H3 & H4 & _);
    [ computed | computed | computed | computed | computed | computed
    | computed | computed | computed | computed | computed | computed
    | computed | computed | ].
  exists u2. split; [exact H1|]. split; [rewrite H2; computed|].
  split; [exact H3|].
  apply (f_equal (fun l => nth 6 l 0)) in H4. cbv beta in H4.
  rewrite read_words_nth in H4 by lia. cbn [nth] in H4.
  rewrite H4. computed.
Defined.

Lemma cycles_stores_confined_witness :
  exists s' new,
    cycles demo_symaddr 4 demo_running = Some (tt, s') /\
    log s' = log demo_running ++ new /\
    read_word (mem s') (TCB_next demo_t2) = demo_t3.
Proof.
  destruct (cycles_stores_confined demo_symaddr demo_ring 4 0 demo_running)
    as (s' & new & H1 & H2 & _ & H3); [computed | computed | computed | computed |].
  exists s', new. split; [exact H1|]. split; [exact H2|].
  rewrite H3 by computed. computed.
Defined.

(** Thread 1 is preempted; thread 2 runs and fills its registers;
    threads 3, 1 and 2 follow. *)
Lemma preemption_keeps_contexts_witness :
  exists s',
    run_slices demo_symaddr
      [Preempt; Run (fun s => with_gpr s demo_pattern2); Preempt; Preempt; Preempt]
      demo_running = Some (tt, s') /\
    resumed demo_symaddr demo_ring
      [Preempt; Run (fun s => with_gpr s demo_pattern2); Preempt; Preempt; Preempt]
      0 demo_running (fun _ => None) = true.
Proof.
  apply (preemption_keeps_contexts demo_symaddr demo_ring
           [Preempt; Run (fun s => with_gpr s demo_pattern2); Preempt; Preempt; Preempt]
           0 demo_running);
    computed.
Defined.
